(** * Campfire chat: room and message repositories over the key-value store

    A shallow embedding of the server side of the chat application
    (src/server/index.ts together with the repositories in src/server/data and
    the helpers in src/shared), and the properties of its room membership,
    discovery ranking, message retention and the reading of messages.

    Conventions of the embedding.
    - JavaScript strings are byte strings ([string]), their length is counted
      in bytes (the length of the language for ASCII text), and the white
      space that [trim] and [parseInt] skip is the ASCII white space.
      Integers that the code keeps in [number]s (timestamps, counts, limits)
      are [Z].
    - [Date.now()] and [generateId()] are inputs of the operation that calls
      them ([now], [id]).
    - Every asynchronous repository call is a function from the store to a
      result and a new store; a failure of the store itself is not modelled.
    - The store keeps a field with the value the code wrote into it: a field
      written with [JSON.stringify] of a string array holds the array, one
      written with [n.toString()] holds the integer, the flag written as
      ['true'] / ['false'] holds the boolean.  A field that was never written
      is absent ([None]), which is where the [|| '[]'] and [|| '0'] defaults of
      the readers apply.  In the same way a sorted set holds, for each member
      text [JSON.stringify(message)], the message itself; members are ranked
      by their texts.
    - The store is reached through the [redis] client of
      [@devvit/web/server], which src/server/index.ts hands to the three
      repositories.  Its [zRange] resolves to objects [{ member, score }],
      its options are [by], [limit] and [reverse], it has neither a
      [zRevRange] nor a [zRangeByScore], and its [hGet] resolves to
      [undefined] for a field that is not there.
    - [String.prototype.toLowerCase] follows the case tables of Unicode; the
      search that uses it takes it as an argument.
    - A key holds one shape of value (room hash, profile hash, hash used as
      a set, sorted set), as the key patterns of the code arrange for ids
      drawn by [generateId]; [del] removes a key whatever it holds. *)

From Stdlib Require Import ZArith String Ascii List Bool Lia.
From Stdlib Require Import Sorting.Sorted Sorting.Permutation.
From Stdlib Require Import DecimalString DecimalZ.
From stdpp Require Import base option list gmap strings sorting.

Local Open Scope string_scope.
Local Open Scope Z_scope.

(** ** Text: JSON output, number printing, [parseInt], [trim] *)

Module Text.

(** [n.toString()] for an integer [n]. *)
Definition toString (n : Z) : string :=
  NilEmpty.string_of_int (Z.to_int n).

Definition hex_digit (n : N) : ascii :=
  match n with
  | 0 => "0" | 1 => "1" | 2 => "2" | 3 => "3" | 4 => "4" | 5 => "5"
  | 6 => "6" | 7 => "7" | 8 => "8" | 9 => "9" | 10 => "a" | 11 => "b"
  | 12 => "c" | 13 => "d" | 14 => "e" | _ => "f"
  end%N%char.

Definition dquote : ascii := "034"%char.

(** The escape [JSON.stringify] writes for one character of a string. *)
Definition json_escape_char (c : ascii) : string :=
  let n := N_of_ascii c in
  if (n =? 34)%N then String "\" (String dquote EmptyString)
  else if (n =? 92)%N then "\\"
  else if (n =? 8)%N then "\b"
  else if (n =? 9)%N then "\t"
  else if (n =? 10)%N then "\n"
  else if (n =? 12)%N then "\f"
  else if (n =? 13)%N then "\r"
  else if (n <? 32)%N then
    String "\" (String "u" (String "0" (String "0"
      (String (hex_digit (n / 16)) (String (hex_digit (n mod 16)) EmptyString)))))
  else String c EmptyString.

Fixpoint json_escape (s : string) : string :=
  match s with
  | EmptyString => EmptyString
  | String c s' => json_escape_char c ++ json_escape s'
  end.

(** [JSON.stringify(s)] for a string [s]. *)
Definition json_string (s : string) : string :=
  String dquote (json_escape s ++ String dquote EmptyString).

(** White space that [trim] and [parseInt] skip (the ASCII part of it). *)
Definition is_space (c : ascii) : bool :=
  let n := N_of_ascii c in
  ((9 <=? n) && (n <=? 13) || (n =? 32))%N.

Fixpoint trimStart (s : string) : string :=
  match s with
  | String c s' => if is_space c then trimStart s' else s
  | EmptyString => EmptyString
  end.

Fixpoint trimEnd (s : string) : string :=
  match s with
  | EmptyString => EmptyString
  | String c s' =>
      match trimEnd s' with
      | EmptyString => if is_space c then EmptyString else String c EmptyString
      | t => String c t
      end
  end.

(** [s.trim()]. *)
Definition trim (s : string) : string := trimEnd (trimStart s).

Definition dec_digit (c : ascii) : option (Decimal.uint -> Decimal.uint) :=
  match c with
  | "0" => Some Decimal.D0 | "1" => Some Decimal.D1 | "2" => Some Decimal.D2
  | "3" => Some Decimal.D3 | "4" => Some Decimal.D4 | "5" => Some Decimal.D5
  | "6" => Some Decimal.D6 | "7" => Some Decimal.D7 | "8" => Some Decimal.D8
  | "9" => Some Decimal.D9 | _ => None
  end%char.

Definition hex_digit_of (c : ascii) : option (Hexadecimal.uint -> Hexadecimal.uint) :=
  match c with
  | "0" => Some Hexadecimal.D0 | "1" => Some Hexadecimal.D1
  | "2" => Some Hexadecimal.D2 | "3" => Some Hexadecimal.D3
  | "4" => Some Hexadecimal.D4 | "5" => Some Hexadecimal.D5
  | "6" => Some Hexadecimal.D6 | "7" => Some Hexadecimal.D7
  | "8" => Some Hexadecimal.D8 | "9" => Some Hexadecimal.D9
  | "a" | "A" => Some Hexadecimal.Da | "b" | "B" => Some Hexadecimal.Db
  | "c" | "C" => Some Hexadecimal.Dc | "d" | "D" => Some Hexadecimal.Dd
  | "e" | "E" => Some Hexadecimal.De | "f" | "F" => Some Hexadecimal.Df
  | _ => None
  end%char.

(** The longest prefix of decimal (resp. hexadecimal) digits. *)
Fixpoint dec_prefix (s : string) : Decimal.uint :=
  match s with
  | String c s' =>
      match dec_digit c with
      | Some d => d (dec_prefix s')
      | None => Decimal.Nil
      end
  | EmptyString => Decimal.Nil
  end.

Fixpoint hex_prefix (s : string) : Hexadecimal.uint :=
  match s with
  | String c s' =>
      match hex_digit_of c with
      | Some d => d (hex_prefix s')
      | None => Hexadecimal.Nil
      end
  | EmptyString => Hexadecimal.Nil
  end.

Definition parse_sign (s : string) : bool * string :=
  match s with
  | String "-" s' => (true, s')
  | String "+" s' => (false, s')
  | _ => (false, s)
  end.

Definition apply_sign (neg : bool) (n : Z) : Z := if neg then - n else n.

(** The digits after the sign: hexadecimal after [0x], decimal otherwise;
    [None] is [NaN]. *)
Definition parse_digits (neg : bool) (body : string) : option Z :=
  match body with
  | String "0" (String "x" h) | String "0" (String "X" h) =>
      match hex_prefix h with
      | Hexadecimal.Nil => None
      | d => Some (apply_sign neg (Z.of_hex_uint d))
      end
  | _ =>
      match dec_prefix body with
      | Decimal.Nil => None
      | d => Some (apply_sign neg (Z.of_uint d))
      end
  end.

(** [parseInt(s)] without a radix: leading white space, an optional sign,
    an optional [0x] prefix, then the longest run of digits. *)
Definition parseInt (s : string) : option Z :=
  let (neg, body) := parse_sign (trimStart s) in
  parse_digits neg body.

(** [s.includes(q)]: [q] occurs in [s] at some position. *)
Fixpoint includes (s q : string) : bool :=
  String.prefix q s ||
  match s with
  | String _ s' => includes s' q
  | EmptyString => false
  end.

(** [s.replace(/[<>]/g, '')]. *)
Fixpoint remove_angle_brackets (s : string) : string :=
  match s with
  | EmptyString => EmptyString
  | String c s' =>
      if Ascii.eqb c "<" || Ascii.eqb c ">" then remove_angle_brackets s'
      else String c (remove_angle_brackets s')
  end.

End Text.


(** ** Shared types (src/shared/types/chat.ts) and constants *)

Module Message.

Record t := mk {
  id : string;
  chatRoomId : string;
  userId : string;
  username : string;
  content : string;
  timestamp : Z
}.

#[global] Instance eq_dec : EqDecision t.
Proof. solve_decision. Defined.

Definition json_field (k v : string) : string :=
  Text.json_string k ++ ":" ++ v.

(** [JSON.stringify(message)]: the member text kept in the sorted set. *)
Definition stringify (m : t) : string :=
  "{" ++ json_field "id" (Text.json_string (id m))
  ++ "," ++ json_field "chatRoomId" (Text.json_string (chatRoomId m))
  ++ "," ++ json_field "userId" (Text.json_string (userId m))
  ++ "," ++ json_field "username" (Text.json_string (username m))
  ++ "," ++ json_field "content" (Text.json_string (content m))
  ++ "," ++ json_field "timestamp" (Text.toString (timestamp m))
  ++ "}".

End Message.

(** ** [JSON.parse]

    The values that a JSON text denotes and the reading of a text.  A string
    holds the bytes that its characters and escapes stand for (an escape
    [\uXXXX] the UTF-8 bytes of that unit); a number is kept as written. *)

Module Json.

#[warnings="-register-all"]
Inductive value :=
| Null
| Bool (b : bool)
| Number (written : string)
| Str (s : string)
| Array (items : list value)
| Object (members : list (string * value)).

(** How reading a piece of text ends: with what was read and the text after
    it, or with the SyntaxError of a text that is not JSON.  [OutOfFuel] is
    the end of a reading that was given too few steps; [parse] gives enough
    of them. *)
Inductive reading (A : Type) :=
| Read (a : A) (rest : string)
| SyntaxError
| OutOfFuel.
Arguments Read {A} a rest.
Arguments SyntaxError {A}.
Arguments OutOfFuel {A}.

(** The white space of JSON: space, tab, line feed, carriage return. *)
Definition is_ws (c : ascii) : bool :=
  let n := N_of_ascii c in
  ((n =? 32) || (n =? 9) || (n =? 10) || (n =? 13))%N.

Fixpoint skip_ws (s : string) : string :=
  match s with
  | String c s' => if is_ws c then skip_ws s' else s
  | EmptyString => EmptyString
  end.

Fixpoint skip (n : nat) (s : string) : string :=
  match n, s with
  | S n', String _ s' => skip n' s'
  | _, _ => s
  end.

(** The text after [word], when the text begins with it. *)
Definition literal (word s : string) : option string :=
  if String.prefix word s then Some (skip (String.length word) s) else None.

Definition is_digit (c : ascii) : bool :=
  let n := N_of_ascii c in ((48 <=? n) && (n <=? 57))%N.

(** The longest run of digits at the head of the text, and the rest. *)
Fixpoint digits (s : string) : string * string :=
  match s with
  | String c s' =>
      if is_digit c then let (run, rest) := digits s' in (String c run, rest)
      else (EmptyString, s)
  | EmptyString => (EmptyString, EmptyString)
  end.

(** The fraction [.digits] and the exponent [e], [e+] or [e-] with digits,
    each of them optional; [None] when the digits are missing. *)
Definition fraction (s : string) : option (string * string) :=
  match s with
  | String "." r =>
      match digits r with
      | (EmptyString, _) => None
      | (run, rest) => Some (String "." run, rest)
      end
  | _ => Some (EmptyString, s)
  end.

Definition exponent (s : string) : option (string * string) :=
  match s with
  | String c r =>
      if Ascii.eqb c "e" || Ascii.eqb c "E" then
        let (sign, r') :=
          match r with
          | String "+" r' => ("+", r')
          | String "-" r' => ("-", r')
          | _ => (EmptyString, r)
          end in
        match digits r' with
        | (EmptyString, _) => None
        | (run, rest) => Some (String c (sign ++ run), rest)
        end
      else Some (EmptyString, s)
  | EmptyString => Some (EmptyString, s)
  end.

(** A number: an optional [-], then [0] or digits that do not begin with
    [0], then the fraction and the exponent. *)
Definition number (s : string) : option (string * string) :=
  let (sign, s1) :=
    match s with
    | String "-" r => ("-", r)
    | _ => (EmptyString, s)
    end in
  let integer :=
    match s1 with
    | String "0" r => Some ("0", r)
    | _ =>
        match digits s1 with
        | (EmptyString, _) => None
        | (run, rest) => Some (run, rest)
        end
    end in
  match integer with
  | None => None
  | Some (int, s2) =>
      match fraction s2 with
      | None => None
      | Some (frac, s3) =>
          match exponent s3 with
          | None => None
          | Some (exp, s4) => Some (sign ++ int ++ frac ++ exp, s4)
          end
      end
  end.

Definition hex_value (c : ascii) : option N :=
  let n := N_of_ascii c in
  if ((48 <=? n) && (n <=? 57))%N then Some (n - 48)%N
  else if ((97 <=? n) && (n <=? 102))%N then Some (n - 87)%N
  else if ((65 <=? n) && (n <=? 70))%N then Some (n - 55)%N
  else None.

(** The UTF-8 bytes of a unit below [0x10000]. *)
Definition utf8 (u : N) : string :=
  if (u <? 128)%N then String (ascii_of_N u) EmptyString
  else if (u <? 2048)%N then
    String (ascii_of_N (192 + u / 64)) (String (ascii_of_N (128 + u mod 64)) EmptyString)
  else
    String (ascii_of_N (224 + u / 4096))
      (String (ascii_of_N (128 + (u / 64) mod 64))
         (String (ascii_of_N (128 + u mod 64)) EmptyString)).

(** The character that the escape [\c] stands for, for the escapes of one
    letter. *)
Definition escaped (c : ascii) : option ascii :=
  let n := N_of_ascii c in
  if (n =? 34)%N then Some c
  else if (n =? 92)%N then Some c
  else if (n =? 47)%N then Some c
  else if (n =? 98)%N then Some (ascii_of_N 8)
  else if (n =? 102)%N then Some (ascii_of_N 12)
  else if (n =? 110)%N then Some (ascii_of_N 10)
  else if (n =? 114)%N then Some (ascii_of_N 13)
  else if (n =? 116)%N then Some (ascii_of_N 9)
  else None.

(** The characters of a string up to its closing quote, and the text after
    the quote.  A control character (below [0x20]) cannot stand
    unescaped. *)
Fixpoint chars (s : string) : option (string * string) :=
  match s with
  | EmptyString => None
  | String c r =>
      if Ascii.eqb c Text.dquote then Some (EmptyString, r)
      else if Ascii.eqb c "\" then
        match r with
        | String e r' =>
            if Ascii.eqb e "u" then
              match r' with
              | String h1 (String h2 (String h3 (String h4 r''))) =>
                  match hex_value h1, hex_value h2, hex_value h3, hex_value h4 with
                  | Some a, Some b, Some c', Some d =>
                      match chars r'' with
                      | Some (t, rest) =>
                          Some (utf8 (4096 * a + 256 * b + 16 * c' + d) ++ t, rest)
                      | None => None
                      end
                  | _, _, _, _ => None
                  end
              | _ => None
              end
            else
              match escaped e with
              | Some x =>
                  match chars r' with
                  | Some (t, rest) => Some (String x t, rest)
                  | None => None
                  end
              | None => None
              end
        | EmptyString => None
        end
      else if (N_of_ascii c <? 32)%N then None
      else
        match chars r with
        | Some (t, rest) => Some (String c t, rest)
        | None => None
        end
  end.

(** The text after the character [c], when the text begins with it after
    white space. *)
Definition after (c : ascii) (s : string) : option string :=
  match skip_ws s with
  | String d rest => if Ascii.eqb d c then Some rest else None
  | EmptyString => None
  end.

(** A value, after white space; the elements of an array after its [[],
    up to its []]; the members of an object after its [{], up to its
    [}]. *)
Fixpoint element (fuel : nat) (s : string) : reading value :=
  match fuel with
  | O => OutOfFuel
  | S fuel =>
      match skip_ws s with
      | EmptyString => SyntaxError
      | String c r =>
          if Ascii.eqb c Text.dquote then
            match chars r with
            | Some (t, rest) => Read (Str t) rest
            | None => SyntaxError
            end
          else if Ascii.eqb c "[" then
            match after "]" r with
            | Some rest => Read (Array []) rest
            | None =>
                match elements fuel r with
                | Read items rest => Read (Array items) rest
                | SyntaxError => SyntaxError
                | OutOfFuel => OutOfFuel
                end
            end
          else if Ascii.eqb c "{" then
            match after "}" r with
            | Some rest => Read (Object []) rest
            | None =>
                match members fuel r with
                | Read fields rest => Read (Object fields) rest
                | SyntaxError => SyntaxError
                | OutOfFuel => OutOfFuel
                end
            end
          else
            match literal "null" (String c r), literal "true" (String c r),
                  literal "false" (String c r) with
            | Some rest, _, _ => Read Null rest
            | _, Some rest, _ => Read (Bool true) rest
            | _, _, Some rest => Read (Bool false) rest
            | None, None, None =>
                match number (String c r) with
                | Some (n, rest) => Read (Number n) rest
                | None => SyntaxError
                end
            end
      end
  end
with elements (fuel : nat) (s : string) : reading (list value) :=
  match fuel with
  | O => OutOfFuel
  | S fuel =>
      match element fuel s with
      | Read v rest =>
          match after "]" rest, after "," rest with
          | Some rest', _ => Read [v] rest'
          | None, Some rest' =>
              match elements fuel rest' with
              | Read items rest'' => Read (v :: items) rest''
              | SyntaxError => SyntaxError
              | OutOfFuel => OutOfFuel
              end
          | None, None => SyntaxError
          end
      | SyntaxError => SyntaxError
      | OutOfFuel => OutOfFuel
      end
  end
with members (fuel : nat) (s : string) : reading (list (string * value)) :=
  match fuel with
  | O => OutOfFuel
  | S fuel =>
      match after Text.dquote s with
      | None => SyntaxError
      | Some r =>
          match chars r with
          | None => SyntaxError
          | Some (name, rest) =>
              match after ":" rest with
              | None => SyntaxError
              | Some rest' =>
                  match element fuel rest' with
                  | Read v rest'' =>
                      match after "}" rest'', after "," rest'' with
                      | Some rest3, _ => Read [(name, v)] rest3
                      | None, Some rest3 =>
                          match members fuel rest3 with
                          | Read fields rest4 => Read ((name, v) :: fields) rest4
                          | SyntaxError => SyntaxError
                          | OutOfFuel => OutOfFuel
                          end
                      | None, None => SyntaxError
                      end
                  | SyntaxError => SyntaxError
                  | OutOfFuel => OutOfFuel
                  end
              end
          end
      end
  end.

(** The reading of a whole text: one value between white space. *)
Definition read (text : string) : reading value :=
  match element (2 * String.length text + 2) text with
  | Read v rest =>
      match skip_ws rest with
      | EmptyString => Read v EmptyString
      | _ => SyntaxError
      end
  | SyntaxError => SyntaxError
  | OutOfFuel => OutOfFuel
  end.

(** [JSON.parse(text)]; [None] is the SyntaxError that it throws for a text
    that is not JSON. *)
Definition parse (text : string) : option value :=
  match read text with
  | Read v _ => Some v
  | _ => None
  end.

(** [v.name] for a value that [JSON.parse] returned and a name that the
    prototypes of strings, numbers, booleans and arrays do not have ([id],
    [timestamp]): the member of an object (the last one of that name), or
    [undefined] (the inner [None]).  On [null] the access throws a
    TypeError (the outer [None]). *)
Definition prop (v : value) (name : string) : option (option value) :=
  match v with
  | Null => None
  | Object fields => Some (snd <$> last (filter (λ field, field.1 = name) fields))
  | _ => Some None
  end.

(** [x === s] for a string [s]. *)
Definition is_string (x : option value) (s : string) : bool :=
  match x with
  | Some (Str t) => bool_decide (t = s)
  | _ => false
  end.

End Json.

(** A value read as [data.field] from a hash: [None] is [undefined]. *)
Abbreviation js_string := (option string).

(** [!s] for such a value: [undefined] and the empty string are falsy. *)
Definition falsy (s : js_string) : bool :=
  match s with
  | None | Some EmptyString => true
  | Some _ => false
  end.

Module ChatRoom.

Record t := mk {
  id : string;
  title : js_string;
  topic : js_string;
  creatorId : js_string;
  creatorUsername : js_string;
  participants : list string;
  participantCount : Z;
  interests : list string;
  isActive : bool;
  createdAt : Z;
  lastActivity : Z
}.

End ChatRoom.

Module APP_CONSTANTS.
Definition MAX_INTERESTS : Z := 5.
Definition MAX_MESSAGE_LENGTH : Z := 500.
Definition MAX_CHAT_ROOM_PARTICIPANTS : Z := 50.
Definition MESSAGE_HISTORY_LIMIT : Z := 100.
Definition CHAT_ROOM_TITLE_MAX_LENGTH : Z := 100.
Definition CHAT_ROOM_TOPIC_MAX_LENGTH : Z := 200.
End APP_CONSTANTS.

(** The ids of [INTEREST_TAGS]. *)
Definition INTEREST_TAG_IDS : list string :=
  ["gaming"; "technology"; "music"; "movies"; "sports"; "food"; "travel";
   "books"; "art"; "science"; "fitness"; "photography"].

Module REDIS_KEYS.
Definition chatRoom (id : string) : string := "chatroom:" ++ id.
Definition chatRoomMessages (id : string) : string := "chatroom:" ++ id ++ ":messages".
Definition userInterests (userId : string) : string := "user:" ++ userId ++ ":interests".
Definition userActiveChats (userId : string) : string := "user:" ++ userId ++ ":active_chats".
Definition userProfile (userId : string) : string := "user:" ++ userId ++ ":profile".
Definition interestChatRooms (tag : string) : string := "interests:" ++ tag.
Definition activeChatRooms : string := "active_chatrooms".
End REDIS_KEYS.

(** ** The key-value store

    The client is outside the repository; its methods are those of the
    [redis] client of [@devvit/web/server], which run the Redis commands
    they name.  Three shapes of value occur:
    - the room hash at [chatroom:{id}] and the profile hash at
      [user:{id}:profile], with the fields the code writes;
    - hashes used as sets ([active_chatrooms], [interests:{tag}],
      [user:{id}:active_chats], [user:{id}:interests]): every field holds
      ['1'], so such a hash is its list of field names, in insertion order;
    - the sorted set at [chatroom:{id}:messages], kept in rank order. *)

Definition orElse {A} (new old : option A) : option A :=
  match new with
  | Some _ => new
  | None => old
  end.

Module RoomHash.

Record t := mk {
  id : js_string;
  title : js_string;
  topic : js_string;
  creatorId : js_string;
  creatorUsername : js_string;
  participants : option (list string);
  participantCount : option Z;
  interests : option (list string);
  isActive : option bool;
  createdAt : option Z;
  lastActivity : option Z
}.

(** [hGetAll] of a key that does not exist: [{}]. *)
Definition empty : t :=
  mk None None None None None None None None None None None.

(** [hSet] with the object [fields] over the hash [old]: the fields given
    are overwritten, the others kept. *)
Definition set (fields old : t) : t :=
  mk (orElse (id fields) (id old))
     (orElse (title fields) (title old))
     (orElse (topic fields) (topic old))
     (orElse (creatorId fields) (creatorId old))
     (orElse (creatorUsername fields) (creatorUsername old))
     (orElse (participants fields) (participants old))
     (orElse (participantCount fields) (participantCount old))
     (orElse (interests fields) (interests old))
     (orElse (isActive fields) (isActive old))
     (orElse (createdAt fields) (createdAt old))
     (orElse (lastActivity fields) (lastActivity old)).

End RoomHash.

Module ProfileHash.

Record t := mk {
  id : js_string;
  username : js_string;
  interests : option (list string);
  activeChats : option (list string);
  createdAt : option Z
}.

Definition empty : t := mk None None None None None.

Definition set (fields old : t) : t :=
  mk (orElse (id fields) (id old))
     (orElse (username fields) (username old))
     (orElse (interests fields) (interests old))
     (orElse (activeChats fields) (activeChats old))
     (orElse (createdAt fields) (createdAt old)).

End ProfileHash.

(** An entry of a sorted set: score and member. *)
Abbreviation zentry := (Z * Message.t)%type.

Record Store := mkStore {
  roomHashes : gmap string RoomHash.t;
  profileHashes : gmap string ProfileHash.t;
  setHashes : gmap string (list string);
  sortedSets : gmap string (list zentry)
}.

Definition emptyStore : Store := mkStore ∅ ∅ ∅ ∅.

(** Bounds of a range by score: ['-inf'], ['+inf'], [n] and the exclusive
    ['(n']. *)
Inductive score_bound :=
| NegInf
| PosInf
| Incl (n : Z)
| Excl (n : Z).

Module Redis.

(** *** Hashes *)

Definition hGetAll_room (st : Store) (key : string) : RoomHash.t :=
  default RoomHash.empty (roomHashes st !! key).

Definition hSet_room (st : Store) (key : string) (fields : RoomHash.t) : Store :=
  mkStore (<[key := RoomHash.set fields (hGetAll_room st key)]> (roomHashes st))
          (profileHashes st) (setHashes st) (sortedSets st).

Definition hGetAll_profile (st : Store) (key : string) : ProfileHash.t :=
  default ProfileHash.empty (profileHashes st !! key).

Definition hSet_profile (st : Store) (key : string) (fields : ProfileHash.t) : Store :=
  mkStore (roomHashes st)
          (<[key := ProfileHash.set fields (hGetAll_profile st key)]> (profileHashes st))
          (setHashes st) (sortedSets st).

(** [Object.keys(await redis.hGetAll(key))] for a hash used as a set. *)
Definition hKeys (st : Store) (key : string) : list string :=
  default [] (setHashes st !! key).

(** [hSet(key, { [field]: '1' })]. *)
Definition hSet_flag (st : Store) (key field : string) : Store :=
  let fields := hKeys st key in
  mkStore (roomHashes st) (profileHashes st)
          (<[key := if bool_decide (field ∈ fields) then fields else (fields ++ [field])%list]>
             (setHashes st))
          (sortedSets st).

(** [hDel(key, [field])]; a hash left without fields is removed. *)
Definition hDel (st : Store) (key field : string) : Store :=
  let fields := filter (λ f, f ≠ field) (hKeys st key) in
  mkStore (roomHashes st) (profileHashes st)
          (match fields with
           | [] => delete key (setHashes st)
           | _ => <[key := fields]> (setHashes st)
           end)
          (sortedSets st).

(** [del(key)]. *)
Definition del (st : Store) (key : string) : Store :=
  mkStore (delete key (roomHashes st)) (delete key (profileHashes st))
          (delete key (setHashes st)) (delete key (sortedSets st)).

(** *** Sorted sets

    Entries are ordered by score; entries of equal score are ordered by the
    byte order of their member texts. *)

Definition entry_leb (a b : zentry) : bool :=
  (a.1 <? b.1) ||
  ((a.1 =? b.1) && String.leb (Message.stringify a.2) (Message.stringify b.2)).

Fixpoint zinsert (e : zentry) (l : list zentry) : list zentry :=
  match l with
  | [] => [e]
  | e' :: l' => if entry_leb e e' then e :: l else e' :: zinsert e l'
  end.

Definition zGet (st : Store) (key : string) : list zentry :=
  default [] (sortedSets st !! key).

Definition zPut (st : Store) (key : string) (l : list zentry) : Store :=
  mkStore (roomHashes st) (profileHashes st) (setHashes st)
          (match l with
           | [] => delete key (sortedSets st)
           | _ => <[key := l]> (sortedSets st)
           end).

(** The text of the member of an entry. *)
Definition member_text (e : zentry) : string := Message.stringify e.2.

(** [zAdd(key, { member, score })]: a member already present (an entry with
    the same text) is moved to its new score. *)
Definition zAdd_entries (l : list zentry) (member : Message.t) (score : Z) : list zentry :=
  zinsert (score, member)
    (filter (λ e : zentry, member_text e ≠ Message.stringify member) l).

Definition zAdd (st : Store) (key : string) (member : Message.t) (score : Z) : Store :=
  zPut st key (zAdd_entries (zGet st key) member score).

Definition zCard (st : Store) (key : string) : Z :=
  Z.of_nat (length (zGet st key)).

(** A rank counted from the end when negative. *)
Definition rank_index (len i : Z) : Z := if i <? 0 then len + i else i.

(** [zRemRangeByRank(key, start, stop)]: removes the entries of rank
    [start] to [stop], both included. *)
Definition zRemRangeByRank_entries (l : list zentry) (start stop : Z) : list zentry :=
  let len := Z.of_nat (length l) in
  let start' := Z.max 0 (rank_index len start) in
  let stop' := Z.min (len - 1) (rank_index len stop) in
  if stop' <? start' then l
  else (take (Z.to_nat start') l ++ drop (Z.to_nat (stop' + 1)) l)%list.

Definition zRemRangeByRank (st : Store) (key : string) (start stop : Z) : Store :=
  zPut st key (zRemRangeByRank_entries (zGet st key) start stop).

Definition above (lo : score_bound) (s : Z) : bool :=
  match lo with
  | NegInf => true
  | PosInf => false
  | Incl n => n <=? s
  | Excl n => n <? s
  end.

Definition below (hi : score_bound) (s : Z) : bool :=
  match hi with
  | NegInf => false
  | PosInf => true
  | Incl n => s <=? n
  | Excl n => s <? n
  end.

Definition in_range (lo hi : score_bound) (e : zentry) : bool :=
  above lo e.1 && below hi e.1.

(** [LIMIT offset count]: a negative count takes every entry from
    [offset] on. *)
Definition limit_entries {A} (offset count : Z) (l : list A) : list A :=
  let rest := drop (Z.to_nat offset) l in
  if count <? 0 then rest else take (Z.to_nat count) rest.

(** What [zRange] resolves to is an array of objects [{ member, score }],
    one for each entry of the range. *)
Record Entry := mkEntry {
  member : string;
  score : Z
}.

Definition entry_of (e : zentry) : Entry := mkEntry (member_text e) e.1.

(** [zRange(key, min, max, { by: 'score', limit: { offset, count }, rev: true })]:
    the entries with score between the bounds, cut by the limit.  The
    client reads [by], [limit] and [reverse] from the options; [rev] is none
    of them, so the entries come by increasing rank. *)
Definition zRange_byScore (st : Store) (key : string) (lo hi : score_bound)
    (offset count : Z) : list Entry :=
  map entry_of (limit_entries offset count
                  (filter (λ e, in_range lo hi e = true) (zGet st key))).

(** The elements of rank [start] to [stop], both included, of a list kept
    in rank order. *)
Definition rank_range {A} (l : list A) (start stop : Z) : list A :=
  let len := Z.of_nat (length l) in
  let start' := Z.max 0 (rank_index len start) in
  let stop' := Z.min (len - 1) (rank_index len stop) in
  if stop' <? start' then []
  else take (Z.to_nat (stop' - start' + 1)) (drop (Z.to_nat start') l).

(** [zRange(key, start, stop)]: the entries of rank [start] to [stop], by
    increasing rank. *)
Definition zRange (st : Store) (key : string) (start stop : Z) : list Entry :=
  map entry_of (rank_range (zGet st key) start stop).

(** The client has no method of this name: [this.redis.name] is
    [undefined], and the call of it throws a TypeError with this message
    before anything is read from the store. *)
Definition not_a_function (name : string) : string :=
  "this.redis." ++ name ++ " is not a function".

(** [zRem(key, data)] with an entry [data] that [zRange] returned, written
    as the removal of that entry.  What the client does with an object where
    it expects an array of member texts does not show in the code; the one
    call of it stands behind a [JSON.parse] that never returns. *)
Definition zRem (st : Store) (key : string) (data : Entry) : Store :=
  zPut st key (filter (λ e : zentry, member_text e ≠ member data) (zGet st key)).

(** [hSet(key, object)] for an object that maps each of [fields] to ['1'],
    the fields taken in the order of [Object.keys(object)] (the order in
    which they were first assigned, for field names that are not array
    indexes). *)
Definition hSet_flags (st : Store) (key : string) (fields : list string) : Store :=
  fold_left (λ s field, hSet_flag s key field) fields st.

(** [hGet(key, field)] for a hash used as a set: ['1'] for a field of the
    hash, [undefined] otherwise. *)
Definition hGet (st : Store) (key field : string) : js_string :=
  if bool_decide (field ∈ hKeys st key) then Some "1" else None.

End Redis.


(** ** [Array.prototype.sort] with a comparator

    The sort of the language is stable; with the comparators used here
    (differences of integer keys) its result is the stable sorted
    arrangement, which insertion from the right computes. *)

Section Sort.
Context {A : Type} (cmp : A → A → Z).

Fixpoint sort_insert (x : A) (l : list A) : list A :=
  match l with
  | [] => [x]
  | y :: l' => if cmp x y <=? 0 then x :: l else y :: sort_insert x l'
  end.

Definition sortBy (l : list A) : list A := foldr sort_insert [] l.
End Sort.

(** [array.slice(start, end)]: a negative index counts from the end, and
    both are brought into the bounds of the array. *)
Definition slice {A} (l : list A) (start stop : Z) : list A :=
  let len := Z.of_nat (length l) in
  let k := if start <? 0 then Z.max (len + start) 0 else Z.min start len in
  let final := if stop <? 0 then Z.max (len + stop) 0 else Z.min stop len in
  take (Z.to_nat (final - k)) (drop (Z.to_nat k) l).

(** ** ChatRoomRepository (src/server/data) *)

Module ChatRoomRepository.

Definition createChatRoom (st : Store) (id : string) (now : Z)
    (title topic creatorId creatorUsername : string) (interests : list string)
  : ChatRoom.t * Store :=
  let chatRoom :=
    ChatRoom.mk id (Some title) (Some topic) (Some creatorId) (Some creatorUsername)
                [creatorId] 1 interests true now now in
  (* Store chat room data *)
  let st1 := Redis.hSet_room st (REDIS_KEYS.chatRoom id)
    (RoomHash.mk (Some id) (Some title) (Some topic) (Some creatorId)
                 (Some creatorUsername) (Some [creatorId]) (Some 1)
                 (Some interests) (Some true) (Some now) (Some now)) in
  (* Add to active chat rooms hash *)
  let st2 := Redis.hSet_flag st1 REDIS_KEYS.activeChatRooms id in
  (* Index by interests *)
  let st3 := fold_left
    (λ s interest, Redis.hSet_flag s (REDIS_KEYS.interestChatRooms interest) id)
    interests st2 in
  (chatRoom, st3).

Definition getChatRoom (st : Store) (id : string) : option ChatRoom.t :=
  let data := Redis.hGetAll_room st (REDIS_KEYS.chatRoom id) in
  match RoomHash.id data with
  | None | Some EmptyString => None
  | Some data_id =>
      Some (ChatRoom.mk data_id
              (RoomHash.title data) (RoomHash.topic data)
              (RoomHash.creatorId data) (RoomHash.creatorUsername data)
              (default [] (RoomHash.participants data))
              (default 0 (RoomHash.participantCount data))
              (default [] (RoomHash.interests data))
              (default false (RoomHash.isActive data))
              (default 0 (RoomHash.createdAt data))
              (default 0 (RoomHash.lastActivity data)))
  end.

(** The loop [for (const id of ids) { const chatRoom = await getChatRoom(id);
    if (chatRoom && chatRoom.isActive) chatRooms.push(chatRoom) }]. *)
Definition activeRoomsOf (st : Store) (ids : list string) : list ChatRoom.t :=
  omap (λ id, match getChatRoom st id with
              | Some chatRoom => if ChatRoom.isActive chatRoom then Some chatRoom else None
              | None => None
              end) ids.

Definition byLastActivity (a b : ChatRoom.t) : Z :=
  ChatRoom.lastActivity b - ChatRoom.lastActivity a.

Definition getActiveChatRooms (st : Store) : list ChatRoom.t :=
  let chatRoomIds := Redis.hKeys st REDIS_KEYS.activeChatRooms in
  sortBy byLastActivity (activeRoomsOf st chatRoomIds).

(** [set.add(id)] on a [Set] kept in insertion order. *)
Definition set_add (acc : list string) (id : string) : list string :=
  if bool_decide (id ∈ acc) then acc else (acc ++ [id])%list.

(** [a.interests.filter(i => interests.includes(i)).length]. *)
Definition matches (interests : list string) (a : ChatRoom.t) : Z :=
  Z.of_nat (length (filter (λ i, i ∈ interests) (ChatRoom.interests a))).

Definition byRelevance (interests : list string) (a b : ChatRoom.t) : Z :=
  let aMatches := matches interests a in
  let bMatches := matches interests b in
  if bool_decide (aMatches ≠ bMatches) then bMatches - aMatches
  else ChatRoom.lastActivity b - ChatRoom.lastActivity a.

Definition collectIds (st : Store) (interests : list string) : list string :=
  fold_left
    (λ chatRoomIds interest,
       fold_left set_add (Redis.hKeys st (REDIS_KEYS.interestChatRooms interest))
                 chatRoomIds)
    interests [].

Definition getChatRoomsByInterests (st : Store) (interests : list string)
  : list ChatRoom.t :=
  match interests with
  | [] => getActiveChatRooms st
  | _ =>
      let chatRoomIds := collectIds st interests in
      sortBy (byRelevance interests) (activeRoomsOf st chatRoomIds)
  end.

Definition joinChatRoom (st : Store) (now : Z) (chatRoomId userId : string)
  : bool * Store :=
  match getChatRoom st chatRoomId with
  | None => (false, st)
  | Some chatRoom =>
      if negb (ChatRoom.isActive chatRoom) then (false, st)
      else if bool_decide (userId ∈ ChatRoom.participants chatRoom) then (true, st)
      else
        let updatedParticipants := (ChatRoom.participants chatRoom ++ [userId])%list in
        (true,
         Redis.hSet_room st (REDIS_KEYS.chatRoom chatRoomId)
           (RoomHash.mk None None None None None
              (Some updatedParticipants)
              (Some (Z.of_nat (length updatedParticipants)))
              None None None (Some now)))
  end.

Definition deactivateChatRoom (st : Store) (chatRoomId : string) : Store :=
  match getChatRoom st chatRoomId with
  | None => st
  | Some chatRoom =>
      (* Mark as inactive *)
      let st1 := Redis.hSet_room st (REDIS_KEYS.chatRoom chatRoomId)
        (RoomHash.mk None None None None None None None None (Some false) None None) in
      (* Remove from active hash *)
      let st2 := Redis.hDel st1 REDIS_KEYS.activeChatRooms chatRoomId in
      (* Remove from interest indexes *)
      fold_left
        (λ s interest, Redis.hDel s (REDIS_KEYS.interestChatRooms interest) chatRoomId)
        (ChatRoom.interests chatRoom) st2
  end.

Definition leaveChatRoom (st : Store) (now : Z) (chatRoomId userId : string)
  : bool * Store :=
  match getChatRoom st chatRoomId with
  | None => (false, st)
  | Some chatRoom =>
      (* Remove user from participants *)
      let updatedParticipants :=
        filter (λ id, id ≠ userId) (ChatRoom.participants chatRoom) in
      (* If no participants left, deactivate the room *)
      if bool_decide (length updatedParticipants = 0%nat) then
        (true, deactivateChatRoom st chatRoomId)
      else
        (true,
         Redis.hSet_room st (REDIS_KEYS.chatRoom chatRoomId)
           (RoomHash.mk None None None None None
              (Some updatedParticipants)
              (Some (Z.of_nat (length updatedParticipants)))
              None None None (Some now)))
  end.

Definition updateLastActivity (st : Store) (now : Z) (chatRoomId : string) : Store :=
  Redis.hSet_room st (REDIS_KEYS.chatRoom chatRoomId)
    (RoomHash.mk None None None None None None None None None None (Some now)).

Definition deleteChatRoom (st : Store) (chatRoomId userId : string) : bool * Store :=
  match getChatRoom st chatRoomId with
  | None => (false, st)
  | Some chatRoom =>
      if bool_decide (ChatRoom.creatorId chatRoom ≠ Some userId) then (false, st)
      else
        (* Deactivate first *)
        let st1 := deactivateChatRoom st chatRoomId in
        (* Delete the chat room data *)
        let st2 := Redis.del st1 (REDIS_KEYS.chatRoom chatRoomId) in
        (* Delete associated messages *)
        let st3 := Redis.del st2 (REDIS_KEYS.chatRoomMessages chatRoomId) in
        (true, st3)
  end.

Section Search.

(** [s.toLowerCase()], the lower-casing of the language. *)
Variable toLowerCase : string → string.

(** The test of [searchChatRooms] on one room:
    [room.title.toLowerCase().includes(lowerQuery) ||
     room.topic.toLowerCase().includes(lowerQuery) ||
     room.interests.some(interest => interest.toLowerCase().includes(lowerQuery))].
    [None] is the [TypeError] of [undefined.toLowerCase()], for a room read
    without title or topic. *)
Definition matchesQuery (lowerQuery : string) (room : ChatRoom.t) : option bool :=
  match ChatRoom.title room with
  | None => None
  | Some title =>
      if Text.includes (toLowerCase title) lowerQuery then Some true
      else
        match ChatRoom.topic room with
        | None => None
        | Some topic =>
            if Text.includes (toLowerCase topic) lowerQuery then Some true
            else Some (existsb
                         (λ interest, Text.includes (toLowerCase interest) lowerQuery)
                         (ChatRoom.interests room))
        end
  end.

(** [array.filter(test)] with a test that may throw: the first throw ends
    the filter. *)
Fixpoint filter_throwing {A} (test : A → option bool) (l : list A) : option (list A) :=
  match l with
  | [] => Some []
  | x :: l' =>
      match test x with
      | None => None
      | Some keep =>
          match filter_throwing test l' with
          | None => None
          | Some rest => Some (if keep then x :: rest else rest)
          end
      end
  end.

(** [None] when the filter throws. *)
Definition searchChatRooms (st : Store) (query : string) : option (list ChatRoom.t) :=
  let allChatRooms := getActiveChatRooms st in
  let lowerQuery := toLowerCase query in
  filter_throwing (matchesQuery lowerQuery) allChatRooms.

End Search.

End ChatRoomRepository.

(** How a call that may throw ends: with the value it returns, or with the
    message of the [Error] it throws. *)
Inductive Completion (A : Type) :=
| Returned (value : A)
| Thrown (reason : string).
Arguments Returned {A} value.
Arguments Thrown {A} reason.

(** ** MessageRepository (src/server/data) *)

Module MessageRepository.

Definition createMessage (st : Store) (id : string) (now : Z)
    (chatRoomId userId username content : string) : Message.t * Store :=
  let timestamp := now in
  let message := Message.mk id chatRoomId userId username content timestamp in
  let key := REDIS_KEYS.chatRoomMessages chatRoomId in
  (* Store message in sorted set with timestamp as score *)
  let st1 := Redis.zAdd st key message timestamp in
  (* Keep only the most recent messages *)
  let messageCount := Redis.zCard st1 key in
  if APP_CONSTANTS.MESSAGE_HISTORY_LIMIT <? messageCount then
    let toRemove := messageCount - APP_CONSTANTS.MESSAGE_HISTORY_LIMIT in
    (message, Redis.zRemRangeByRank st1 key 0 (toRemove - 1))
  else (message, st1).

(** The upper bound of the range: ['+inf'], or ['(n'] when [before] is a
    non-empty string that [parseInt] reads as [n]. *)
Definition maxScore (before : option string) : score_bound :=
  match before with
  | None | Some EmptyString => PosInf
  | Some b =>
      match Text.parseInt b with
      | Some beforeTimestamp => Excl beforeTimestamp
      | None => PosInf
      end
  end.

(** [String(data)] for an entry that [zRange] returned: an object without a
    [toString] of its own reads [[object Object]], whatever it holds. *)
Definition entry_text (data : Redis.Entry) : string := "[object Object]".

(** [JSON.parse(data)] for such an entry, inside [try]: the method reads a
    text, so the entry is turned into one first.  [None] when the call
    throws (the [catch] logs the error and the loop goes on). *)
Definition parse_entry (data : Redis.Entry) : option Json.value :=
  Json.parse (entry_text data).

(** What [JSON.parse] returned is pushed as it is ([as Message] is a type
    assertion). *)
Definition getMessages (st : Store) (chatRoomId : string) (limit : option Z)
    (before : option string) : list Json.value :=
  let limit := default 50 limit in
  let messageData :=
    Redis.zRange_byScore st (REDIS_KEYS.chatRoomMessages chatRoomId)
      NegInf (maxScore before) 0 limit in
  omap parse_entry messageData.

(** The first statement calls [this.redis.zRangeByScore]. *)
Definition getMessagesAfter (st : Store) (chatRoomId : string) (timestamp : Z)
  : Completion (list Json.value) :=
  Thrown (Redis.not_a_function "zRangeByScore").

Definition getMessageCount (st : Store) (chatRoomId : string) : Z :=
  Redis.zCard st (REDIS_KEYS.chatRoomMessages chatRoomId).

(** The first statement calls [this.redis.zRevRange]; [count] is [None] when
    the argument is left out. *)
Definition getRecentMessages (st : Store) (chatRoomId : string) (count : option Z)
  : Completion (list Json.value) :=
  Thrown (Redis.not_a_function "zRevRange").

Definition deleteAllMessages (st : Store) (chatRoomId : string) : Store :=
  Redis.del st (REDIS_KEYS.chatRoomMessages chatRoomId).

(** The loop over [allMessages]: it ends at the first entry that parses to a
    value whose [id] is the given one; an entry whose parsing or reading
    throws is skipped. *)
Fixpoint deleteMessage_scan (st : Store) (key messageId : string)
    (allMessages : list Redis.Entry) : bool * Store :=
  match allMessages with
  | [] => (false, st)
  | messageData :: rest =>
      match parse_entry messageData with
      | Some message =>
          match Json.prop message "id" with
          | Some id =>
              if Json.is_string id messageId then (true, Redis.zRem st key messageData)
              else deleteMessage_scan st key messageId rest
          | None => deleteMessage_scan st key messageId rest
          end
      | None => deleteMessage_scan st key messageId rest
      end
  end.

Definition deleteMessage (st : Store) (chatRoomId messageId : string) : bool * Store :=
  let key := REDIS_KEYS.chatRoomMessages chatRoomId in
  (* Get all messages to find the one to delete *)
  let allMessages := Redis.zRange st key 0 (-1) in
  deleteMessage_scan st key messageId allMessages.



End MessageRepository.

(** ** UserRepository: the active-chat cache (src/server/data) *)

Module UserProfile.
Record t := mk {
  id : string;
  username : js_string;
  interests : list string;
  activeChats : list string;
  createdAt : Z
}.
End UserProfile.

Module UserRepository.

Definition profileExists (st : Store) (userId : string) : bool :=
  negb (falsy (ProfileHash.id
                 (Redis.hGetAll_profile st (REDIS_KEYS.userProfile userId)))).

Definition updateProfileActiveChats (st : Store) (userId : string) : Store :=
  let activeChats := Redis.hKeys st (REDIS_KEYS.userActiveChats userId) in
  if profileExists st userId then
    Redis.hSet_profile st (REDIS_KEYS.userProfile userId)
      (ProfileHash.mk None None None (Some activeChats) None)
  else st.

Definition addUserToActiveChat (st : Store) (userId chatRoomId : string) : Store :=
  updateProfileActiveChats
    (Redis.hSet_flag st (REDIS_KEYS.userActiveChats userId) chatRoomId) userId.

Definition removeUserFromActiveChat (st : Store) (userId chatRoomId : string) : Store :=
  updateProfileActiveChats
    (Redis.hDel st (REDIS_KEYS.userActiveChats userId) chatRoomId) userId.

Definition getUserProfile (st : Store) (userId : string) : option UserProfile.t :=
  let data := Redis.hGetAll_profile st (REDIS_KEYS.userProfile userId) in
  match ProfileHash.id data with
  | None | Some EmptyString => None
  | Some data_id =>
      Some (UserProfile.mk data_id
              (ProfileHash.username data)
              (default [] (ProfileHash.interests data))
              (default [] (ProfileHash.activeChats data))
              (default 0 (ProfileHash.createdAt data)))
  end.

Definition setUserInterests (st : Store) (userId : string) (interests : list string)
  : Completion unit * Store :=
  (* Validate interest count *)
  if APP_CONSTANTS.MAX_INTERESTS <? Z.of_nat (length interests) then
    (Thrown "Maximum 5 interests allowed", st)
  else
    let st1 := Redis.del st (REDIS_KEYS.userInterests userId) in
    let st2 :=
      if 0 <? Z.of_nat (length interests) then
        Redis.hSet_flags st1 (REDIS_KEYS.userInterests userId) interests
      else st1 in
    (* Update profile *)
    let st3 :=
      match getUserProfile st2 userId with
      | Some profile =>
          Redis.hSet_profile st2 (REDIS_KEYS.userProfile userId)
            (ProfileHash.mk None None (Some interests) None None)
      | None => st2
      end in
    (Returned tt, st3).

(** [interests] is [None] when the argument is left out. *)
Definition createOrUpdateUserProfile (st : Store) (now : Z) (userId username : string)
    (interests : option (list string)) : Completion UserProfile.t * Store :=
  let existingProfile := getUserProfile st userId in
  let profile :=
    UserProfile.mk userId (Some username)
      (match interests, existingProfile with
       | Some interests, _ => interests
       | None, Some existing => UserProfile.interests existing
       | None, None => []
       end)
      (match existingProfile with
       | Some existing => UserProfile.activeChats existing
       | None => []
       end)
      (match existingProfile with
       | Some existing =>
           if UserProfile.createdAt existing =? 0 then now
           else UserProfile.createdAt existing
       | None => now
       end) in
  (* Store user profile data *)
  let st1 := Redis.hSet_profile st (REDIS_KEYS.userProfile userId)
    (ProfileHash.mk (Some userId) (Some username)
       (Some (UserProfile.interests profile))
       (Some (UserProfile.activeChats profile))
       (Some (UserProfile.createdAt profile))) in
  (* Store interests separately for easier querying *)
  match interests with
  | Some interests =>
      if 0 <? Z.of_nat (length interests) then
        match setUserInterests st1 userId interests with
        | (Returned _, st2) => (Returned profile, st2)
        | (Thrown reason, st2) => (Thrown reason, st2)
        end
      else (Returned profile, st1)
  | None => (Returned profile, st1)
  end.

Definition getUserInterests (st : Store) (userId : string) : list string :=
  Redis.hKeys st (REDIS_KEYS.userInterests userId).

Definition getUserActiveChats (st : Store) (userId : string) : list string :=
  Redis.hKeys st (REDIS_KEYS.userActiveChats userId).

(** [v !== null] for what [hGet] resolves to, a string or [undefined]:
    neither of them is [null]. *)
Definition not_null (v : js_string) : bool :=
  match v with
  | Some _ => true
  | None => true
  end.

Definition userHasInterest (st : Store) (userId interest : string) : bool :=
  let interestValue := Redis.hGet st (REDIS_KEYS.userInterests userId) interest in
  not_null interestValue.

Definition deleteUserData (st : Store) (userId : string) : Store :=
  let st1 := Redis.del st (REDIS_KEYS.userProfile userId) in
  let st2 := Redis.del st1 (REDIS_KEYS.userInterests userId) in
  Redis.del st2 (REDIS_KEYS.userActiveChats userId).

Definition updateUsername (st : Store) (userId newUsername : string) : Store :=
  match getUserProfile st userId with
  | Some profile =>
      Redis.hSet_profile st (REDIS_KEYS.userProfile userId)
        (ProfileHash.mk None (Some newUsername) None None None)
  | None => st
  end.

End UserRepository.


(** ** Shared validators (src/shared) *)

Record ValidationResult := mkValidation {
  valid : bool;
  error : option string
}.

Definition str_length (s : string) : Z := Z.of_nat (String.length s).

Definition validateChatRoomTitle (title : string) : ValidationResult :=
  if (str_length title =? 0) || (str_length (Text.trim title) =? 0) then
    mkValidation false (Some "Chat room title cannot be empty")
  else if 100 <? str_length title then
    mkValidation false (Some "Title too long (max 100 characters)")
  else mkValidation true None.

Definition validateChatRoomTopic (topic : string) : ValidationResult :=
  if (str_length topic =? 0) || (str_length (Text.trim topic) =? 0) then
    mkValidation false (Some "Chat room topic cannot be empty")
  else if 200 <? str_length topic then
    mkValidation false (Some "Topic too long (max 200 characters)")
  else mkValidation true None.

Definition validateMessageContent (content : string) : ValidationResult :=
  if (str_length content =? 0) || (str_length (Text.trim content) =? 0) then
    mkValidation false (Some "Message cannot be empty")
  else if 500 <? str_length content then
    mkValidation false (Some "Message too long (max 500 characters)")
  else mkValidation true None.

(** [input.trim().replace(/[<>]/g, '').substring(0, 1000)]. *)
Definition sanitizeInput (input : string) : string :=
  String.substring 0 1000 (Text.remove_angle_brackets (Text.trim input)).

(** ** RealtimeService (src/server/services/realtimeService.ts)

    [realtime.send(channel, message)] appends to the list of messages sent. *)

Inductive RealtimeMessageType :=
| message
| user_joined
| user_left
| room_created
| room_deleted.

Module RealtimeMessage.
Record t := mk {
  type : RealtimeMessageType;
  chatRoomId : option string;
  userId : js_string;
  username : js_string;
  content : option string;
  timestamp : Z
}.
End RealtimeMessage.

Module CHANNELS.
Definition discovery : string := "discovery".
Definition chatRoom (id : string) : string := "chatroom:" ++ id.
Definition user (userId : string) : string := "user:" ++ userId.
End CHANNELS.

Abbreviation sent_message := (string * RealtimeMessage.t)%type.

Module RealtimeService.

Definition sendUserJoinedNotification (now : Z) (chatRoomId userId username : string)
  : sent_message :=
  (CHANNELS.chatRoom chatRoomId,
   RealtimeMessage.mk user_joined (Some chatRoomId) (Some userId) (Some username) None now).

Definition sendUserLeftNotification (now : Z) (chatRoomId userId username : string)
  : sent_message :=
  (CHANNELS.chatRoom chatRoomId,
   RealtimeMessage.mk user_left (Some chatRoomId) (Some userId) (Some username) None now).

Definition sendRoomCreatedNotification (chatRoom : ChatRoom.t) : sent_message :=
  (CHANNELS.discovery,
   RealtimeMessage.mk room_created (Some (ChatRoom.id chatRoom))
     (ChatRoom.creatorId chatRoom) (ChatRoom.creatorUsername chatRoom) None
     (ChatRoom.createdAt chatRoom)).

Definition sendRoomDeletedNotification (now : Z) (chatRoomId userId username : string)
  : sent_message :=
  (CHANNELS.discovery,
   RealtimeMessage.mk room_deleted (Some chatRoomId) (Some userId) (Some username) None now).

End RealtimeService.

(** ** Request handlers (src/server/index.ts) *)

Module Context.
Record t := mk {
  userId : js_string;
  username : js_string
}.
End Context.

(** [res.status(s).json(createSuccessResponse(data))] and
    [res.status(s).json(createErrorResponse(code, message))]. *)
Inductive Response (A : Type) :=
| Success (status : Z) (data : A)
| Failure (status : Z) (code msg : string).
Arguments Success {A} status data.
Arguments Failure {A} status code msg.

Definition status {A} (r : Response A) : Z :=
  match r with
  | Success s _ => s
  | Failure s _ _ => s
  end.

Record Outcome (A : Type) := mkOutcome {
  response : Response A;
  store : Store;
  sent : list sent_message
}.
Arguments mkOutcome {A} response store sent.
Arguments response {A} o.
Arguments store {A} o.
Arguments sent {A} o.

Module CreateChatRoomRequest.
(** [interests] is [None] when the body does not hold an array there. *)
Record t := mk {
  title : string;
  topic : string;
  interests : option (list string)
}.
End CreateChatRoomRequest.

Module Handlers.

Definition auth_required {A} (st : Store) : Outcome A :=
  mkOutcome (Failure 401 "AUTH_REQUIRED" "User authentication required") st [].

(** POST /api/chatrooms *)
Definition createChatRoom (st : Store) (ctx : Context.t) (newId : string) (now : Z)
    (body : CreateChatRoomRequest.t) : Outcome ChatRoom.t :=
  match Context.userId ctx, Context.username ctx with
  | Some userId, Some username =>
      if falsy (Some userId) || falsy (Some username) then auth_required st
      else
        let title := CreateChatRoomRequest.title body in
        let topic := CreateChatRoomRequest.topic body in
        let titleValidation := validateChatRoomTitle title in
        if negb (valid titleValidation) then
          mkOutcome (Failure 400 "INVALID_TITLE" (default EmptyString (error titleValidation)))
                    st []
        else
          let topicValidation := validateChatRoomTopic topic in
          if negb (valid topicValidation) then
            mkOutcome (Failure 400 "INVALID_TOPIC"
                         (default EmptyString (error topicValidation)))
                      st []
          else
            match CreateChatRoomRequest.interests body with
            | None =>
                mkOutcome (Failure 400 "INVALID_INTERESTS" "Interests must be an array")
                          st []
            | Some interests =>
                let validInterestIds := INTEREST_TAG_IDS in
                let invalidInterests :=
                  filter (λ interest, interest ∉ validInterestIds) interests in
                if 0 <? Z.of_nat (length invalidInterests) then
                  mkOutcome
                    (Failure 400 "INVALID_INTERESTS"
                       ("Invalid interests: " ++ String.concat ", " invalidInterests))
                    st []
                else
                  let '(chatRoom, st1) :=
                    ChatRoomRepository.createChatRoom st newId now
                      (Text.trim title) (Text.trim topic) userId username interests in
                  let st2 :=
                    UserRepository.addUserToActiveChat st1 userId (ChatRoom.id chatRoom) in
                  mkOutcome (Success 201 chatRoom) st2
                    [RealtimeService.sendRoomCreatedNotification chatRoom]
            end
  | _, _ => auth_required st
  end.

(** POST /api/chatrooms/:id/leave *)
Definition leaveChatRoom (st : Store) (ctx : Context.t) (now : Z) (id : string)
  : Outcome bool :=
  match Context.userId ctx with
  | Some userId =>
      if falsy (Some userId) then auth_required st
      else
        let '(success, st1) := ChatRoomRepository.leaveChatRoom st now id userId in
        if negb success then
          mkOutcome (Failure 404 "CHAT_ROOM_NOT_FOUND" "Chat room not found") st1 []
        else
          let st2 := UserRepository.removeUserFromActiveChat st1 userId id in
          mkOutcome (Success 200 true) st2
            (match Context.username ctx with
             | Some username =>
                 if falsy (Some username) then []
                 else [RealtimeService.sendUserLeftNotification now id userId username]
             | None => []
             end)
  | None => auth_required st
  end.

(** DELETE /api/chatrooms/:id *)
Definition deleteChatRoom (st : Store) (ctx : Context.t) (now : Z) (id : string)
  : Outcome bool :=
  match Context.userId ctx with
  | Some userId =>
      if falsy (Some userId) then auth_required st
      else
        let '(success, st1) := ChatRoomRepository.deleteChatRoom st id userId in
        if negb success then
          mkOutcome (Failure 403 "FORBIDDEN" "Only chat room creator can delete the room")
                    st1 []
        else
          mkOutcome (Success 200 true) st1
            (match Context.username ctx with
             | Some username =>
                 if falsy (Some username) then []
                 else [RealtimeService.sendRoomDeletedNotification now id userId username]
             | None => []
             end)
  | None => auth_required st
  end.

(** [Math.min(Number(limit) || 50, 100)]; [limit] is [None] when the query
    has none or [Number] does not read it. *)
Definition limitNum (limit : option Z) : Z :=
  Z.min (match limit with
         | None | Some 0 => 50
         | Some n => n
         end) 100.

(** GET /api/chatrooms/:id/messages *)
Definition getMessages (st : Store) (ctx : Context.t) (id : string)
    (limit : option Z) (before : option string) : Outcome (list Json.value) :=
  match Context.userId ctx with
  | Some userId =>
      if falsy (Some userId) then auth_required st
      else
        match ChatRoomRepository.getChatRoom st id with
        | None => mkOutcome (Failure 404 "CHAT_ROOM_NOT_FOUND" "Chat room not found") st []
        | Some chatRoom =>
            if negb (bool_decide (userId ∈ ChatRoom.participants chatRoom)) then
              mkOutcome (Failure 403 "ACCESS_DENIED"
                           "You must join the chat room to view messages") st []
            else
              let messages :=
                MessageRepository.getMessages st id (Some (limitNum limit)) before in
              mkOutcome (Success 200 messages) st []
        end
  | None => auth_required st
  end.

(** The answer of a [catch] block. *)
Definition internal_error {A} (st : Store) (msg : string) : Outcome A :=
  mkOutcome (Failure 500 "INTERNAL_ERROR" msg) st [].

(** GET /api/user/profile *)
Definition getUserProfile (st : Store) (ctx : Context.t) (now : Z)
  : Outcome UserProfile.t :=
  match Context.userId ctx, Context.username ctx with
  | Some userId, Some username =>
      if falsy (Some userId) || falsy (Some username) then auth_required st
      else
        match UserRepository.getUserProfile st userId with
        | Some profile => mkOutcome (Success 200 profile) st []
        | None =>
            (* Create profile if it doesn't exist *)
            match UserRepository.createOrUpdateUserProfile st now userId username None with
            | (Returned profile, st1) => mkOutcome (Success 200 profile) st1 []
            | (Thrown _, st1) => internal_error st1 "Failed to get user profile"
            end
        end
  | _, _ => auth_required st
  end.

(** GET /api/user/interests *)
Definition getUserInterests (st : Store) (ctx : Context.t) : Outcome (list string) :=
  match Context.userId ctx with
  | Some userId =>
      if falsy (Some userId) then auth_required st
      else mkOutcome (Success 200 (UserRepository.getUserInterests st userId)) st []
  | None => auth_required st
  end.

(** POST /api/user/interests; [interests] is [None] when the body does not
    hold an array there. *)
Definition setUserInterests (st : Store) (ctx : Context.t) (now : Z)
    (interests : option (list string)) : Outcome bool :=
  match Context.userId ctx, Context.username ctx with
  | Some userId, Some username =>
      if falsy (Some userId) || falsy (Some username) then auth_required st
      else
        match interests with
        | None => mkOutcome (Failure 400 "INVALID_INPUT" "Interests must be an array") st []
        | Some interests =>
            (* Validate interests against available tags *)
            let validInterestIds := INTEREST_TAG_IDS in
            let invalidInterests :=
              filter (λ interest, interest ∉ validInterestIds) interests in
            if 0 <? Z.of_nat (length invalidInterests) then
              mkOutcome
                (Failure 400 "INVALID_INTERESTS"
                   ("Invalid interests: " ++ String.concat ", " invalidInterests))
                st []
            else if 5 <? Z.of_nat (length interests) then
              mkOutcome (Failure 400 "TOO_MANY_INTERESTS" "Maximum 5 interests allowed")
                        st []
            else
              match UserRepository.setUserInterests st userId interests with
              | (Thrown _, st1) => internal_error st1 "Failed to set user interests"
              | (Returned _, st1) =>
                  match UserRepository.createOrUpdateUserProfile st1 now userId username
                          (Some interests) with
                  | (Thrown _, st2) => internal_error st2 "Failed to set user interests"
                  | (Returned _, st2) => mkOutcome (Success 200 true) st2 []
                  end
              end
        end
  | _, _ => auth_required st
  end.

(** GET /api/chatrooms; [interests] is [None] when the query holds no array
    there, [limit] and [offset] are [None] when the query has none or
    [Number] does not read it. *)
Definition getChatRooms (st : Store) (ctx : Context.t)
    (interests : option (list string)) (limit offset : option Z)
  : Outcome (list ChatRoom.t) :=
  match Context.userId ctx with
  | Some userId =>
      if falsy (Some userId) then auth_required st
      else
        let chatRooms :=
          match interests with
          | Some interests => ChatRoomRepository.getChatRoomsByInterests st interests
          | None => ChatRoomRepository.getActiveChatRooms st
          end in
        (* Apply pagination *)
        let startIndex := default 0 offset in
        let limitNum := limitNum limit in
        let paginatedRooms := slice chatRooms startIndex (startIndex + limitNum) in
        mkOutcome (Success 200 paginatedRooms) st []
  | None => auth_required st
  end.

(** GET /api/chatrooms/:id *)
Definition getChatRoom (st : Store) (ctx : Context.t) (id : string)
  : Outcome ChatRoom.t :=
  match Context.userId ctx with
  | Some userId =>
      if falsy (Some userId) then auth_required st
      else
        match ChatRoomRepository.getChatRoom st id with
        | None => mkOutcome (Failure 404 "CHAT_ROOM_NOT_FOUND" "Chat room not found") st []
        | Some chatRoom => mkOutcome (Success 200 chatRoom) st []
        end
  | None => auth_required st
  end.

(** POST /api/chatrooms/:id/join; [now] is the time read by the repository,
    [sentAt] the time read for the notification. *)
Definition joinChatRoom (st : Store) (ctx : Context.t) (now sentAt : Z) (id : string)
  : Outcome bool :=
  match Context.userId ctx with
  | Some userId =>
      if falsy (Some userId) then auth_required st
      else
        let '(success, st1) := ChatRoomRepository.joinChatRoom st now id userId in
        if negb success then
          mkOutcome (Failure 404 "CHAT_ROOM_NOT_FOUND" "Chat room not found or inactive")
                    st1 []
        else
          (* Add to user's active chats *)
          let st2 := UserRepository.addUserToActiveChat st1 userId id in
          mkOutcome (Success 200 true) st2
            (match Context.username ctx with
             | Some username =>
                 if falsy (Some username) then []
                 else [RealtimeService.sendUserJoinedNotification sentAt id userId username]
             | None => []
             end)
  | None => auth_required st
  end.

(** [Math.min(Number(limit) || 20, 50)]. *)
Definition searchLimit (limit : option Z) : Z :=
  Z.min (match limit with
         | None | Some 0 => 20
         | Some n => n
         end) 50.

(** GET /api/search/chatrooms; [query] is [None] when the query string has
    no text there, and [toLowerCase] is the lower-casing of the language. *)
Definition searchChatRooms (toLowerCase : string → string) (st : Store) (ctx : Context.t)
    (query : option string) (limit : option Z) : Outcome (list ChatRoom.t) :=
  match Context.userId ctx with
  | Some userId =>
      if falsy (Some userId) then auth_required st
      else
        match query with
        | None | Some EmptyString =>
            mkOutcome (Failure 400 "INVALID_QUERY" "Search query is required") st []
        | Some query =>
            if str_length (Text.trim query) <? 2 then
              mkOutcome (Failure 400 "QUERY_TOO_SHORT"
                           "Search query must be at least 2 characters") st []
            else
              let limitNum := searchLimit limit in
              match ChatRoomRepository.searchChatRooms toLowerCase st (Text.trim query) with
              | None => internal_error st "Failed to search chat rooms"
              | Some searchResults =>
                  (* Apply limit *)
                  let limitedResults := slice searchResults 0 limitNum in
                  mkOutcome (Success 200 limitedResults) st []
              end
        end
  | None => auth_required st
  end.

(** GET /api/interests: for each tag of the catalogue, its id and the
    number of fields of [interests:{id}]. *)
Definition getInterests (st : Store) : Outcome (list (string * Z)) :=
  let interestTagsWithCounts :=
    map (λ tag,
           (tag, Z.of_nat (length (Redis.hKeys st (REDIS_KEYS.interestChatRooms tag)))))
        INTEREST_TAG_IDS in
  mkOutcome (Success 200 interestTagsWithCounts) st [].

End Handlers.

(** ** Histories of repository calls

    The states the server can be in are those a sequence of repository calls
    produces from the empty store. *)

Inductive Call :=
| CreateChatRoom (id : string) (now : Z)
    (title topic creatorId creatorUsername : string) (interests : list string)
| JoinChatRoom (now : Z) (chatRoomId userId : string)
| LeaveChatRoom (now : Z) (chatRoomId userId : string)
| UpdateLastActivity (now : Z) (chatRoomId : string)
| DeactivateChatRoom (chatRoomId : string)
| DeleteChatRoom (chatRoomId userId : string)
| CreateMessage (id : string) (now : Z) (chatRoomId userId username content : string)
| AddUserToActiveChat (userId chatRoomId : string)
| RemoveUserFromActiveChat (userId chatRoomId : string).

Definition exec (st : Store) (c : Call) : Store :=
  match c with
  | CreateChatRoom id now title topic creatorId creatorUsername interests =>
      (ChatRoomRepository.createChatRoom st id now title topic creatorId
         creatorUsername interests).2
  | JoinChatRoom now chatRoomId userId =>
      (ChatRoomRepository.joinChatRoom st now chatRoomId userId).2
  | LeaveChatRoom now chatRoomId userId =>
      (ChatRoomRepository.leaveChatRoom st now chatRoomId userId).2
  | UpdateLastActivity now chatRoomId =>
      ChatRoomRepository.updateLastActivity st now chatRoomId
  | DeactivateChatRoom chatRoomId =>
      ChatRoomRepository.deactivateChatRoom st chatRoomId
  | DeleteChatRoom chatRoomId userId =>
      (ChatRoomRepository.deleteChatRoom st chatRoomId userId).2
  | CreateMessage id now chatRoomId userId username content =>
      (MessageRepository.createMessage st id now chatRoomId userId username content).2
  | AddUserToActiveChat userId chatRoomId =>
      UserRepository.addUserToActiveChat st userId chatRoomId
  | RemoveUserFromActiveChat userId chatRoomId =>
      UserRepository.removeUserFromActiveChat st userId chatRoomId
  end.

Definition run (calls : list Call) (st : Store) : Store := fold_left exec calls st.

(** No [:] occurs in the string. *)
Fixpoint colon_free (s : string) : bool :=
  match s with
  | EmptyString => true
  | String c s' => negb (Ascii.eqb c ":") && colon_free s'
  end.

(** [generateId()], of the form [<milliseconds>-<base 36 digits>], returns a
    non-empty id without [:] that names no stored room. *)
Definition fresh_id (st : Store) (c : Call) : Prop :=
  match c with
  | CreateChatRoom id _ _ _ _ _ _ =>
      id ≠ EmptyString ∧ colon_free id = true ∧
      ChatRoomRepository.getChatRoom st id = None
  | _ => True
  end.

(** The reachable stores, with room ids generated fresh. *)
Inductive reachable : Store → Prop :=
| reachable_empty : reachable emptyStore
| reachable_exec st c : reachable st → fresh_id st c → reachable (exec st c).

(** The calls of the repositories that write to the store: those above and
    the remaining ones of [MessageRepository] and [UserRepository]. *)
Inductive Action :=
| Repository (c : Call)
| DeleteMessage (chatRoomId messageId : string)
| DeleteAllMessages (chatRoomId : string)
| CreateOrUpdateUserProfile (now : Z) (userId username : string)
    (interests : option (list string))
| SetUserInterests (userId : string) (interests : list string)
| DeleteUserData (userId : string)
| UpdateUsername (userId newUsername : string).

(** The store after the call, also when the call throws. *)
Definition perform (st : Store) (a : Action) : Store :=
  match a with
  | Repository c => exec st c
  | DeleteMessage chatRoomId messageId =>
      (MessageRepository.deleteMessage st chatRoomId messageId).2
  | DeleteAllMessages chatRoomId => MessageRepository.deleteAllMessages st chatRoomId
  | CreateOrUpdateUserProfile now userId username interests =>
      (UserRepository.createOrUpdateUserProfile st now userId username interests).2
  | SetUserInterests userId interests =>
      (UserRepository.setUserInterests st userId interests).2
  | DeleteUserData userId => UserRepository.deleteUserData st userId
  | UpdateUsername userId newUsername => UserRepository.updateUsername st userId newUsername
  end.

Definition fresh (st : Store) (a : Action) : Prop :=
  match a with
  | Repository c => fresh_id st c
  | _ => True
  end.

(** The stores that the calls of the three repositories produce from the
    empty store, with room ids generated fresh. *)
Inductive attainable : Store → Prop :=
| attainable_empty : attainable emptyStore
| attainable_perform st a : attainable st → fresh st a → attainable (perform st a).


(** ** Notions used in the statements *)

(** The message log of a room, in rank order (oldest first). *)
Definition messageLog (st : Store) (chatRoomId : string) : list zentry :=
  Redis.zGet st (REDIS_KEYS.chatRoomMessages chatRoomId).

(** The order in which the sorted set ranks its entries. *)
Definition rank_order (a b : zentry) : Prop := Redis.entry_leb a b = true.

(** The entries of [l] arranged by rank. *)
Definition ranked (l : list zentry) : list zentry :=
  fold_left (λ acc e, Redis.zinsert e acc) l [].

(** One call of [createMessage] in a room: the id and time it draws and the
    arguments it is given. *)
Module Post.
Record t := mk {
  id : string;
  now : Z;
  userId : string;
  username : string;
  content : string
}.

Definition message (chatRoomId : string) (p : t) : Message.t :=
  Message.mk (id p) chatRoomId (userId p) (username p) (content p) (now p).

(** The member text that the post adds to the log. *)
Definition text (chatRoomId : string) (p : t) : string :=
  Message.stringify (message chatRoomId p).

Definition entry (chatRoomId : string) (p : t) : zentry :=
  (now p, message chatRoomId p).
End Post.

Definition postAll (st : Store) (chatRoomId : string) (posts : list Post.t) : Store :=
  fold_left
    (λ s p, (MessageRepository.createMessage s (Post.id p) (Post.now p) chatRoomId
               (Post.userId p) (Post.username p) (Post.content p)).2)
    posts st.

(** The [n] newest entries of a log kept oldest first. *)
Definition newest {A} (n : nat) (l : list A) : list A := drop (length l - n) l.

(** What every stored log satisfies: ranked, without repeated member, scored
    by the timestamp of the member, and within the retention limit. *)
Record log_ok (l : list zentry) : Prop := mk_log_ok {
  log_sorted : StronglySorted rank_order l;
  log_nodup : NoDup (map Redis.member_text l);
  log_scores : Forall (λ e : zentry, e.1 = Message.timestamp e.2) l;
  log_bound : (length l ≤ 100)%nat
}.



(** ** Invariants of the store *)

(** Every sorted set is a well-formed log. *)
Definition logs_ok (st : Store) : Prop := ∀ key, log_ok (Redis.zGet st key).

(** In every room hash the stored count is the length of the stored list of
    participants (with the defaults of the reader for absent fields). *)
Definition counts_ok (st : Store) : Prop :=
  ∀ key h, roomHashes st !! key = Some h →
    default 0 (RoomHash.participantCount h)
    = Z.of_nat (length (default [] (RoomHash.participants h))).

(** The fields of an [hSet] that keep the count in step with the list. *)
Definition count_fields_ok (fields : RoomHash.t) : Prop :=
  match RoomHash.participants fields, RoomHash.participantCount fields with
  | None, None => True
  | Some l, Some n => n = Z.of_nat (length l)
  | _, _ => False
  end.

(** Every room is stored under its own id, which holds no [:], and every
    entry of an interest index names a room that carries the interest. *)
Record rooms_indexed (st : Store) : Prop := mk_rooms_indexed {
  room_keyed : ∀ id room,
    ChatRoomRepository.getChatRoom st id = Some room →
    ChatRoom.id room = id ∧ colon_free id = true;
  interest_indexed : ∀ tag id,
    id ∈ Redis.hKeys st (REDIS_KEYS.interestChatRooms tag) →
    ∃ room, ChatRoomRepository.getChatRoom st id = Some room ∧
            tag ∈ ChatRoom.interests room
}.

(** What every room read from the store satisfies: it has a title, a topic
    and a creator, no participant is listed twice, and an active room has a
    participant. *)
Record room_ok (room : ChatRoom.t) : Prop := mk_room_ok {
  room_has_title : is_Some (ChatRoom.title room);
  room_has_topic : is_Some (ChatRoom.topic room);
  room_has_creator : is_Some (ChatRoom.creatorId room);
  room_distinct : NoDup (ChatRoom.participants room);
  room_occupied : ChatRoom.isActive room = true → ChatRoom.participants room ≠ []
}.

Definition rooms_ok (st : Store) : Prop :=
  ∀ id room, ChatRoomRepository.getChatRoom st id = Some room → room_ok room.

(** The indexes list the active rooms, and only them: the entries of
    [active_chatrooms] and of every [interests:{tag}] name active rooms, and
    an active room is in [active_chatrooms] and in the index of each of its
    interests. *)
Record rooms_listed (st : Store) : Prop := mk_rooms_listed {
  listed_active : ∀ id,
    id ∈ Redis.hKeys st REDIS_KEYS.activeChatRooms →
    ∃ room, ChatRoomRepository.getChatRoom st id = Some room ∧
            ChatRoom.isActive room = true;
  tagged_active : ∀ tag id,
    id ∈ Redis.hKeys st (REDIS_KEYS.interestChatRooms tag) →
    ∃ room, ChatRoomRepository.getChatRoom st id = Some room ∧
            ChatRoom.isActive room = true;
  active_listed : ∀ id room,
    ChatRoomRepository.getChatRoom st id = Some room →
    ChatRoom.isActive room = true →
    id ∈ Redis.hKeys st REDIS_KEYS.activeChatRooms ∧
    ∀ tag, tag ∈ ChatRoom.interests room →
           id ∈ Redis.hKeys st (REDIS_KEYS.interestChatRooms tag)
}.

(** No hash used as a set lists a field twice. *)
Definition sets_ok (st : Store) : Prop := ∀ key, NoDup (Redis.hKeys st key).

(** Every message is kept in the log of the room it names. *)
Definition logs_placed (st : Store) : Prop :=
  ∀ key (e : zentry), e ∈ Redis.zGet st key →
    key = REDIS_KEYS.chatRoomMessages (Message.chatRoomId e.2).

(** The invariants together. *)
Record store_ok (st : Store) : Prop := mk_store_ok {
  ok_indexed : rooms_indexed st;
  ok_rooms : rooms_ok st;
  ok_listed : rooms_listed st;
  ok_sets : sets_ok st;
  ok_logs : logs_ok st;
  ok_placed : logs_placed st;
  ok_counts : counts_ok st
}.

(** Two stores that show the same rooms and the same room indexes. *)
Definition same_rooms (st st' : Store) : Prop :=
  (∀ id, ChatRoomRepository.getChatRoom st' id = ChatRoomRepository.getChatRoom st id) ∧
  Redis.hKeys st' REDIS_KEYS.activeChatRooms = Redis.hKeys st REDIS_KEYS.activeChatRooms ∧
  (∀ tag, Redis.hKeys st' (REDIS_KEYS.interestChatRooms tag)
          = Redis.hKeys st (REDIS_KEYS.interestChatRooms tag)).

(** A store whose room hashes and logs all come from another: nothing was
    added to them or changed in them. *)
Record shrinks (st st' : Store) : Prop := mk_shrinks {
  shrink_rooms : ∀ key h, roomHashes st' !! key = Some h → roomHashes st !! key = Some h;
  shrink_logs : ∀ key, Redis.zGet st' key `sublist_of` Redis.zGet st key
}.

(** A room record with another list of participants, their count, and
    another time of last activity. *)
Definition with_participants (room : ChatRoom.t) (participants : list string) (now : Z)
  : ChatRoom.t :=
  ChatRoom.mk (ChatRoom.id room) (ChatRoom.title room) (ChatRoom.topic room)
    (ChatRoom.creatorId room) (ChatRoom.creatorUsername room)
    participants (Z.of_nat (length participants))
    (ChatRoom.interests room) (ChatRoom.isActive room) (ChatRoom.createdAt room) now.

(** The room ids drawn along a history are fresh, each in the store it is
    drawn in. *)
Fixpoint actions_fresh (st : Store) (actions : list Action) : Prop :=
  match actions with
  | [] => True
  | a :: actions' => fresh st a ∧ actions_fresh (perform st a) actions'
  end.

Definition history (actions : list Action) : Store := fold_left perform actions emptyStore.

(** The call creates a room with the given id. *)
Definition creates (id : string) (a : Action) : Prop :=
  ∃ now title topic creatorId creatorUsername interests,
    a = Repository (CreateChatRoom id now title topic creatorId creatorUsername interests).

(** The room is marked inactive, or there is no such room. *)
Definition inactive_or_gone (st : Store) (id : string) : Prop :=
  match ChatRoomRepository.getChatRoom st id with
  | Some room => ChatRoom.isActive room = false
  | None => True
  end.

(** A profile with another list of interests, or of active chats. *)
Definition with_interests (profile : UserProfile.t) (interests : list string)
  : UserProfile.t :=
  UserProfile.mk (UserProfile.id profile) (UserProfile.username profile) interests
    (UserProfile.activeChats profile) (UserProfile.createdAt profile).

Definition with_activeChats (profile : UserProfile.t) (activeChats : list string)
  : UserProfile.t :=
  UserProfile.mk (UserProfile.id profile) (UserProfile.username profile)
    (UserProfile.interests profile) activeChats (UserProfile.createdAt profile).

(** The ranking of discovery: more matching interests first, and for as
    many matches the more recent activity first. *)
Definition ranked_before (interests : list string) (a b : ChatRoom.t) : Prop :=
  ChatRoomRepository.matches interests b < ChatRoomRepository.matches interests a ∨
  (ChatRoomRepository.matches interests a = ChatRoomRepository.matches interests b ∧
   ChatRoom.lastActivity b ≤ ChatRoom.lastActivity a).

(** "The result is made of rooms of the indexes of the given tags." *)
Definition from_tag_indexes (st : Store) (tags : list string) : Prop :=
  ∀ room, room ∈ ChatRoomRepository.getChatRoomsByInterests st tags →
    ∃ tag id, tag ∈ tags ∧ id ∈ Redis.hKeys st (REDIS_KEYS.interestChatRooms tag) ∧
              ChatRoomRepository.getChatRoom st id = Some room.

(** A room record with another time of last activity. *)
Definition with_lastActivity (room : ChatRoom.t) (now : Z) : ChatRoom.t :=
  ChatRoom.mk (ChatRoom.id room) (ChatRoom.title room) (ChatRoom.topic room)
    (ChatRoom.creatorId room) (ChatRoom.creatorUsername room)
    (ChatRoom.participants room) (ChatRoom.participantCount room)
    (ChatRoom.interests room) (ChatRoom.isActive room) (ChatRoom.createdAt room) now.

(** A room record marked inactive. *)
Definition deactivated (room : ChatRoom.t) : ChatRoom.t :=
  ChatRoom.mk (ChatRoom.id room) (ChatRoom.title room) (ChatRoom.topic room)
    (ChatRoom.creatorId room) (ChatRoom.creatorUsername room)
    (ChatRoom.participants room) (ChatRoom.participantCount room)
    (ChatRoom.interests room) false (ChatRoom.createdAt room)
    (ChatRoom.lastActivity room).

(** ** Sample data *)

Module Sample.

Definition t0 : Z := 1700000000000.

(** The lower-casing of the language on ASCII text: it changes the letters
    [A] to [Z]. *)
Definition lower_char (c : ascii) : ascii :=
  let n := N_of_ascii c in
  if ((65 <=? n) && (n <=? 90))%N then ascii_of_N (n + 32) else c.

Fixpoint lower (s : string) : string :=
  match s with
  | EmptyString => EmptyString
  | String c s' => String (lower_char c) (lower s')
  end.

(** A post at time [t0 + i] with an id in the format of [generateId]. *)
Definition post (i : nat) : Post.t :=
  Post.mk (Text.toString (t0 + Z.of_nat i) ++ "-k3j9x2m1q") (t0 + Z.of_nat i)
          "t2_alice" "alice" "hello".

(** A hundred and five posts, one per millisecond. *)
Definition posts105 : list Post.t := map post (seq 0 105).

Definition post_call (room : string) (p : Post.t) : Call :=
  CreateMessage (Post.id p) (Post.now p) room (Post.userId p) (Post.username p)
                (Post.content p).

Definition calls105 : list Call := map (post_call "general") posts105.

(** Posts that come in pairs within one millisecond: posts [2k] and
    [2k + 1] carry the timestamp [t0 + k]; the id of the second has the
    smaller random part. *)
Definition tied (i : nat) : Post.t :=
  Post.mk (Text.toString (t0 + Z.of_nat (i / 2))
           ++ (if Nat.even i then "-q7w8e9r1t" else "-a1b2c3d4e"))
          (t0 + Z.of_nat (i / 2)) "t2_alice" "alice" "hello".

Definition tied61 : list Post.t := map tied (seq 0 61).

(** The scenario of a book club: U1 creates the room, U2 joins, U1 sends a
    message, U2 leaves. *)
Definition room_id : string := "1700000000000-r4nd0mid9".

Definition book_club : list Call :=
  [CreateChatRoom room_id t0 "Book Club" "Weekly fiction discussion" "t2_u1" "u1"
     ["books"];
   JoinChatRoom (t0 + 1) room_id "t2_u2";
   CreateMessage "1700000000002-m5g1d0000" (t0 + 2) room_id "t2_u1" "u1" "Welcome!";
   UpdateLastActivity (t0 + 2) room_id;
   LeaveChatRoom (t0 + 3) room_id "t2_u2"].

(** Room B, tagged [music], and room A, tagged [music] and [gaming], created
    in that order within the same millisecond. *)
Definition room_A : string := "1700000000000-aaaaaaaaa".
Definition room_B : string := "1700000000000-bbbbbbbbb".

Definition two_rooms : list Call :=
  [CreateChatRoom room_B t0 "Late Night Music" "Share what you listen to" "t2_u2" "u2"
     ["music"];
   CreateChatRoom room_A t0 "Game Soundtracks" "Music from video games" "t2_u1" "u1"
     ["music"; "gaming"]].

Definition u1 : Context.t := Context.mk (Some "t2_u1") (Some "u1").
Definition u3 : Context.t := Context.mk (Some "t2_u3") (Some "u3").

(** The store after room B and room A were created. *)
Definition lobby : Store := run two_rooms emptyStore.

(** The store after the book club was created and U2 joined. *)
Definition club : Store := run (take 2 book_club) emptyStore.

(** The store at the end of the scenario of the book club. *)
Definition club_end : Store := run book_club emptyStore.

(** The store after U2, the only participant of room B, left it. *)
Definition closed_B : Store := exec lobby (LeaveChatRoom (t0 + 1) room_B "t2_u2").

(** The book club with U1 and U2 after three posts, at [t0], [t0 + 1] and
    [t0 + 2]. *)
Definition chatty_calls : list Call :=
  (take 2 book_club ++ map (post_call room_id) (map post (seq 0 3)))%list.

Definition chatty : Store := run chatty_calls emptyStore.

End Sample.

(* DEFS-END *)

(** * Properties *)

(** ** Text *)

Example toString_ex : Text.toString 1700000000000 = "1700000000000".
Proof. reflexivity. Qed.

Example parseInt_ex :
  Text.parseInt " 42abc" = Some 42 /\ Text.parseInt "abc" = None /\
  Text.parseInt "-0x1f" = Some (-31) /\ Text.parseInt EmptyString = None.
Proof. repeat split; reflexivity. Qed.

Example json_string_ex :
  Text.json_string "a<b\c" = String Text.dquote ("a<b\\c" ++ String Text.dquote EmptyString).
Proof. reflexivity. Qed.

Example trim_ex : Text.trim "  ab c  " = "ab c" /\ Text.trim "   " = EmptyString.
Proof. split; reflexivity. Qed.

Module TextFacts.

Lemma dec_prefix_string_of_uint (d : Decimal.uint) :
  Text.dec_prefix (NilEmpty.string_of_uint d) = d.
Proof. induction d; simpl; congruence. Qed.

Lemma head_digit (d : Decimal.uint) :
  d ≠ Decimal.Nil →
  ∃ c s, NilEmpty.string_of_uint d = String c s ∧ Text.is_space c = false ∧
         c ≠ "-"%char ∧ c ≠ "+"%char ∧
         (∀ h, s ≠ String "x" h) ∧ (∀ h, s ≠ String "X" h).
Proof.
  destruct d as [|d|d|d|d|d|d|d|d|d|d]; [congruence|..]; intros _;
    (eexists _, _; simpl; split; [reflexivity|];
     repeat split; try reflexivity; try discriminate;
     intros h; destruct d; simpl; discriminate).
Qed.

Lemma parse_digits_printed (d : Decimal.uint) (neg : bool) :
  d ≠ Decimal.Nil →
  Text.parse_digits neg (NilEmpty.string_of_uint d)
  = Some (Text.apply_sign neg (Z.of_uint d)).
Proof.
  intros Hd. destruct (head_digit d Hd) as (c & s & E & _ & _ & _ & Hx & HX).
  pose proof (dec_prefix_string_of_uint d) as P. rewrite E in *.
  assert (G : match Text.dec_prefix (String c s) with
              | Decimal.Nil => None
              | d0 => Some (Text.apply_sign neg (Z.of_uint d0))
              end = Some (Text.apply_sign neg (Z.of_uint d))).
  { rewrite P. destruct d; congruence. }
  unfold Text.parse_digits.
  destruct c as [[] [] [] [] [] [] [] []]; try exact G.
  destruct s as [|[[] [] [] [] [] [] [] []] h]; try exact G.
  all: exfalso; first [by eapply Hx | by eapply HX].
Qed.

(** Reading back a printed integer. *)
Lemma parseInt_toString (n : Z) : Text.parseInt (Text.toString n) = Some n.
Proof.
  unfold Text.toString, Text.parseInt.
  destruct n as [|p|p]; [reflexivity|..]; simpl Z.to_int;
    pose proof (DecimalPos.Unsigned.to_uint_nonnil p) as Hd;
    destruct (head_digit _ Hd) as (c & s & E & Hsp & Hm & Hp & _).
  - simpl NilEmpty.string_of_int.
    assert (T : Text.trimStart (NilEmpty.string_of_uint (Pos.to_uint p))
                = NilEmpty.string_of_uint (Pos.to_uint p)).
    { rewrite E. simpl. by rewrite Hsp. }
    rewrite T.
    assert (S : Text.parse_sign (NilEmpty.string_of_uint (Pos.to_uint p))
                = (false, NilEmpty.string_of_uint (Pos.to_uint p))).
    { rewrite E. unfold Text.parse_sign.
      destruct c as [[] [] [] [] [] [] [] []]; try reflexivity; congruence. }
    rewrite S. cbv iota beta.
    rewrite (parse_digits_printed _ false Hd). simpl. f_equal.
    unfold Z.of_uint. by rewrite DecimalPos.Unsigned.of_to.
  - change (NilEmpty.string_of_int (Decimal.Neg (Pos.to_uint p)))
      with (String "-" (NilEmpty.string_of_uint (Pos.to_uint p))).
    change (Text.trimStart (String "-" ?x)) with (String "-" x).
    change (Text.parse_sign (String "-" ?x)) with (true, x).
    cbv iota beta.
    rewrite (parse_digits_printed _ true Hd). simpl. f_equal.
    unfold Z.of_uint. by rewrite DecimalPos.Unsigned.of_to.
Qed.

Lemma toString_nonempty (n : Z) : Text.toString n ≠ EmptyString.
Proof.
  unfold Text.toString. destruct n as [|p|p]; simpl; try discriminate.
  destruct (head_digit _ (DecimalPos.Unsigned.to_uint_nonnil p))
    as (c & s & E & _). rewrite E. discriminate.
Qed.

End TextFacts.

(** ** The order of a sorted set *)

Module OrderFacts.

Lemma ascii_compare_cases (a b : ascii) :
  (Ascii.compare a b = Eq ∧ N_of_ascii a = N_of_ascii b) ∨
  (Ascii.compare a b = Lt ∧ (N_of_ascii a < N_of_ascii b)%N) ∨
  (Ascii.compare a b = Gt ∧ (N_of_ascii b < N_of_ascii a)%N).
Proof.
  unfold Ascii.compare.
  destruct (N.compare_spec (N_of_ascii a) (N_of_ascii b)) as [E|L|G]; auto.
Qed.

Lemma string_compare_trans (s1 : string) :
  ∀ s2 s3, String.compare s1 s2 ≠ Gt → String.compare s2 s3 ≠ Gt →
           String.compare s1 s3 ≠ Gt.
Proof.
  induction s1 as [|a s1 IH]; intros [|b s2] [|c s3]; simpl; try congruence.
  destruct (ascii_compare_cases a b) as [[E1 Hab]|[[E1 Hab]|[E1 Hab]]];
    destruct (ascii_compare_cases b c) as [[E2 Hbc]|[[E2 Hbc]|[E2 Hbc]]];
    destruct (ascii_compare_cases a c) as [[E3 Hac]|[[E3 Hac]|[E3 Hac]]];
    rewrite E1, E2, E3; try congruence; try lia.
  apply IH.
Qed.

Lemma string_leb_trans (s1 s2 s3 : string) :
  String.leb s1 s2 = true → String.leb s2 s3 = true → String.leb s1 s3 = true.
Proof.
  unfold String.leb. intros H1 H2.
  pose proof (string_compare_trans s1 s2 s3) as T.
  destruct (String.compare s1 s2), (String.compare s2 s3), (String.compare s1 s3);
    try reflexivity; try discriminate; exfalso; apply T; congruence.
Qed.

Lemma entry_leb_total (a b : zentry) :
  Redis.entry_leb a b = true ∨ Redis.entry_leb b a = true.
Proof.
  unfold Redis.entry_leb.
  destruct (Z.lt_total a.1 b.1) as [L|[E|L]].
  - left. apply orb_true_iff. left. by apply Z.ltb_lt.
  - rewrite E, Z.ltb_irrefl, Z.eqb_refl. simpl.
    apply String.leb_total.
  - right. apply orb_true_iff. left. by apply Z.ltb_lt.
Qed.

Lemma entry_leb_trans (a b c : zentry) :
  Redis.entry_leb a b = true → Redis.entry_leb b c = true →
  Redis.entry_leb a c = true.
Proof.
  unfold Redis.entry_leb.
  rewrite !orb_true_iff, !andb_true_iff, !Z.ltb_lt, !Z.eqb_eq.
  intros [L1|[E1 S1]] [L2|[E2 S2]]; [left; lia | left; lia | left; lia |].
  right. split; [lia|]. by eapply string_leb_trans.
Qed.

Lemma entry_leb_lt (a b : zentry) : a.1 < b.1 → Redis.entry_leb a b = true.
Proof.
  intros L. unfold Redis.entry_leb. apply orb_true_iff. left. by apply Z.ltb_lt.
Qed.

End OrderFacts.

(** ** Sorted sets *)

Module ZSetFacts.

Lemma forall_filter {A} (Q P : A → Prop) `{∀ x, Decision (P x)} (l : list A) :
  Forall Q l → Forall Q (filter P l).
Proof.
  rewrite !Forall_forall. intros HQ x Hx.
  apply list_elem_of_filter in Hx. apply HQ, Hx.
Qed.

Lemma filter_none {A} (P : A → Prop) `{∀ x, Decision (P x)} (l : list A) :
  (∀ x, x ∈ l → ¬ P x) → filter P l = [].
Proof.
  induction l as [|x l IH]; [done|]. intros Hl.
  rewrite filter_cons_False by (apply Hl; by left).
  apply IH. intros y Hy. apply Hl. by right.
Qed.

Lemma filter_every {A} (P : A → Prop) `{∀ x, Decision (P x)} (l : list A) :
  (∀ x, x ∈ l → P x) → filter P l = l.
Proof.
  induction l as [|x l IH]; [done|]. intros Hl.
  rewrite filter_cons_True by (apply Hl; by left).
  f_equal. apply IH. intros y Hy. apply Hl. by right.
Qed.

Lemma zGet_zPut (st : Store) (key : string) (l : list zentry) :
  Redis.zGet (Redis.zPut st key l) key = l.
Proof.
  unfold Redis.zGet, Redis.zPut. destruct l; simpl.
  - by rewrite lookup_delete_eq.
  - by rewrite lookup_insert_eq.
Qed.

Lemma zGet_zPut_ne (st : Store) (key key' : string) (l : list zentry) :
  key ≠ key' → Redis.zGet (Redis.zPut st key l) key' = Redis.zGet st key'.
Proof.
  intros Hne. unfold Redis.zGet, Redis.zPut. destruct l; simpl.
  - by rewrite lookup_delete_ne.
  - by rewrite lookup_insert_ne.
Qed.

Lemma zRemRangeByRank_oldest (l : list zentry) (k : Z) :
  1 ≤ k ≤ Z.of_nat (length l) →
  Redis.zRemRangeByRank_entries l 0 (k - 1) = drop (Z.to_nat k) l.
Proof.
  intros Hk. unfold Redis.zRemRangeByRank_entries, Redis.rank_index.
  replace (0 <? 0) with false by reflexivity.
  replace (k - 1 <? 0) with false by (symmetry; apply Z.ltb_ge; lia).
  replace (Z.max 0 0) with 0 by reflexivity.
  replace (Z.min (Z.of_nat (length l) - 1) (k - 1)) with (k - 1) by lia.
  replace (k - 1 <? 0) with false by (symmetry; apply Z.ltb_ge; lia).
  replace (k - 1 + 1) with k by lia. reflexivity.
Qed.

Lemma zinsert_length (e : zentry) (l : list zentry) :
  length (Redis.zinsert e l) = S (length l).
Proof. induction l as [|a l IH]; simpl; [done|]. destruct Redis.entry_leb; simpl; lia. Qed.

Lemma zinsert_perm (e : zentry) (l : list zentry) : Redis.zinsert e l ≡ₚ e :: l.
Proof.
  induction l as [|a l IH]; simpl; [done|].
  destruct Redis.entry_leb; [done|]. rewrite IH. apply Permutation_swap.
Qed.

Lemma zinsert_sorted (e : zentry) (l : list zentry) :
  StronglySorted rank_order l → StronglySorted rank_order (Redis.zinsert e l).
Proof.
  induction 1 as [|a l Hs IH Ha]; simpl.
  - repeat constructor.
  - destruct (Redis.entry_leb e a) eqn:E.
    + constructor; [by constructor|]. constructor; [exact E|].
      eapply Forall_impl; [exact Ha|]. intros b Hb.
      by eapply OrderFacts.entry_leb_trans.
    + constructor; [exact IH|].
      rewrite (zinsert_perm e l). constructor; [|exact Ha].
      destruct (OrderFacts.entry_leb_total e a) as [T|T]; [congruence|exact T].
Qed.

Lemma zinsert_last (e : zentry) (l : list zentry) :
  Forall (λ a, a.1 < e.1) l → Redis.zinsert e l = (l ++ [e])%list.
Proof.
  induction 1 as [|a l Ha _ IH]; simpl; [done|].
  assert (Redis.entry_leb e a = false) as ->.
  { unfold Redis.entry_leb.
    replace (e.1 <? a.1) with false by (symmetry; apply Z.ltb_ge; lia).
    replace (e.1 =? a.1) with false by (symmetry; apply Z.eqb_neq; lia).
    reflexivity. }
  by rewrite IH.
Qed.

Lemma sorted_filter (P : zentry → Prop) `{∀ e, Decision (P e)} (l : list zentry) :
  StronglySorted rank_order l → StronglySorted rank_order (filter P l).
Proof.
  induction 1 as [|a l Hs IH Ha]; [constructor|].
  rewrite filter_cons. destruct (decide (P a)); [|exact IH].
  constructor; [exact IH|]. by apply forall_filter.
Qed.

Lemma sorted_drop (n : nat) (l : list zentry) :
  StronglySorted rank_order l → StronglySorted rank_order (drop n l).
Proof.
  intros Hs. revert n. induction Hs as [|a l Hs IH Ha]; intros [|n]; simpl;
    try constructor; auto.
Qed.

Lemma filter_absent (text : string) (l : list zentry) :
  text ∉ map Redis.member_text l →
  filter (λ e : zentry, Redis.member_text e ≠ text) l = l.
Proof.
  intros Hn. apply filter_every. intros e He Heq. apply Hn. rewrite <- Heq.
  change (Redis.member_text e ∈ Redis.member_text <$> l).
  by apply list_elem_of_fmap_2.
Qed.

(** Adding a member of higher score than all others puts it last. *)
Lemma zAdd_newest (l : list zentry) (member : Message.t) (score : Z) :
  Forall (λ a, a.1 < score) l →
  Redis.zAdd_entries l member score
  = (filter (λ e : zentry, Redis.member_text e ≠ Message.stringify member) l
     ++ [(score, member)])%list.
Proof.
  intros Hl. unfold Redis.zAdd_entries. apply zinsert_last.
  by apply forall_filter.
Qed.

(** Dropping the oldest entry after an insertion into a log from which [k]
    oldest entries were dropped is dropping [k + 1] after the insertion
    into the whole log. *)
Lemma drop_zinsert (e : zentry) (k : nat) (l : list zentry) :
  StronglySorted rank_order l →
  drop 1 (Redis.zinsert e (drop k l)) = drop (S k) (Redis.zinsert e l).
Proof.
  intros Hs. revert k. induction Hs as [|a l Hs IH Ha]; intros k.
  - destruct k; reflexivity.
  - destruct k as [|k]; [reflexivity|].
    simpl drop at 2. simpl Redis.zinsert at 2.
    destruct (Redis.entry_leb e a) eqn:E.
    + simpl. destruct (drop k l) as [|b t] eqn:D; [done|]. simpl.
      assert (Hb : b ∈ l).
      { apply (subseteq_drop k l). rewrite D. by left. }
      rewrite Forall_forall in Ha. specialize (Ha b Hb).
      by rewrite (OrderFacts.entry_leb_trans e a b E Ha).
    + simpl. apply IH.
Qed.

End ZSetFacts.

(** ** The message log *)

Module MessageFacts.
Import ZSetFacts.

Lemma newest_short {A} (n : nat) (l : list A) : (length l ≤ n)%nat → newest n l = l.
Proof. intros H. unfold newest. by replace (length l - n)%nat with 0%nat by lia. Qed.

Lemma newest_length {A} (n : nat) (l : list A) :
  length (newest n l) = Nat.min (length l) n.
Proof. unfold newest. rewrite length_drop. lia. Qed.

(** The effect of [createMessage] on the log of its room. *)
Lemma createMessage_log st id now room userId username content :
  messageLog
    (MessageRepository.createMessage st id now room userId username content).2 room
  = newest 100
      (Redis.zAdd_entries (messageLog st room)
         (Message.mk id room userId username content now) now).
Proof.
  unfold MessageRepository.createMessage, messageLog, newest.
  set (key := REDIS_KEYS.chatRoomMessages room).
  set (m := Message.mk id room userId username content now).
  unfold Redis.zCard, Redis.zAdd. rewrite zGet_zPut.
  set (z := Redis.zAdd_entries (Redis.zGet st key) m now).
  unfold APP_CONSTANTS.MESSAGE_HISTORY_LIMIT.
  destruct (100 <? Z.of_nat (length z)) eqn:E; simpl.
  - apply Z.ltb_lt in E. unfold Redis.zRemRangeByRank.
    rewrite !zGet_zPut, zRemRangeByRank_oldest by lia.
    f_equal. lia.
  - apply Z.ltb_ge in E. rewrite zGet_zPut.
    by replace (length z - 100)%nat with 0%nat by lia.
Qed.

(** Its effect on the other sorted sets: none. *)
Lemma createMessage_other st id now room userId username content key :
  key ≠ REDIS_KEYS.chatRoomMessages room →
  Redis.zGet
    (MessageRepository.createMessage st id now room userId username content).2 key
  = Redis.zGet st key.
Proof.
  intros Hne. unfold MessageRepository.createMessage.
  destruct (_ <? _); simpl; unfold Redis.zRemRangeByRank, Redis.zAdd;
    rewrite ?zGet_zPut_ne by done; reflexivity.
Qed.

Lemma createMessage_count st id now room userId username content :
  MessageRepository.getMessageCount
    (MessageRepository.createMessage st id now room userId username content).2 room
  ≤ 100.
Proof.
  unfold MessageRepository.getMessageCount, Redis.zCard.
  change (Redis.zGet ?s (REDIS_KEYS.chatRoomMessages room)) with (messageLog s room).
  rewrite createMessage_log, newest_length. lia.
Qed.

Lemma ranked_snoc (l : list zentry) (e : zentry) :
  ranked (l ++ [e]) = Redis.zinsert e (ranked l).
Proof. unfold ranked. by rewrite fold_left_app. Qed.

Lemma ranked_perm (l : list zentry) : ranked l ≡ₚ l.
Proof.
  induction l as [|e l IH] using rev_ind; [done|].
  rewrite ranked_snoc, zinsert_perm, IH. by rewrite Permutation_cons_append.
Qed.

Lemma ranked_sorted (l : list zentry) : StronglySorted rank_order (ranked l).
Proof.
  induction l as [|e l IH] using rev_ind; [constructor|].
  rewrite ranked_snoc. by apply zinsert_sorted.
Qed.

(** Entries that arrive with strictly increasing scores are ranked in the
    order of their arrival. *)
Lemma ranked_increasing (l : list zentry) :
  StronglySorted (λ a b : zentry, a.1 < b.1) l → ranked l = l.
Proof.
  induction l as [|e l IH] using rev_ind; [done|]. intros Hs.
  apply StronglySorted_app in Hs as (Hle & Hl & _).
  rewrite ranked_snoc, IH by done. apply zinsert_last.
  apply Forall_forall. intros a Ha. apply Hle; [done|]. by left.
Qed.

(** Retention commutes with insertion. *)
Lemma newest_zinsert (e : zentry) (l : list zentry) :
  StronglySorted rank_order l →
  newest 100 (Redis.zinsert e (newest 100 l)) = newest 100 (Redis.zinsert e l).
Proof.
  intros Hs. destruct (decide (length l ≤ 100)%nat) as [Hle|Hgt].
  - by rewrite (newest_short 100 l).
  - unfold newest at 1 3. rewrite !zinsert_length, newest_length.
    replace (S (length l `min` 100) - 100)%nat with 1%nat by lia.
    replace (S (length l) - 100)%nat with (S (length l - 100)) by lia.
    by apply drop_zinsert.
Qed.

Lemma postAll_snoc st room posts p :
  postAll st room (posts ++ [p])
  = (MessageRepository.createMessage (postAll st room posts) (Post.id p) (Post.now p)
       room (Post.userId p) (Post.username p) (Post.content p)).2.
Proof. unfold postAll. by rewrite fold_left_app. Qed.

(** The log after a series of posts into an empty room: the newest hundred
    of the posts, by rank. *)
Lemma postAll_log st room posts :
  messageLog st room = [] →
  NoDup (map (Post.text room) posts) →
  messageLog (postAll st room posts) room
  = newest 100 (ranked (map (Post.entry room) posts)).
Proof.
  intros Hempty. induction posts as [|p posts IH] using rev_ind; intros Hnd.
  - unfold postAll. simpl. by rewrite Hempty.
  - rewrite map_app in Hnd. apply NoDup_app in Hnd as (Hnd & Hfresh & _).
    rewrite postAll_snoc, createMessage_log, IH by done.
    change (Message.mk (Post.id p) room (Post.userId p) (Post.username p)
              (Post.content p) (Post.now p)) with (Post.message room p).
    rewrite map_app. simpl map. rewrite ranked_snoc.
    unfold Redis.zAdd_entries. rewrite filter_absent.
    + apply newest_zinsert, ranked_sorted.
    + intros Hin.
      assert (Hin' : Post.text room p
                     ∈ map Redis.member_text (ranked (map (Post.entry room) posts))).
      { eapply list_elem_of_fmap in Hin as (e & Heq & He).
        apply list_elem_of_fmap. exists e. split; [exact Heq|].
        unfold newest in He. by eapply subseteq_drop. }
      rewrite ranked_perm, map_map in Hin'.
      apply (Hfresh _ Hin'). by left.
Qed.

End MessageFacts.

(** ** What each repository call leaves alone *)

Module Frame.

Lemma fold_hSet_flag (f : string → string) (x : string) (l : list string) :
  ∀ st,
    let st' := fold_left (λ s i, Redis.hSet_flag s (f i) x) l st in
    roomHashes st' = roomHashes st ∧ profileHashes st' = profileHashes st ∧
    sortedSets st' = sortedSets st.
Proof.
  induction l as [|i l IH]; intros st; simpl; [done|].
  destruct (IH (Redis.hSet_flag st (f i) x)) as (-> & -> & ->). done.
Qed.

Lemma fold_hDel (f : string → string) (x : string) (l : list string) :
  ∀ st,
    let st' := fold_left (λ s i, Redis.hDel s (f i) x) l st in
    roomHashes st' = roomHashes st ∧ profileHashes st' = profileHashes st ∧
    sortedSets st' = sortedSets st.
Proof.
  induction l as [|i l IH]; intros st; simpl; [done|].
  destruct (IH (Redis.hDel st (f i) x)) as (-> & -> & ->). done.
Qed.

Lemma createChatRoom_sortedSets st id now title topic creatorId creatorUsername interests :
  sortedSets (ChatRoomRepository.createChatRoom st id now title topic creatorId
                creatorUsername interests).2 = sortedSets st.
Proof.
  unfold ChatRoomRepository.createChatRoom. simpl.
  by destruct (fold_hSet_flag REDIS_KEYS.interestChatRooms id interests
    (Redis.hSet_flag
       (Redis.hSet_room st (REDIS_KEYS.chatRoom id)
          (RoomHash.mk (Some id) (Some title) (Some topic) (Some creatorId)
             (Some creatorUsername) (Some [creatorId]) (Some 1) (Some interests)
             (Some true) (Some now) (Some now)))
       REDIS_KEYS.activeChatRooms id)) as (_ & _ & ->).
Qed.

Lemma deactivateChatRoom_sortedSets st chatRoomId :
  sortedSets (ChatRoomRepository.deactivateChatRoom st chatRoomId) = sortedSets st.
Proof.
  unfold ChatRoomRepository.deactivateChatRoom.
  destruct (ChatRoomRepository.getChatRoom st chatRoomId) as [r|]; [|done].
  by destruct (fold_hDel REDIS_KEYS.interestChatRooms chatRoomId (ChatRoom.interests r)
    (Redis.hDel
       (Redis.hSet_room st (REDIS_KEYS.chatRoom chatRoomId)
          (RoomHash.mk None None None None None None None None (Some false) None None))
       REDIS_KEYS.activeChatRooms chatRoomId)) as (_ & _ & ->).
Qed.

Lemma joinChatRoom_sortedSets st now chatRoomId userId :
  sortedSets (ChatRoomRepository.joinChatRoom st now chatRoomId userId).2 = sortedSets st.
Proof.
  unfold ChatRoomRepository.joinChatRoom.
  destruct (ChatRoomRepository.getChatRoom st chatRoomId) as [r|]; [|done].
  destruct (negb _); [done|]. by case_bool_decide.
Qed.

Lemma leaveChatRoom_sortedSets st now chatRoomId userId :
  sortedSets (ChatRoomRepository.leaveChatRoom st now chatRoomId userId).2 = sortedSets st.
Proof.
  unfold ChatRoomRepository.leaveChatRoom.
  destruct (ChatRoomRepository.getChatRoom st chatRoomId) as [r|]; [|done].
  case_bool_decide; [|done]. apply deactivateChatRoom_sortedSets.
Qed.

Lemma userRepository_sortedSets st userId :
  sortedSets (UserRepository.updateProfileActiveChats st userId) = sortedSets st.
Proof. unfold UserRepository.updateProfileActiveChats. by destruct UserRepository.profileExists. Qed.

(** A call other than [createMessage] leaves every sorted set as it was, or
    (deletion of a room) removes it. *)
Lemma exec_zGet st c key :
  (∀ id now room userId username content,
      c ≠ CreateMessage id now room userId username content) →
  Redis.zGet (exec st c) key = Redis.zGet st key ∨ Redis.zGet (exec st c) key = [].
Proof.
  intros Hc. unfold Redis.zGet.
  destruct c; unfold exec.
  - rewrite createChatRoom_sortedSets. by left.
  - rewrite joinChatRoom_sortedSets. by left.
  - rewrite leaveChatRoom_sortedSets. by left.
  - by left.
  - rewrite deactivateChatRoom_sortedSets. by left.
  - unfold ChatRoomRepository.deleteChatRoom.
    destruct (ChatRoomRepository.getChatRoom st chatRoomId) as [r|]; [|by left].
    case_bool_decide; [by left|]. unfold Redis.del. simpl.
    rewrite deactivateChatRoom_sortedSets.
    destruct (decide (key = REDIS_KEYS.chatRoomMessages chatRoomId)) as [->|].
    { right. by rewrite lookup_delete_eq. }
    rewrite lookup_delete_ne by done.
    destruct (decide (key = REDIS_KEYS.chatRoom chatRoomId)) as [->|].
    { right. by rewrite lookup_delete_eq. }
    rewrite lookup_delete_ne by done. by left.
  - exfalso. by eapply Hc.
  - unfold UserRepository.addUserToActiveChat.
    rewrite userRepository_sortedSets. by left.
  - unfold UserRepository.removeUserFromActiveChat.
    rewrite userRepository_sortedSets. by left.
Qed.

End Frame.

(** ** Every stored log is ranked, duplicate-free and bounded *)

Module LogInvariant.
Import ZSetFacts MessageFacts.

Lemma log_ok_nil : log_ok [].
Proof. split; simpl; [constructor|constructor|constructor|lia]. Qed.

Lemma log_ok_zAdd (l : list zentry) (m : Message.t) :
  log_ok l →
  log_ok (newest 100 (Redis.zAdd_entries l m (Message.timestamp m))).
Proof.
  intros [Hs Hn Hsc Hb].
  set (fl := filter (λ e : zentry, Redis.member_text e ≠ Message.stringify m) l).
  assert (Hperm : Redis.zAdd_entries l m (Message.timestamp m)
                  ≡ₚ (Message.timestamp m, m) :: fl)
    by apply zinsert_perm.
  assert (Hnd : NoDup (map Redis.member_text
                         (Redis.zAdd_entries l m (Message.timestamp m)))).
  { change (NoDup (Redis.member_text <$> Redis.zAdd_entries l m (Message.timestamp m))).
    rewrite Hperm. simpl. constructor.
    - intros Hin. apply list_elem_of_fmap in Hin as (e & He & Hin).
      apply list_elem_of_filter in Hin as [Hne _]. by apply Hne.
    - eapply sublist_NoDup; [exact Hn|]. apply fmap_sublist, sublist_filter. }
  split.
  - apply sorted_drop, zinsert_sorted, sorted_filter, Hs.
  - unfold newest. change (NoDup (Redis.member_text <$> drop
      (length (Redis.zAdd_entries l m (Message.timestamp m)) - 100)
      (Redis.zAdd_entries l m (Message.timestamp m)))).
    rewrite fmap_drop. eapply sublist_NoDup; [exact Hnd|]. apply sublist_drop.
  - unfold newest. apply Forall_drop. rewrite Hperm.
    constructor; [done|]. by apply forall_filter.
  - rewrite newest_length. lia.
Qed.

Lemma logs_ok_exec st c : logs_ok st → logs_ok (exec st c).
Proof.
  intros Hst key.
  destruct c as [| | | | | |id now room userId username content| |];
    try (match goal with
         | |- log_ok (Redis.zGet (exec _ ?c) _) =>
             destruct (Frame.exec_zGet st c key) as [-> | ->];
             [intros; discriminate | apply Hst | apply log_ok_nil]
         end; fail).
  simpl. destruct (decide (key = REDIS_KEYS.chatRoomMessages room)) as [->|Hne].
  - change (log_ok (messageLog
      (MessageRepository.createMessage st id now room userId username content).2 room)).
    rewrite createMessage_log.
    apply (log_ok_zAdd _ (Message.mk id room userId username content now)), Hst.
  - rewrite createMessage_other by done. apply Hst.
Qed.

Lemma logs_ok_run calls : ∀ st, logs_ok st → logs_ok (run calls st).
Proof.
  induction calls as [|c calls IH]; intros st Hst; [done|].
  simpl. by apply IH, logs_ok_exec.
Qed.

Lemma logs_ok_empty : logs_ok emptyStore.
Proof. intros key. unfold Redis.zGet. simpl. rewrite lookup_empty. apply log_ok_nil. Qed.

Lemma logs_ok_reachable st : reachable st → logs_ok st.
Proof.
  induction 1; [apply logs_ok_empty|]. by apply logs_ok_exec.
Qed.

End LogInvariant.

(** ** Keys *)

Module KeyFacts.

Lemma chatRoom_inj (a b : string) :
  REDIS_KEYS.chatRoom a = REDIS_KEYS.chatRoom b → a = b.
Proof. unfold REDIS_KEYS.chatRoom. simpl. intros E. by simplify_eq. Qed.

Lemma interestChatRooms_inj (a b : string) :
  REDIS_KEYS.interestChatRooms a = REDIS_KEYS.interestChatRooms b → a = b.
Proof. unfold REDIS_KEYS.interestChatRooms. simpl. intros E. by simplify_eq. Qed.

Lemma active_not_interest (tag : string) :
  REDIS_KEYS.activeChatRooms ≠ REDIS_KEYS.interestChatRooms tag.
Proof. discriminate. Qed.

Lemma userActiveChats_not_interest (userId tag : string) :
  REDIS_KEYS.userActiveChats userId ≠ REDIS_KEYS.interestChatRooms tag.
Proof. discriminate. Qed.

Lemma userActiveChats_not_active (userId : string) :
  REDIS_KEYS.userActiveChats userId ≠ REDIS_KEYS.activeChatRooms.
Proof. discriminate. Qed.

Lemma chatRoom_not_interest (id tag : string) :
  REDIS_KEYS.chatRoom id ≠ REDIS_KEYS.interestChatRooms tag.
Proof. discriminate. Qed.

Lemma chatRoomMessages_not_interest (id tag : string) :
  REDIS_KEYS.chatRoomMessages id ≠ REDIS_KEYS.interestChatRooms tag.
Proof. discriminate. Qed.

Lemma chatRoom_not_active (id : string) :
  REDIS_KEYS.chatRoom id ≠ REDIS_KEYS.activeChatRooms.
Proof. discriminate. Qed.

Lemma chatRoomMessages_not_active (id : string) :
  REDIS_KEYS.chatRoomMessages id ≠ REDIS_KEYS.activeChatRooms.
Proof. discriminate. Qed.

Lemma colon_in_suffix (a : string) : colon_free (a ++ ":messages") = false.
Proof.
  induction a as [|c a IH]; [reflexivity|]. simpl.
  rewrite IH. apply andb_false_r.
Qed.

(** The key of a message log is not the key of a room with a generated id. *)
Lemma chatRoomMessages_not_chatRoom (a b : string) :
  colon_free b = true → REDIS_KEYS.chatRoomMessages a ≠ REDIS_KEYS.chatRoom b.
Proof.
  intros Hb E. unfold REDIS_KEYS.chatRoomMessages, REDIS_KEYS.chatRoom in E.
  simpl in E. assert (b = a ++ ":messages") as -> by (by simplify_eq).
  rewrite colon_in_suffix in Hb. discriminate.
Qed.

End KeyFacts.

(** ** Hashes *)

Module HashFacts.

Lemma hGetAll_hSet_room st key fields :
  Redis.hGetAll_room (Redis.hSet_room st key fields) key
  = RoomHash.set fields (Redis.hGetAll_room st key).
Proof.
  unfold Redis.hGetAll_room at 1. unfold Redis.hSet_room. simpl.
  by rewrite lookup_insert_eq.
Qed.

Lemma hGetAll_hSet_room_ne st key key' fields :
  key ≠ key' →
  Redis.hGetAll_room (Redis.hSet_room st key fields) key' = Redis.hGetAll_room st key'.
Proof.
  intros Hne. unfold Redis.hGetAll_room, Redis.hSet_room. simpl.
  by rewrite lookup_insert_ne.
Qed.

Lemma getChatRoom_frame st st' id :
  roomHashes st' = roomHashes st →
  ChatRoomRepository.getChatRoom st' id = ChatRoomRepository.getChatRoom st id.
Proof.
  intros E. unfold ChatRoomRepository.getChatRoom, Redis.hGetAll_room. by rewrite E.
Qed.

Lemma hKeys_frame st st' key :
  setHashes st' = setHashes st → Redis.hKeys st' key = Redis.hKeys st key.
Proof. intros E. unfold Redis.hKeys. by rewrite E. Qed.

Lemma getChatRoom_hSet_room_ne st id id' fields :
  id ≠ id' →
  ChatRoomRepository.getChatRoom (Redis.hSet_room st (REDIS_KEYS.chatRoom id) fields) id'
  = ChatRoomRepository.getChatRoom st id'.
Proof.
  intros Hne. unfold ChatRoomRepository.getChatRoom.
  rewrite hGetAll_hSet_room_ne; [done|].
  intros E. by apply KeyFacts.chatRoom_inj in E.
Qed.

(** Writing fields other than [id] into the hash of a room that exists:
    the fields written are read back, the others kept. *)
Lemma getChatRoom_hSet_room st id fields room :
  ChatRoomRepository.getChatRoom st id = Some room →
  RoomHash.id fields = None →
  ChatRoomRepository.getChatRoom (Redis.hSet_room st (REDIS_KEYS.chatRoom id) fields) id
  = Some (ChatRoom.mk (ChatRoom.id room)
            (orElse (RoomHash.title fields) (ChatRoom.title room))
            (orElse (RoomHash.topic fields) (ChatRoom.topic room))
            (orElse (RoomHash.creatorId fields) (ChatRoom.creatorId room))
            (orElse (RoomHash.creatorUsername fields) (ChatRoom.creatorUsername room))
            (default (ChatRoom.participants room) (RoomHash.participants fields))
            (default (ChatRoom.participantCount room) (RoomHash.participantCount fields))
            (default (ChatRoom.interests room) (RoomHash.interests fields))
            (default (ChatRoom.isActive room) (RoomHash.isActive fields))
            (default (ChatRoom.createdAt room) (RoomHash.createdAt fields))
            (default (ChatRoom.lastActivity room) (RoomHash.lastActivity fields))).
Proof.
  unfold ChatRoomRepository.getChatRoom. rewrite hGetAll_hSet_room.
  destruct (Redis.hGetAll_room st (REDIS_KEYS.chatRoom id))
    as [hid htitle htopic hcid hcname hparts hcount hints hactive hcreated hlast].
  destruct fields as [fid ftitle ftopic fcid fcname fparts fcount fints factive fcreated flast].
  simpl. intros Hroom ->. simpl.
  destruct hid as [[|c hid]|]; [done| |done].
  injection Hroom as <-. simpl.
  by destruct fparts, fcount, fints, factive, fcreated, flast.
Qed.

(** Writing fields other than [id] into the hash of a room that does not
    exist creates no room. *)
Lemma getChatRoom_hSet_room_absent st id fields :
  ChatRoomRepository.getChatRoom st id = None →
  RoomHash.id fields = None →
  ChatRoomRepository.getChatRoom (Redis.hSet_room st (REDIS_KEYS.chatRoom id) fields) id
  = None.
Proof.
  unfold ChatRoomRepository.getChatRoom. rewrite hGetAll_hSet_room.
  destruct (Redis.hGetAll_room st (REDIS_KEYS.chatRoom id))
    as [hid htitle htopic hcid hcname hparts hcount hints hactive hcreated hlast].
  destruct fields as [fid ftitle ftopic fcid fcname fparts fcount fints factive fcreated flast].
  simpl. intros Hroom ->. simpl. by destruct hid as [[|c hid]|].
Qed.

Lemma hKeys_hSet_flag st key field key' :
  Redis.hKeys (Redis.hSet_flag st key field) key'
  = if decide (key = key') then
      if bool_decide (field ∈ Redis.hKeys st key) then Redis.hKeys st key
      else (Redis.hKeys st key ++ [field])%list
    else Redis.hKeys st key'.
Proof.
  unfold Redis.hKeys at 1. unfold Redis.hSet_flag. simpl.
  destruct (decide (key = key')) as [->|Hne].
  - by rewrite lookup_insert_eq.
  - by rewrite lookup_insert_ne.
Qed.

Lemma hKeys_hDel st key field key' :
  Redis.hKeys (Redis.hDel st key field) key'
  = if decide (key = key') then filter (λ f, f ≠ field) (Redis.hKeys st key)
    else Redis.hKeys st key'.
Proof.
  unfold Redis.hKeys at 1. unfold Redis.hDel. simpl.
  destruct (filter (λ f, f ≠ field) (Redis.hKeys st key)) eqn:E;
    destruct (decide (key = key')) as [->|Hne];
    rewrite ?lookup_delete_eq, ?lookup_delete_ne, ?lookup_insert_eq, ?lookup_insert_ne
      by done; done.
Qed.

Lemma elem_of_hKeys_hSet_flag st key field key' x :
  x ∈ Redis.hKeys (Redis.hSet_flag st key field) key'
  ↔ x ∈ Redis.hKeys st key' ∨ (key = key' ∧ x = field).
Proof.
  rewrite hKeys_hSet_flag. destruct (decide (key = key')) as [->|Hne].
  - case_bool_decide as Hin.
    + split; [by left|]. intros [?|[_ ->]]; done.
    + rewrite elem_of_app, list_elem_of_singleton.
      split; [intros [?|?]; [by left|by right]|intros [?|[_ ?]]; [by left|by right]].
  - split; [by left|]. by intros [?|[? _]].
Qed.

Lemma elem_of_hKeys_hDel st key field key' x :
  x ∈ Redis.hKeys (Redis.hDel st key field) key'
  ↔ x ∈ Redis.hKeys st key' ∧ ¬ (key = key' ∧ x = field).
Proof.
  rewrite hKeys_hDel. destruct (decide (key = key')) as [->|Hne].
  - rewrite list_elem_of_filter. split.
    + intros [Hne Hx]. split; [done|]. by intros [_ ?].
    + intros [Hx Hn]. split; [|done]. intros ->. by apply Hn.
  - split; [|by intros [? _]]. intros Hx. split; [done|]. by intros [? _].
Qed.

Lemma elem_of_hKeys_fold_hSet_flag (f : string → string) (field : string)
    (l : list string) key x :
  ∀ st,
    x ∈ Redis.hKeys (fold_left (λ s i, Redis.hSet_flag s (f i) field) l st) key
    ↔ x ∈ Redis.hKeys st key ∨ (x = field ∧ ∃ i, i ∈ l ∧ f i = key).
Proof.
  induction l as [|i l IH]; intros st; simpl.
  - split; [by left|]. intros [?|(_ & i & Hi & _)]; [done|]. by apply elem_of_nil in Hi.
  - rewrite IH, elem_of_hKeys_hSet_flag. split.
    + intros [[?|[<- ->]]|(-> & j & Hj & <-)]; [by left| |].
      * right. split; [done|]. exists i. split; [by left|done].
      * right. split; [done|]. exists j. split; [by right|done].
    + intros [?|(-> & j & Hj & <-)]; [by left; left|].
      apply elem_of_cons in Hj as [->|Hj]; [left; right; done|].
      right. split; [done|]. by exists j.
Qed.

Lemma elem_of_hKeys_fold_hDel (f : string → string) (field : string)
    (l : list string) key x :
  ∀ st,
    x ∈ Redis.hKeys (fold_left (λ s i, Redis.hDel s (f i) field) l st) key
    ↔ x ∈ Redis.hKeys st key ∧ ¬ (x = field ∧ ∃ i, i ∈ l ∧ f i = key).
Proof.
  induction l as [|i l IH]; intros st; simpl.
  - split; [|by intros [? _]]. intros Hx. split; [done|].
    intros (_ & i & Hi & _). by apply elem_of_nil in Hi.
  - rewrite IH, elem_of_hKeys_hDel. split.
    + intros [[Hx Hn] Hn']. split; [done|]. intros (-> & j & Hj & <-).
      apply elem_of_cons in Hj as [->|Hj]; [by apply Hn|].
      apply Hn'. split; [done|]. by exists j.
    + intros [Hx Hn]. split; [split; [done|]|].
      * intros [<- ->]. apply Hn. split; [done|]. exists i. split; [by left|done].
      * intros (-> & j & Hj & <-). apply Hn. split; [done|]. exists j.
        split; [by right|done].
Qed.

End HashFacts.

(** ** The stored count of participants *)

Module CountInvariant.

Lemma counts_ok_frame st st' :
  roomHashes st' = roomHashes st → counts_ok st → counts_ok st'.
Proof. intros E H key h. rewrite E. apply H. Qed.

Lemma counts_ok_hSet_room st key fields :
  count_fields_ok fields → counts_ok st →
  counts_ok (Redis.hSet_room st key fields).
Proof.
  intros Hf Hst key' h. unfold Redis.hSet_room. simpl.
  destruct (decide (key = key')) as [<-|Hne].
  - rewrite lookup_insert_eq. intros [= <-].
    assert (Hold : default 0 (RoomHash.participantCount (Redis.hGetAll_room st key))
                   = Z.of_nat (length (default []
                       (RoomHash.participants (Redis.hGetAll_room st key))))).
    { unfold Redis.hGetAll_room. destruct (roomHashes st !! key) as [h|] eqn:E.
      - apply (Hst key h E).
      - reflexivity. }
    unfold count_fields_ok in Hf. unfold RoomHash.set. simpl.
    destruct (RoomHash.participants fields), (RoomHash.participantCount fields);
      simpl; done.
  - rewrite lookup_insert_ne by done. apply Hst.
Qed.

Lemma counts_ok_del st key : counts_ok st → counts_ok (Redis.del st key).
Proof.
  intros Hst key' h. unfold Redis.del. simpl. intros Hl.
  apply lookup_delete_Some in Hl as [_ Hl]. exact (Hst _ _ Hl).
Qed.

Lemma counts_ok_deactivate st chatRoomId :
  counts_ok st → counts_ok (ChatRoomRepository.deactivateChatRoom st chatRoomId).
Proof.
  intros Hst. unfold ChatRoomRepository.deactivateChatRoom.
  destruct (ChatRoomRepository.getChatRoom st chatRoomId) as [room|]; [|done].
  eapply counts_ok_frame.
  - apply (Frame.fold_hDel REDIS_KEYS.interestChatRooms).
  - eapply counts_ok_frame; [reflexivity|]. by apply counts_ok_hSet_room.
Qed.

Lemma counts_ok_exec st c : counts_ok st → counts_ok (exec st c).
Proof.
  intros Hst. destruct c; unfold exec.
  - unfold ChatRoomRepository.createChatRoom. simpl.
    eapply counts_ok_frame.
    + apply (Frame.fold_hSet_flag REDIS_KEYS.interestChatRooms).
    + eapply counts_ok_frame; [reflexivity|]. by apply counts_ok_hSet_room.
  - unfold ChatRoomRepository.joinChatRoom.
    destruct (ChatRoomRepository.getChatRoom st chatRoomId) as [room|]; [|done].
    destruct (negb _); [done|]. case_bool_decide; [done|].
    by apply counts_ok_hSet_room.
  - unfold ChatRoomRepository.leaveChatRoom.
    destruct (ChatRoomRepository.getChatRoom st chatRoomId) as [room|]; [|done].
    case_bool_decide.
    + by apply counts_ok_deactivate.
    + by apply counts_ok_hSet_room.
  - by apply counts_ok_hSet_room.
  - by apply counts_ok_deactivate.
  - unfold ChatRoomRepository.deleteChatRoom.
    destruct (ChatRoomRepository.getChatRoom st chatRoomId) as [room|]; [|done].
    case_bool_decide; [done|]. simpl.
    by apply counts_ok_del, counts_ok_del, counts_ok_deactivate.
  - unfold MessageRepository.createMessage.
    destruct (_ <? _); simpl; (eapply counts_ok_frame; [|exact Hst]);
      unfold Redis.zRemRangeByRank, Redis.zAdd, Redis.zPut; reflexivity.
  - unfold UserRepository.addUserToActiveChat, UserRepository.updateProfileActiveChats.
    destruct UserRepository.profileExists; (eapply counts_ok_frame; [|exact Hst]);
      reflexivity.
  - unfold UserRepository.removeUserFromActiveChat, UserRepository.updateProfileActiveChats.
    destruct UserRepository.profileExists; (eapply counts_ok_frame; [|exact Hst]);
      reflexivity.
Qed.


Lemma counts_ok_empty : counts_ok emptyStore.
Proof. intros key h. simpl. by rewrite lookup_empty. Qed.


End CountInvariant.

(** ** The effect of the room operations on what is read back *)

Module RoomFacts.
Import HashFacts.

Lemma deactivate_absent st chatRoomId :
  ChatRoomRepository.getChatRoom st chatRoomId = None →
  ChatRoomRepository.deactivateChatRoom st chatRoomId = st.
Proof. intros E. unfold ChatRoomRepository.deactivateChatRoom. by rewrite E. Qed.

Lemma getChatRoom_deactivate st chatRoomId room id :
  ChatRoomRepository.getChatRoom st chatRoomId = Some room →
  ChatRoomRepository.getChatRoom (ChatRoomRepository.deactivateChatRoom st chatRoomId) id
  = if decide (id = chatRoomId) then Some (deactivated room)
    else ChatRoomRepository.getChatRoom st id.
Proof.
  intros E. unfold ChatRoomRepository.deactivateChatRoom. rewrite E.
  rewrite (getChatRoom_frame
    (Redis.hSet_room st (REDIS_KEYS.chatRoom chatRoomId)
       (RoomHash.mk None None None None None None None None (Some false) None None))).
  - destruct (decide (id = chatRoomId)) as [->|Hne].
    + by rewrite (getChatRoom_hSet_room _ _ _ room).
    + by rewrite getChatRoom_hSet_room_ne.
  - by destruct (Frame.fold_hDel REDIS_KEYS.interestChatRooms chatRoomId
      (ChatRoom.interests room)
      (Redis.hDel
         (Redis.hSet_room st (REDIS_KEYS.chatRoom chatRoomId)
            (RoomHash.mk None None None None None None None None (Some false) None None))
         REDIS_KEYS.activeChatRooms chatRoomId)) as (-> & _).
Qed.

Lemma elem_of_hKeys_deactivate st chatRoomId room key x :
  ChatRoomRepository.getChatRoom st chatRoomId = Some room →
  x ∈ Redis.hKeys (ChatRoomRepository.deactivateChatRoom st chatRoomId) key
  ↔ x ∈ Redis.hKeys st key ∧
    ¬ (x = chatRoomId ∧
       (key = REDIS_KEYS.activeChatRooms ∨
        ∃ i, i ∈ ChatRoom.interests room ∧ REDIS_KEYS.interestChatRooms i = key)).
Proof.
  intros E. unfold ChatRoomRepository.deactivateChatRoom. rewrite E.
  rewrite elem_of_hKeys_fold_hDel, elem_of_hKeys_hDel.
  rewrite (hKeys_frame st (Redis.hSet_room _ _ _)) by done.
  split.
  - intros [[Hx Hn1] Hn2]. split; [done|]. intros (-> & [->|Hi]).
    + by apply Hn1.
    + by apply Hn2.
  - intros [Hx Hn]. split; [split; [done|]|].
    + intros [<- ->]. apply Hn. split; [done|]. by left.
    + intros [-> Hi]. apply Hn. split; [done|]. by right.
Qed.

Lemma getChatRoom_createChatRoom st id now title topic creatorId creatorUsername
    interests id' :
  id ≠ EmptyString →
  ChatRoomRepository.getChatRoom
    (ChatRoomRepository.createChatRoom st id now title topic creatorId creatorUsername
       interests).2 id'
  = if decide (id' = id) then
      Some (ChatRoomRepository.createChatRoom st id now title topic creatorId
              creatorUsername interests).1
    else ChatRoomRepository.getChatRoom st id'.
Proof.
  intros Hid. unfold ChatRoomRepository.createChatRoom. simpl.
  rewrite (getChatRoom_frame
    (Redis.hSet_room st (REDIS_KEYS.chatRoom id)
       (RoomHash.mk (Some id) (Some title) (Some topic) (Some creatorId)
          (Some creatorUsername) (Some [creatorId]) (Some 1) (Some interests)
          (Some true) (Some now) (Some now)))).
  - destruct (decide (id' = id)) as [->|Hne].
    + unfold ChatRoomRepository.getChatRoom. rewrite hGetAll_hSet_room. simpl.
      by destruct id.
    + by rewrite getChatRoom_hSet_room_ne.
  - by destruct (Frame.fold_hSet_flag REDIS_KEYS.interestChatRooms id interests
      (Redis.hSet_flag
         (Redis.hSet_room st (REDIS_KEYS.chatRoom id)
            (RoomHash.mk (Some id) (Some title) (Some topic) (Some creatorId)
               (Some creatorUsername) (Some [creatorId]) (Some 1) (Some interests)
               (Some true) (Some now) (Some now)))
         REDIS_KEYS.activeChatRooms id)) as (-> & _).
Qed.

Lemma elem_of_hKeys_createChatRoom st id now title topic creatorId creatorUsername
    interests key x :
  x ∈ Redis.hKeys
        (ChatRoomRepository.createChatRoom st id now title topic creatorId
           creatorUsername interests).2 key
  ↔ x ∈ Redis.hKeys st key ∨
    (x = id ∧
     (key = REDIS_KEYS.activeChatRooms ∨
      ∃ i, i ∈ interests ∧ REDIS_KEYS.interestChatRooms i = key)).
Proof.
  unfold ChatRoomRepository.createChatRoom. simpl.
  rewrite elem_of_hKeys_fold_hSet_flag, elem_of_hKeys_hSet_flag.
  rewrite (hKeys_frame st (Redis.hSet_room _ _ _)) by done.
  split.
  - intros [[Hx|[<- ->]]|[-> Hi]]; [by left| |].
    + right. split; [done|]. by left.
    + right. split; [done|]. by right.
  - intros [Hx|(-> & [->|Hi])]; [by left; left| |].
    + left. right. done.
    + right. done.
Qed.

(** Leaving a room in which others remain. *)
Lemma leaveChatRoom_others_remain st now chatRoomId userId room :
  ChatRoomRepository.getChatRoom st chatRoomId = Some room →
  filter (λ id, id ≠ userId) (ChatRoom.participants room) ≠ [] →
  ChatRoomRepository.leaveChatRoom st now chatRoomId userId
  = (true,
     Redis.hSet_room st (REDIS_KEYS.chatRoom chatRoomId)
       (RoomHash.mk None None None None None
          (Some (filter (λ id, id ≠ userId) (ChatRoom.participants room)))
          (Some (Z.of_nat (length (filter (λ id, id ≠ userId)
                                     (ChatRoom.participants room)))))
          None None None (Some now))).
Proof.
  intros E Hne. unfold ChatRoomRepository.leaveChatRoom. rewrite E.
  case_bool_decide as Hlen; [|done].
  by apply length_zero_iff_nil in Hlen.
Qed.

(** Leaving a room in which nobody else remains. *)
Lemma leaveChatRoom_nobody_remains st now chatRoomId userId room :
  ChatRoomRepository.getChatRoom st chatRoomId = Some room →
  filter (λ id, id ≠ userId) (ChatRoom.participants room) = [] →
  ChatRoomRepository.leaveChatRoom st now chatRoomId userId
  = (true, ChatRoomRepository.deactivateChatRoom st chatRoomId).
Proof.
  intros E Hnil. unfold ChatRoomRepository.leaveChatRoom. rewrite E, Hnil.
  by rewrite bool_decide_eq_true_2.
Qed.

End RoomFacts.

(** ** Rooms and their indexes in the reachable stores *)

Module IndexInvariant.
Import HashFacts RoomFacts.

Lemma getChatRoom_del st key id :
  ChatRoomRepository.getChatRoom (Redis.del st key) id
  = if decide (REDIS_KEYS.chatRoom id = key) then None
    else ChatRoomRepository.getChatRoom st id.
Proof.
  unfold ChatRoomRepository.getChatRoom, Redis.hGetAll_room, Redis.del. simpl.
  destruct (decide (REDIS_KEYS.chatRoom id = key)) as [->|Hne].
  - by rewrite lookup_delete_eq.
  - by rewrite lookup_delete_ne.
Qed.

Lemma hKeys_del st key key' :
  Redis.hKeys (Redis.del st key) key'
  = if decide (key = key') then [] else Redis.hKeys st key'.
Proof.
  unfold Redis.hKeys, Redis.del. simpl.
  destruct (decide (key = key')) as [->|Hne].
  - by rewrite lookup_delete_eq.
  - by rewrite lookup_delete_ne.
Qed.

(** A store whose rooms and index entries all come from an indexed store,
    with the rooms of its entries still there, is indexed. *)
Lemma rooms_indexed_shrink st st' :
  (∀ id room', ChatRoomRepository.getChatRoom st' id = Some room' →
     ∃ room, ChatRoomRepository.getChatRoom st id = Some room ∧
             ChatRoom.id room' = ChatRoom.id room ∧
             ChatRoom.interests room' = ChatRoom.interests room) →
  (∀ tag id, id ∈ Redis.hKeys st' (REDIS_KEYS.interestChatRooms tag) →
     id ∈ Redis.hKeys st (REDIS_KEYS.interestChatRooms tag) ∧
     is_Some (ChatRoomRepository.getChatRoom st' id)) →
  rooms_indexed st → rooms_indexed st'.
Proof.
  intros Hrooms Hkeys [Hk Hi]. split.
  - intros id room' E. destruct (Hrooms id room' E) as (room & E' & -> & _).
    by apply Hk.
  - intros tag id Hin. destruct (Hkeys tag id Hin) as [Hold [room' E]].
    exists room'. split; [done|].
    destruct (Hrooms id room' E) as (room & E' & _ & ->).
    destruct (Hi tag id Hold) as (room0 & E0 & Htag). congruence.
Qed.

Lemma rooms_indexed_frame st st' :
  roomHashes st' = roomHashes st →
  (∀ tag, Redis.hKeys st' (REDIS_KEYS.interestChatRooms tag)
          = Redis.hKeys st (REDIS_KEYS.interestChatRooms tag)) →
  rooms_indexed st → rooms_indexed st'.
Proof.
  intros Hr Hk Hst. apply (rooms_indexed_shrink st); [| |done].
  - intros id room' E. rewrite (getChatRoom_frame st st') in E by done. eauto.
  - intros tag id Hin. rewrite Hk in Hin. split; [done|].
    rewrite (getChatRoom_frame st st') by done.
    destruct (interest_indexed st Hst tag id Hin) as (room & -> & _). eauto.
Qed.

Lemma rooms_indexed_hSet_room st chatRoomId fields :
  RoomHash.id fields = None → RoomHash.interests fields = None →
  rooms_indexed st →
  rooms_indexed (Redis.hSet_room st (REDIS_KEYS.chatRoom chatRoomId) fields).
Proof.
  intros Hid Hint Hst.
  assert (Hget : ∀ id room,
    ChatRoomRepository.getChatRoom st id = Some room →
    ∃ room', ChatRoomRepository.getChatRoom
               (Redis.hSet_room st (REDIS_KEYS.chatRoom chatRoomId) fields) id
             = Some room' ∧
             ChatRoom.id room' = ChatRoom.id room ∧
             ChatRoom.interests room' = ChatRoom.interests room).
  { intros id room E. destruct (decide (chatRoomId = id)) as [->|Hne].
    - rewrite (getChatRoom_hSet_room st id fields room E Hid).
      eexists. split; [done|]. simpl. by rewrite Hint.
    - rewrite getChatRoom_hSet_room_ne by done. eauto. }
  apply (rooms_indexed_shrink st); [| |done].
  - intros id room' E'.
    destruct (ChatRoomRepository.getChatRoom st id) as [room|] eqn:E.
    + destruct (Hget id room E) as (room'' & E'' & ? & ?).
      exists room. split; [done|]. split; congruence.
    + destruct (decide (chatRoomId = id)) as [->|Hne].
      * by rewrite (getChatRoom_hSet_room_absent st id fields E Hid) in E'.
      * rewrite getChatRoom_hSet_room_ne in E' by done. congruence.
  - intros tag id Hin. rewrite (hKeys_frame st) in Hin by done. split; [done|].
    destruct (interest_indexed st Hst tag id Hin) as (room & E & _).
    destruct (Hget id room E) as (room' & -> & _). eauto.
Qed.

Lemma rooms_indexed_deactivate st chatRoomId :
  rooms_indexed st →
  rooms_indexed (ChatRoomRepository.deactivateChatRoom st chatRoomId).
Proof.
  intros Hst.
  destruct (ChatRoomRepository.getChatRoom st chatRoomId) as [room|] eqn:E;
    [|by rewrite deactivate_absent].
  apply (rooms_indexed_shrink st); [| |done].
  - intros id room'. rewrite (getChatRoom_deactivate st chatRoomId room id E).
    destruct (decide (id = chatRoomId)) as [->|Hne]; [|eauto].
    intros [= <-]. eauto.
  - intros tag id Hin.
    apply (elem_of_hKeys_deactivate st chatRoomId room _ _ E) in Hin as [Hin _].
    split; [done|]. rewrite (getChatRoom_deactivate st chatRoomId room id E).
    destruct (decide (id = chatRoomId)); [eauto|].
    destruct (interest_indexed st Hst tag id Hin) as (room' & -> & _). eauto.
Qed.

(** After its deactivation a room is in no interest index. *)
Lemma deactivate_unindexed st chatRoomId tag :
  rooms_indexed st →
  is_Some (ChatRoomRepository.getChatRoom st chatRoomId) →
  chatRoomId ∉ Redis.hKeys (ChatRoomRepository.deactivateChatRoom st chatRoomId)
                 (REDIS_KEYS.interestChatRooms tag).
Proof.
  intros Hst [room E] Hin.
  apply (elem_of_hKeys_deactivate st chatRoomId room _ _ E) in Hin as [Hin Hn].
  destruct (interest_indexed st Hst tag chatRoomId Hin) as (room' & E' & Htag).
  apply Hn. split; [done|]. right. exists tag. split; [congruence|done].
Qed.

Lemma rooms_indexed_delete st chatRoomId userId :
  rooms_indexed st →
  rooms_indexed (ChatRoomRepository.deleteChatRoom st chatRoomId userId).2.
Proof.
  intros Hst. unfold ChatRoomRepository.deleteChatRoom.
  destruct (ChatRoomRepository.getChatRoom st chatRoomId) as [room|] eqn:E; [|done].
  case_bool_decide; [done|]. simpl.
  pose proof (rooms_indexed_deactivate st chatRoomId Hst) as Hst1.
  set (st1 := ChatRoomRepository.deactivateChatRoom st chatRoomId) in *.
  assert (Hget : ∀ id room',
    ChatRoomRepository.getChatRoom st1 id = Some room' → id ≠ chatRoomId →
    ChatRoomRepository.getChatRoom
      (Redis.del (Redis.del st1 (REDIS_KEYS.chatRoom chatRoomId))
         (REDIS_KEYS.chatRoomMessages chatRoomId)) id = Some room').
  { intros id room' E' Hne. rewrite !getChatRoom_del.
    destruct (room_keyed st1 Hst1 id room' E') as [_ Hcolon].
    rewrite decide_False.
    - rewrite decide_False; [done|]. intros Heq. by apply KeyFacts.chatRoom_inj in Heq.
    - intros Heq. by apply (KeyFacts.chatRoomMessages_not_chatRoom chatRoomId id). }
  apply (rooms_indexed_shrink st1); [| |done].
  - intros id room'. rewrite !getChatRoom_del.
    repeat (destruct (decide _); [done|]). eauto.
  - intros tag id. rewrite !hKeys_del.
    rewrite decide_False by apply KeyFacts.chatRoomMessages_not_interest.
    rewrite decide_False by apply KeyFacts.chatRoom_not_interest.
    intros Hin. split; [done|].
    destruct (interest_indexed st1 Hst1 tag id Hin) as (room' & E' & _).
    rewrite (Hget id room' E'); [eauto|]. intros ->.
    by apply (deactivate_unindexed st chatRoomId tag Hst).
Qed.

Lemma rooms_indexed_create st id now title topic creatorId creatorUsername interests :
  id ≠ EmptyString → colon_free id = true →
  ChatRoomRepository.getChatRoom st id = None →
  rooms_indexed st →
  rooms_indexed (ChatRoomRepository.createChatRoom st id now title topic creatorId
                   creatorUsername interests).2.
Proof.
  intros Hid Hcolon Hfresh [Hk Hi]. split.
  - intros id' room. rewrite getChatRoom_createChatRoom by done.
    destruct (decide (id' = id)) as [->|Hne]; [|apply Hk].
    by intros [= <-].
  - intros tag id' Hin. rewrite getChatRoom_createChatRoom by done.
    apply elem_of_hKeys_createChatRoom in Hin as [Hin|(-> & [Hact|(i & Hi' & Heq)])].
    + destruct (Hi tag id' Hin) as (room & E & Htag).
      rewrite decide_False by congruence. eauto.
    + symmetry in Hact. by apply KeyFacts.active_not_interest in Hact.
    + apply KeyFacts.interestChatRooms_inj in Heq as ->.
      rewrite decide_True by done. eauto.
Qed.

Lemma rooms_indexed_exec st c :
  fresh_id st c → rooms_indexed st → rooms_indexed (exec st c).
Proof.
  intros Hfresh Hst. destruct c; unfold exec.
  - destruct Hfresh as (? & ? & ?). by apply rooms_indexed_create.
  - unfold ChatRoomRepository.joinChatRoom.
    destruct (ChatRoomRepository.getChatRoom st chatRoomId) as [room|]; [|done].
    destruct (negb _); [done|]. case_bool_decide; [done|].
    by apply rooms_indexed_hSet_room.
  - unfold ChatRoomRepository.leaveChatRoom.
    destruct (ChatRoomRepository.getChatRoom st chatRoomId) as [room|]; [|done].
    case_bool_decide.
    + by apply rooms_indexed_deactivate.
    + by apply rooms_indexed_hSet_room.
  - by apply rooms_indexed_hSet_room.
  - by apply rooms_indexed_deactivate.
  - by apply rooms_indexed_delete.
  - apply (rooms_indexed_frame st); [| |done];
      unfold MessageRepository.createMessage; by destruct (_ <? _).
  - apply (rooms_indexed_frame st); [| |done].
    + unfold UserRepository.addUserToActiveChat, UserRepository.updateProfileActiveChats.
      by destruct UserRepository.profileExists.
    + intros tag.
      unfold UserRepository.addUserToActiveChat, UserRepository.updateProfileActiveChats.
      destruct UserRepository.profileExists;
        rewrite ?(hKeys_frame (Redis.hSet_flag st _ _) (Redis.hSet_profile _ _ _)) by done;
        rewrite hKeys_hSet_flag;
        by rewrite decide_False by apply KeyFacts.userActiveChats_not_interest.
  - apply (rooms_indexed_frame st); [| |done].
    + unfold UserRepository.removeUserFromActiveChat,
        UserRepository.updateProfileActiveChats.
      by destruct UserRepository.profileExists.
    + intros tag.
      unfold UserRepository.removeUserFromActiveChat,
        UserRepository.updateProfileActiveChats.
      destruct UserRepository.profileExists;
        rewrite ?(hKeys_frame (Redis.hDel st _ _) (Redis.hSet_profile _ _ _)) by done;
        rewrite hKeys_hDel;
        by rewrite decide_False by apply KeyFacts.userActiveChats_not_interest.
Qed.

Lemma rooms_indexed_empty : rooms_indexed emptyStore.
Proof.
  split.
  - intros id room. unfold ChatRoomRepository.getChatRoom, Redis.hGetAll_room. simpl.
    by rewrite lookup_empty.
  - intros tag id. unfold Redis.hKeys. simpl. rewrite lookup_empty. simpl.
    intros Hin. by apply elem_of_nil in Hin.
Qed.


End IndexInvariant.

(** ** Sorting and discovery *)

Module SortFacts.

Section Sort.
Context {A : Type} (cmp : A → A → Z).

Lemma sort_insert_perm (x : A) (l : list A) : sort_insert cmp x l ≡ₚ x :: l.
Proof.
  induction l as [|y l IH]; simpl; [done|].
  destruct (cmp x y <=? 0); [done|]. rewrite IH. apply Permutation_swap.
Qed.

Lemma sortBy_perm (l : list A) : sortBy cmp l ≡ₚ l.
Proof.
  induction l as [|x l IH]; simpl; [done|].
  by rewrite sort_insert_perm, IH.
Qed.

Lemma elem_of_sortBy (x : A) (l : list A) : x ∈ sortBy cmp l ↔ x ∈ l.
Proof. by rewrite sortBy_perm. Qed.

Hypothesis cmp_total : ∀ a b, cmp a b ≤ 0 ∨ cmp b a ≤ 0.
Hypothesis cmp_trans : ∀ a b c, cmp a b ≤ 0 → cmp b c ≤ 0 → cmp a c ≤ 0.

Lemma sort_insert_sorted (x : A) (l : list A) :
  StronglySorted (λ a b, cmp a b ≤ 0) l →
  StronglySorted (λ a b, cmp a b ≤ 0) (sort_insert cmp x l).
Proof.
  induction 1 as [|y l Hs IH Hy]; simpl; [repeat constructor|].
  destruct (cmp x y <=? 0) eqn:E.
  - apply Z.leb_le in E. constructor; [by constructor|].
    constructor; [done|]. eapply Forall_impl; [exact Hy|].
    intros z Hz. by eapply cmp_trans.
  - apply Z.leb_gt in E. constructor; [done|].
    rewrite sort_insert_perm. constructor; [|done].
    destruct (cmp_total x y); lia.
Qed.

Lemma sortBy_sorted (l : list A) : StronglySorted (λ a b, cmp a b ≤ 0) (sortBy cmp l).
Proof.
  induction l as [|x l IH]; simpl; [constructor|]. by apply sort_insert_sorted.
Qed.

End Sort.

Lemma byRelevance_ranked interests a b :
  ChatRoomRepository.byRelevance interests a b ≤ 0 ↔ ranked_before interests a b.
Proof.
  unfold ChatRoomRepository.byRelevance, ranked_before.
  case_bool_decide; lia.
Qed.

Lemma byLastActivity_ranked a b :
  ChatRoomRepository.byLastActivity a b ≤ 0 ↔ ranked_before [] a b.
Proof.
  unfold ChatRoomRepository.byLastActivity, ranked_before, ChatRoomRepository.matches.
  rewrite !(ZSetFacts.filter_none _ _) by (intros x _ Hx; by apply elem_of_nil in Hx).
  simpl. lia.
Qed.

Lemma sorted_iff {A} (R R' : relation A) (l : list A) :
  (∀ a b, R a b ↔ R' a b) → StronglySorted R l → StronglySorted R' l.
Proof.
  intros HR. induction 1 as [|x l Hs IH Hx]; constructor; [done|].
  eapply Forall_impl; [exact Hx|]. intros y. apply HR.
Qed.

(** Both listings of rooms are ranked. *)
Lemma sortBy_byRelevance interests l :
  StronglySorted (ranked_before interests)
    (sortBy (ChatRoomRepository.byRelevance interests) l).
Proof.
  eapply sorted_iff; [apply byRelevance_ranked|]. apply sortBy_sorted.
  - intros a b. rewrite !byRelevance_ranked. unfold ranked_before. lia.
  - intros a b c. rewrite !byRelevance_ranked. unfold ranked_before. lia.
Qed.

Lemma sortBy_byLastActivity l :
  StronglySorted (ranked_before []) (sortBy ChatRoomRepository.byLastActivity l).
Proof.
  eapply sorted_iff; [apply byLastActivity_ranked|]. apply sortBy_sorted.
  - intros a b. unfold ChatRoomRepository.byLastActivity. lia.
  - intros a b c. unfold ChatRoomRepository.byLastActivity. lia.
Qed.

Lemma elem_of_activeRoomsOf st ids room :
  room ∈ ChatRoomRepository.activeRoomsOf st ids
  ↔ ∃ id, id ∈ ids ∧ ChatRoomRepository.getChatRoom st id = Some room ∧
          ChatRoom.isActive room = true.
Proof.
  unfold ChatRoomRepository.activeRoomsOf. rewrite list_elem_of_omap. split.
  - intros (id & Hid & E). exists id. split; [done|].
    destruct (ChatRoomRepository.getChatRoom st id) as [r|]; [|done].
    destruct (ChatRoom.isActive r) eqn:Ha; [|done]. by injection E as <-.
  - intros (id & Hid & E & Ha). exists id. split; [done|]. by rewrite E, Ha.
Qed.

Lemma set_add_spec acc id :
  (∀ x, x ∈ ChatRoomRepository.set_add acc id ↔ x ∈ acc ∨ x = id) ∧
  (NoDup acc → NoDup (ChatRoomRepository.set_add acc id)).
Proof.
  unfold ChatRoomRepository.set_add. case_bool_decide as Hin; split.
  - intros x. split; [by left|]. by intros [?| ->].
  - done.
  - intros x. by rewrite elem_of_app, list_elem_of_singleton.
  - intros Hnd. apply NoDup_app. split; [done|]. split; [|apply NoDup_singleton].
    intros x Hx Hx'. apply list_elem_of_singleton in Hx' as ->. done.
Qed.

Lemma fold_set_add l : ∀ acc,
  (∀ x, x ∈ fold_left ChatRoomRepository.set_add l acc ↔ x ∈ acc ∨ x ∈ l) ∧
  (NoDup acc → NoDup (fold_left ChatRoomRepository.set_add l acc)).
Proof.
  induction l as [|id l IH]; intros acc; simpl.
  - split; [|done]. intros x. split; [by left|]. intros [?|Hx]; [done|].
    by apply elem_of_nil in Hx.
  - destruct (IH (ChatRoomRepository.set_add acc id)) as [Hin Hnd].
    destruct (set_add_spec acc id) as [Hin' Hnd']. split.
    + intros x. rewrite Hin, Hin', elem_of_cons. tauto.
    + intros H. by apply Hnd, Hnd'.
Qed.

(** The ids collected from the indexes of the given interests: each id of
    one of the indexes, once. *)
Lemma collectIds_spec st interests :
  NoDup (ChatRoomRepository.collectIds st interests) ∧
  ∀ id, id ∈ ChatRoomRepository.collectIds st interests
        ↔ ∃ tag, tag ∈ interests ∧
                 id ∈ Redis.hKeys st (REDIS_KEYS.interestChatRooms tag).
Proof.
  unfold ChatRoomRepository.collectIds.
  assert (H : ∀ acc,
    (NoDup acc →
     NoDup (fold_left
       (λ chatRoomIds interest,
          fold_left ChatRoomRepository.set_add
            (Redis.hKeys st (REDIS_KEYS.interestChatRooms interest)) chatRoomIds)
       interests acc)) ∧
    ∀ id, id ∈ fold_left
       (λ chatRoomIds interest,
          fold_left ChatRoomRepository.set_add
            (Redis.hKeys st (REDIS_KEYS.interestChatRooms interest)) chatRoomIds)
       interests acc
     ↔ id ∈ acc ∨ ∃ tag, tag ∈ interests ∧
                         id ∈ Redis.hKeys st (REDIS_KEYS.interestChatRooms tag)).
  { induction interests as [|i interests IH]; intros acc; simpl.
    - split; [done|]. intros id. split; [by left|].
      intros [?|(tag & Htag & _)]; [done|]. by apply elem_of_nil in Htag.
    - destruct (IH (fold_left ChatRoomRepository.set_add
                      (Redis.hKeys st (REDIS_KEYS.interestChatRooms i)) acc))
        as [Hnd Hin].
      destruct (fold_set_add (Redis.hKeys st (REDIS_KEYS.interestChatRooms i)) acc)
        as [Hin' Hnd'].
      split; [intros Hacc; by apply Hnd, Hnd'|].
      intros id. rewrite Hin, Hin'. split.
      + intros [[?|?]|(tag & Htag & ?)]; [by left| |].
        * right. exists i. split; [by left|done].
        * right. exists tag. split; [by right|done].
      + intros [?|(tag & Htag & ?)]; [by left; left|].
        apply elem_of_cons in Htag as [->|Htag]; [by left; right|].
        right. by exists tag. }
  destruct (H []) as [Hnd Hin]. split; [apply Hnd, NoDup_nil_2|].
  intros id. rewrite Hin. split; [|by right].
  intros [Hx|?]; [|done]. by apply elem_of_nil in Hx.
Qed.

End SortFacts.

(** ** Reading the log *)

Module PageFacts.
Import ZSetFacts MessageFacts.

Section Sorted.
Context {A : Type} (R : relation A).

Lemma sorted_sublist (l1 l2 : list A) :
  l1 `sublist_of` l2 → StronglySorted R l2 → StronglySorted R l1.
Proof.
  induction 1 as [|x l1 l2 Hsub IH|x l1 l2 Hsub IH]; intros Hs.
  - constructor.
  - apply StronglySorted_inv in Hs as [Hs Hx]. constructor; [by apply IH|].
    rewrite Forall_forall in Hx |- *. intros y Hy. apply Hx.
    by eapply elem_of_sublist.
  - apply StronglySorted_inv in Hs as [Hs _]. by apply IH.
Qed.

End Sorted.

(** A cursor printed from a timestamp is read as the exclusive bound at that
    timestamp. *)
Lemma maxScore_printed (t : Z) :
  MessageRepository.maxScore (Some (Text.toString t)) = Excl t.
Proof.
  unfold MessageRepository.maxScore.
  pose proof (TextFacts.toString_nonempty t) as Hne.
  pose proof (TextFacts.parseInt_toString t) as Hp.
  destruct (Text.toString t); [done|]. by rewrite Hp.
Qed.


End PageFacts.

(** ** Reading through the client *)

Module ClientFacts.

Lemma skip_ws_length (s : string) :
  (String.length (Json.skip_ws s) ≤ String.length s)%nat.
Proof.
  induction s as [|c s IH]; simpl; [lia|]. destruct (Json.is_ws c); simpl; lia.
Qed.

Lemma skip_length (n : nat) (s : string) :
  (n ≤ String.length s)%nat →
  (String.length (Json.skip n s) + n = String.length s)%nat.
Proof.
  revert s. induction n as [|n IH]; intros s Hn; [destruct s; simpl; lia|].
  destruct s as [|c s]; simpl in *; [lia|]. specialize (IH s). lia.
Qed.

Lemma prefix_length (p s : string) :
  String.prefix p s = true → (String.length p ≤ String.length s)%nat.
Proof.
  revert s. induction p as [|c p IH]; intros s H; simpl; [lia|].
  destruct s as [|d s]; simpl in H; [done|].
  destruct (Ascii.ascii_dec c d); [|done]. specialize (IH s H). simpl. lia.
Qed.

Lemma literal_length (word s rest : string) :
  word ≠ EmptyString → Json.literal word s = Some rest →
  (String.length rest < String.length s)%nat.
Proof.
  unfold Json.literal. intros Hw H.
  destruct (String.prefix word s) eqn:E; [|done]. injection H as <-.
  pose proof (skip_length _ _ (prefix_length _ _ E)).
  destruct word; [done|]. simpl in *. lia.
Qed.

Lemma digits_length (s : string) :
  (String.length (Json.digits s).2 + String.length (Json.digits s).1
   = String.length s)%nat.
Proof.
  induction s as [|c s IH]; simpl; [done|].
  destruct (Json.is_digit c); [|simpl; lia].
  destruct (Json.digits s) as [run rest]. simpl in *. lia.
Qed.

Lemma fraction_length (s frac rest : string) :
  Json.fraction s = Some (frac, rest) → (String.length rest ≤ String.length s)%nat.
Proof.
  unfold Json.fraction. intros H.
  destruct s as [|c r]; [injection H as <- <-; lia|].
  destruct (Ascii.ascii_dec c "."%char) as [->|Hc].
  - pose proof (digits_length r) as Hd.
    destruct (Json.digits r) as [[|d run] rest']; [done|].
    injection H as <- <-. simpl in *. lia.
  - assert (H' : Some (EmptyString, String c r) = Some (frac, rest)).
    { rewrite <- H. clear H.
      destruct c as [[] [] [] [] [] [] [] []]; try reflexivity. by destruct Hc. }
    injection H' as <- <-. lia.
Qed.

Lemma exponent_length (s exp rest : string) :
  Json.exponent s = Some (exp, rest) → (String.length rest ≤ String.length s)%nat.
Proof.
  unfold Json.exponent. intros H.
  destruct s as [|c r]; [injection H as <- <-; lia|].
  destruct (_ || _); [|injection H as <- <-; lia].
  assert (Hr : ∃ sign r', (String.length r' ≤ String.length r)%nat ∧
            match Json.digits r' with
            | (EmptyString, _) => None
            | (run, rest) => Some (String c (sign ++ run), rest)
            end = Some (exp, rest)).
  { destruct r as [|d r']; [exists EmptyString, EmptyString; by split|].
    destruct (Ascii.ascii_dec d "+"%char) as [->|Hp]; [exists "+", r'; simpl; split; [lia|done]|].
    destruct (Ascii.ascii_dec d "-"%char) as [->|Hm]; [exists "-", r'; simpl; split; [lia|done]|].
    exists EmptyString, (String d r'). split; [lia|]. rewrite <- H. clear H.
    destruct d as [[] [] [] [] [] [] [] []]; try reflexivity; by first [destruct Hp|destruct Hm]. }
  destruct Hr as (sign & r' & Hlen & Hr).
  pose proof (digits_length r') as Hd.
  destruct (Json.digits r') as [[|d run] rest']; [done|].
  injection Hr as _ <-. simpl in *. lia.
Qed.

Lemma number_length (s n rest : string) :
  Json.number s = Some (n, rest) → (String.length rest < String.length s)%nat.
Proof.
  unfold Json.number. intros H.
  assert (Hs : ∃ sign s1, (String.length s1 ≤ String.length s)%nat ∧
            match
              match s1 with
              | String "0" r => Some ("0", r)
              | _ =>
                  match Json.digits s1 with
                  | (EmptyString, _) => None
                  | (run, rest) => Some (run, rest)
                  end
              end
            with
            | None => None
            | Some (int, s2) =>
                match Json.fraction s2 with
                | None => None
                | Some (frac, s3) =>
                    match Json.exponent s3 with
                    | None => None
                    | Some (exp, s4) => Some (sign ++ int ++ frac ++ exp, s4)
                    end
                end
            end = Some (n, rest)).
  { destruct s as [|c r]; [exists EmptyString, EmptyString; by split|].
    destruct (Ascii.ascii_dec c "-"%char) as [->|Hm]; [exists "-", r; simpl; split; [lia|done]|].
    exists EmptyString, (String c r). split; [lia|]. rewrite <- H. clear H.
    destruct c as [[] [] [] [] [] [] [] []]; try reflexivity; by destruct Hm. }
  clear H. destruct Hs as (sign & s1 & Hlen & H).
  assert (Hint : ∀ int s2,
    match s1 with
    | String "0" r => Some ("0", r)
    | _ =>
        match Json.digits s1 with
        | (EmptyString, _) => None
        | (run, rest) => Some (run, rest)
        end
    end = Some (int, s2) → (String.length s2 < String.length s1)%nat).
  { intros int s2 Hi. destruct s1 as [|c r]; [done|].
    destruct (Ascii.ascii_dec c "0"%char) as [->|Hz]; [injection Hi as _ <-; simpl; lia|].
    assert (Hi' : match Json.digits (String c r) with
                  | (EmptyString, _) => None
                  | (run, rest) => Some (run, rest)
                  end = Some (int, s2)).
    { rewrite <- Hi. clear Hi.
      destruct c as [[] [] [] [] [] [] [] []]; try reflexivity; by destruct Hz. }
    pose proof (digits_length (String c r)) as Hd.
    destruct (Json.digits (String c r)) as [[|d run] rest']; [done|].
    injection Hi' as _ <-. simpl in *. lia. }
  destruct (match s1 with String "0" r => _ | _ => _ end) as [[int s2]|]; [|done].
  specialize (Hint int s2 eq_refl).
  destruct (Json.fraction s2) as [[frac s3]|] eqn:Ef; [|done].
  apply fraction_length in Ef.
  destruct (Json.exponent s3) as [[exp s4]|] eqn:Ee; [|done].
  apply exponent_length in Ee. injection H as _ <-. lia.
Qed.

Lemma chars_length : ∀ (s t rest : string),
  Json.chars s = Some (t, rest) → (String.length rest < String.length s)%nat.
Proof.
  fix IH 1. intros s t rest H. destruct s as [|c r]; [done|]. simpl in H.
  destruct (Ascii.eqb c Text.dquote); [injection H as _ <-; simpl; lia|].
  destruct (Ascii.eqb c "\").
  - destruct r as [|e r']; [done|].
    destruct (Ascii.eqb e "u").
    + destruct r' as [|h1 [|h2 [|h3 [|h4 r'']]]]; try done.
      destruct (Json.hex_value h1), (Json.hex_value h2), (Json.hex_value h3),
        (Json.hex_value h4); try done.
      destruct (Json.chars r'') as [[t' rest']|] eqn:E; [|done].
      apply IH in E. injection H as _ <-. simpl. lia.
    + destruct (Json.escaped e); [|done].
      destruct (Json.chars r') as [[t' rest']|] eqn:E; [|done].
      apply IH in E. injection H as _ <-. simpl. lia.
  - destruct (N_of_ascii c <? 32)%N; [done|].
    destruct (Json.chars r) as [[t' rest']|] eqn:E; [|done].
    apply IH in E. injection H as _ <-. simpl. lia.
Qed.

Lemma after_length (c : ascii) (s rest : string) :
  Json.after c s = Some rest → (String.length rest < String.length s)%nat.
Proof.
  unfold Json.after. intros H. pose proof (skip_ws_length s) as Hs.
  destruct (Json.skip_ws s) as [|d r]; [done|].
  destruct (Ascii.eqb d c); [|done]. injection H as <-. simpl in Hs. lia.
Qed.

(** A reading makes progress, and it ends within the steps that [read]
    grants. *)
Lemma readings_end (fuel : nat) :
  (∀ s, (2 * String.length s < fuel)%nat →
        Json.element fuel s ≠ Json.OutOfFuel) ∧
  (∀ s, (2 * String.length s + 1 < fuel)%nat →
        Json.elements fuel s ≠ Json.OutOfFuel) ∧
  (∀ s, (2 * String.length s + 1 < fuel)%nat →
        Json.members fuel s ≠ Json.OutOfFuel) ∧
  (∀ s v rest, Json.element fuel s = Json.Read v rest →
               (String.length rest < String.length s)%nat) ∧
  (∀ s l rest, Json.elements fuel s = Json.Read l rest →
               (String.length rest < String.length s)%nat) ∧
  (∀ s l rest, Json.members fuel s = Json.Read l rest →
               (String.length rest < String.length s)%nat).
Proof.
  induction fuel as [|fuel (IH1 & IH2 & IH3 & IH4 & IH5 & IH6)].
  { repeat split; intros; first [lia|done]. }
  assert (H4 : ∀ s v rest, Json.element (S fuel) s = Json.Read v rest →
                           (String.length rest < String.length s)%nat).
  { intros s v rest. simpl. pose proof (skip_ws_length s) as Hs.
    destruct (Json.skip_ws s) as [|c r]; [done|]. simpl in Hs.
    destruct (Ascii.eqb c Text.dquote).
    { destruct (Json.chars r) as [[t rest']|] eqn:E; [|done].
      apply chars_length in E. intros [= _ <-]. lia. }
    destruct (Ascii.eqb c "[").
    { destruct (Json.after "]" r) as [rest'|] eqn:E.
      - apply after_length in E. intros [= _ <-]. lia.
      - destruct (Json.elements fuel r) as [l rest'| |] eqn:E'; [|done|done].
        apply IH5 in E'. intros [= _ <-]. lia. }
    destruct (Ascii.eqb c "{").
    { destruct (Json.after "}" r) as [rest'|] eqn:E.
      - apply after_length in E. intros [= _ <-]. lia.
      - destruct (Json.members fuel r) as [l rest'| |] eqn:E'; [|done|done].
        apply IH6 in E'. intros [= _ <-]. lia. }
    destruct (Json.literal "null" (String c r)) as [r1|] eqn:E1.
    { apply literal_length in E1; [|done]. intros [= _ <-]. simpl in E1. lia. }
    destruct (Json.literal "true" (String c r)) as [r2|] eqn:E2.
    { apply literal_length in E2; [|done]. intros [= _ <-]. simpl in E2. lia. }
    destruct (Json.literal "false" (String c r)) as [r3|] eqn:E3.
    { apply literal_length in E3; [|done]. intros [= _ <-]. simpl in E3. lia. }
    destruct (Json.number (String c r)) as [[n rest']|] eqn:E; [|done].
    apply number_length in E. intros [= _ <-]. simpl in E. lia. }
  assert (H5 : ∀ s l rest, Json.elements (S fuel) s = Json.Read l rest →
                           (String.length rest < String.length s)%nat).
  { intros s l rest. simpl.
    destruct (Json.element fuel s) as [v r| |] eqn:E; [|done|done].
    apply IH4 in E.
    destruct (Json.after "]" r) as [r1|] eqn:E1.
    { apply after_length in E1. intros [= _ <-]. lia. }
    destruct (Json.after "," r) as [r2|] eqn:E2; [|done].
    apply after_length in E2.
    destruct (Json.elements fuel r2) as [l' r3| |] eqn:E3; [|done|done].
    apply IH5 in E3. intros [= _ <-]. lia. }
  assert (H6 : ∀ s l rest, Json.members (S fuel) s = Json.Read l rest →
                           (String.length rest < String.length s)%nat).
  { intros s l rest. simpl.
    destruct (Json.after Text.dquote s) as [r|] eqn:E0; [|done].
    apply after_length in E0.
    destruct (Json.chars r) as [[name r1]|] eqn:E1; [|done].
    apply chars_length in E1.
    destruct (Json.after ":" r1) as [r2|] eqn:E2; [|done].
    apply after_length in E2.
    destruct (Json.element fuel r2) as [v r3| |] eqn:E3; [|done|done].
    apply IH4 in E3.
    destruct (Json.after "}" r3) as [r4|] eqn:E4.
    { apply after_length in E4. intros [= _ <-]. lia. }
    destruct (Json.after "," r3) as [r5|] eqn:E5; [|done].
    apply after_length in E5.
    destruct (Json.members fuel r5) as [l' r6| |] eqn:E6; [|done|done].
    apply IH6 in E6. intros [= _ <-]. lia. }
  split; [|split; [|split; [|by repeat split]]].
  - intros s Hf. simpl. pose proof (skip_ws_length s) as Hs.
    destruct (Json.skip_ws s) as [|c r]; [done|]. simpl in Hs.
    destruct (Ascii.eqb c Text.dquote); [by destruct (Json.chars r) as [[]|]|].
    destruct (Ascii.eqb c "[").
    { destruct (Json.after "]" r); [done|].
      assert (Hr : Json.elements fuel r ≠ Json.OutOfFuel) by (apply IH2; lia).
      by destruct (Json.elements fuel r). }
    destruct (Ascii.eqb c "{").
    { destruct (Json.after "}" r); [done|].
      assert (Hr : Json.members fuel r ≠ Json.OutOfFuel) by (apply IH3; lia).
      by destruct (Json.members fuel r). }
    destruct (Json.literal "null" _); [done|].
    destruct (Json.literal "true" _); [done|].
    destruct (Json.literal "false" _); [done|].
    by destruct (Json.number _) as [[]|].
  - intros s Hf. simpl.
    assert (Hr : Json.element fuel s ≠ Json.OutOfFuel) by (apply IH1; lia).
    destruct (Json.element fuel s) as [v r| |] eqn:E; [|done|done].
    apply IH4 in E.
    destruct (Json.after "]" r); [done|].
    destruct (Json.after "," r) as [r2|] eqn:E2; [|done].
    apply after_length in E2.
    assert (Hr2 : Json.elements fuel r2 ≠ Json.OutOfFuel) by (apply IH2; lia).
    by destruct (Json.elements fuel r2).
  - intros s Hf. simpl.
    destruct (Json.after Text.dquote s) as [r|] eqn:E0; [|done].
    apply after_length in E0.
    destruct (Json.chars r) as [[name r1]|] eqn:E1; [|done].
    apply chars_length in E1.
    destruct (Json.after ":" r1) as [r2|] eqn:E2; [|done].
    apply after_length in E2.
    assert (Hr : Json.element fuel r2 ≠ Json.OutOfFuel) by (apply IH1; lia).
    destruct (Json.element fuel r2) as [v r3| |] eqn:E3; [|done|done].
    apply IH4 in E3.
    destruct (Json.after "}" r3); [done|].
    destruct (Json.after "," r3) as [r5|] eqn:E5; [|done].
    apply after_length in E5.
    assert (Hr5 : Json.members fuel r5 ≠ Json.OutOfFuel) by (apply IH3; lia).
    by destruct (Json.members fuel r5).
Qed.

(** [JSON.parse] always ends: with a value or with its SyntaxError. *)
Lemma read_ends (text : string) : Json.read text ≠ Json.OutOfFuel.
Proof.
  unfold Json.read.
  destruct (readings_end (2 * String.length text + 2)) as (H & _).
  specialize (H text ltac:(lia)).
  destruct (Json.element _ text) as [v rest| |]; [|done|done].
  by destruct (Json.skip_ws rest).
Qed.

(** An entry of a sorted set is not read as a message: the text that
    [JSON.parse] makes of the object is not JSON. *)
Lemma entry_not_parsed (data : Redis.Entry) :
  Json.read (MessageRepository.entry_text data) = Json.SyntaxError ∧
  MessageRepository.parse_entry data = None.
Proof. split; vm_compute; reflexivity. Qed.

Lemma getMessages_nil st room limit before :
  MessageRepository.getMessages st room limit before = [].
Proof.
  unfold MessageRepository.getMessages.
  pose proof (λ data, proj2 (entry_not_parsed data)) as Hf. revert Hf.
  generalize MessageRepository.parse_entry. intros f Hf.
  induction (Redis.zRange_byScore _ _ _ _ _ _) as [|data l IH]; [done|].
  simpl. by rewrite Hf.
Qed.

Lemma deleteMessage_scan_nil st key messageId (l : list Redis.Entry) :
  MessageRepository.deleteMessage_scan st key messageId l = (false, st).
Proof.
  induction l as [|data l IH]; [done|].
  cbn [MessageRepository.deleteMessage_scan].
  by rewrite (proj2 (entry_not_parsed data)).
Qed.

Lemma deleteMessage_unchanged st room messageId :
  MessageRepository.deleteMessage st room messageId = (false, st).
Proof. apply deleteMessage_scan_nil. Qed.

Lemma rank_range_all {A} (l : list A) : Redis.rank_range l 0 (-1) = l.
Proof.
  unfold Redis.rank_range, Redis.rank_index.
  replace (0 <? 0) with false by done. replace (-1 <? 0) with true by done.
  rewrite Z.max_id.
  destruct (Z.min (Z.of_nat (length l) - 1) (Z.of_nat (length l) + -1) <? 0) eqn:E.
  - apply Z.ltb_lt in E. destruct l; [done|simpl in E; lia].
  - change (Z.to_nat 0) with 0%nat. rewrite drop_0. apply take_ge.
    apply Z.ltb_ge in E. lia.
Qed.

(** The whole range by rank: the entries of the log, in its order. *)
Lemma zRange_all st key :
  Redis.zRange st key 0 (-1) = Redis.entry_of <$> Redis.zGet st key.
Proof. unfold Redis.zRange. by rewrite rank_range_all. Qed.

End ClientFacts.


(** * The claims *)

(** C1. After every call of [createMessage] the log of the room holds at most
    100 messages: it is the log with the new entry, cut in the same call to
    its 100 newest entries; and so the log of every room holds at most 100
    messages after any history of calls.  105 messages posted into an empty room leave exactly 100: the
    log without its 5 lowest-ranked (oldest) entries; when the posts carry
    increasing timestamps these are the last 100 posts, in the order
    posted. *)
Theorem createMessage_retention :
  (∀ st id now room userId username content,
      let st' := (MessageRepository.createMessage st id now room userId username
                    content).2 in
      MessageRepository.getMessageCount st' room ≤ APP_CONSTANTS.MESSAGE_HISTORY_LIMIT ∧
      messageLog st' room
      = newest 100 (Redis.zAdd_entries (messageLog st room)
                      (Message.mk id room userId username content now) now)) ∧
  (∀ calls room,
      MessageRepository.getMessageCount (run calls emptyStore) room
      ≤ APP_CONSTANTS.MESSAGE_HISTORY_LIMIT) ∧
  (∀ st room posts,
      messageLog st room = [] →
      length posts = 105%nat →
      NoDup (map (Post.text room) posts) →
      let st' := postAll st room posts in
      MessageRepository.getMessageCount st' room = 100 ∧
      messageLog st' room = drop 5 (ranked (map (Post.entry room) posts)) ∧
      (StronglySorted (λ p q, Post.now p < Post.now q) posts →
       messageLog st' room = drop 5 (map (Post.entry room) posts))).
Proof.
  split; [|split].
  - intros st id now room userId username content st'. split.
    + apply MessageFacts.createMessage_count.
    + apply MessageFacts.createMessage_log.
  - intros calls room.
    pose proof (LogInvariant.logs_ok_run calls _ LogInvariant.logs_ok_empty
                  (REDIS_KEYS.chatRoomMessages room)) as [_ _ _ Hb].
    unfold MessageRepository.getMessageCount, Redis.zCard,
      APP_CONSTANTS.MESSAGE_HISTORY_LIMIT. lia.
  - intros st room posts Hempty Hlen Hnd st'.
    assert (Hlog : messageLog st' room = drop 5 (ranked (map (Post.entry room) posts))).
    { unfold st'. rewrite MessageFacts.postAll_log by done. unfold newest.
      rewrite (Permutation_length (MessageFacts.ranked_perm _)), length_map, Hlen.
      reflexivity. }
    split; [|split].
    + unfold MessageRepository.getMessageCount, Redis.zCard.
      change (Redis.zGet st' (REDIS_KEYS.chatRoomMessages room)) with (messageLog st' room).
      rewrite Hlog, length_drop,
        (Permutation_length (MessageFacts.ranked_perm _)), length_map, Hlen.
      reflexivity.
    + exact Hlog.
    + intros Hinc. rewrite Hlog. f_equal. apply MessageFacts.ranked_increasing.
      clear -Hinc. induction Hinc as [|p l Hs IH Hp]; simpl; constructor; [done|].
      apply Forall_forall. intros e He.
      apply list_elem_of_fmap in He as (q & -> & Hq).
      rewrite Forall_forall in Hp. by apply Hp.
Qed.

Lemma createMessage_retention_witness :
  messageLog (postAll emptyStore "general" Sample.posts105) "general"
  = drop 5 (map (Post.entry "general") Sample.posts105).
Proof.
  destruct createMessage_retention as (_ & _ & H).
  destruct (H emptyStore "general" Sample.posts105) as (_ & _ & Hinc).
  - reflexivity.
  - reflexivity.
  - apply (bool_decide_unpack _). vm_compute. exact I.
  - apply Hinc. apply Sorted_StronglySorted.
    + intros p q r. lia.
    + unfold Sample.posts105. simpl.
      repeat (constructor; [|try constructor; unfold Sample.post, Sample.t0; simpl; lia]).
      constructor.
Defined.

(** C2 (the failing input). [getMessages] returns no message, whatever the
    room holds: every entry that [zRange] resolves to is an object
    [{ member, score }], [JSON.parse] throws on it, and the loop skips it.
    In the book club with three posts the log holds three messages, and the
    page of 50 is empty, also in the answer of the request handler to a
    participant; so is every page below a cursor, and the stored messages
    are on no page. *)
Theorem getMessages_returns_no_stored_message :
  (∀ st room limit before, MessageRepository.getMessages st room limit before = []) ∧
  MessageRepository.getMessageCount Sample.chatty Sample.room_id = 3 ∧
  MessageRepository.getMessages Sample.chatty Sample.room_id (Some 50) None = [] ∧
  response (Handlers.getMessages Sample.chatty Sample.u1 Sample.room_id (Some 50) None)
  = Success 200 [].
Proof.
  split; [apply ClientFacts.getMessages_nil|].
  split; [vm_compute; reflexivity|].
  split; [apply ClientFacts.getMessages_nil|].
  unfold Handlers.getMessages. rewrite ClientFacts.getMessages_nil.
  vm_compute. reflexivity.
Qed.





(** C5 (counterexample). With an empty list of tags the result is not drawn
    from the tag indexes: [getChatRoomsByInterests] lists every active
    room. *)
Lemma no_tags_lists_every_room :
  ¬ from_tag_indexes (run Sample.two_rooms emptyStore) [].
Proof.
  intros H.
  destruct (ChatRoomRepository.getChatRoomsByInterests (run Sample.two_rooms emptyStore) [])
    as [|room l] eqn:E; [vm_compute in E; discriminate|].
  destruct (H room) as (tag & _ & Htag & _).
  - rewrite E. by left.
  - by apply elem_of_nil in Htag.
Qed.

(** C5 (amended). For a non-empty list of tags [getChatRoomsByInterests]
    returns the active rooms among those named in the indexes of the given
    tags, each id fetched once; for an empty list it returns
    [getActiveChatRooms], every active room.  In both cases every room
    returned is active and the result is ranked: a room that matches more of
    the tags comes before one that matches fewer, and rooms that match as
    many come by descending [lastActivity]. *)
Theorem getChatRoomsByInterests_ranking :
  ∀ st interests,
    let result := ChatRoomRepository.getChatRoomsByInterests st interests in
    (interests = [] → result = ChatRoomRepository.getActiveChatRooms st) ∧
    (interests ≠ [] →
     ∃ ids,
       NoDup ids ∧
       (∀ id, id ∈ ids ↔ ∃ tag, tag ∈ interests ∧
                                id ∈ Redis.hKeys st (REDIS_KEYS.interestChatRooms tag)) ∧
       result ≡ₚ ChatRoomRepository.activeRoomsOf st ids) ∧
    (∀ room, room ∈ result → ChatRoom.isActive room = true) ∧
    StronglySorted (ranked_before interests) result ∧
    (∀ (i j : nat) a b,
        result !! i = Some a → result !! j = Some b →
        ChatRoomRepository.matches interests b < ChatRoomRepository.matches interests a →
        (i < j)%nat).
Proof.
  intros st interests result.
  assert (Hsorted : StronglySorted (ranked_before interests) result).
  { unfold result, ChatRoomRepository.getChatRoomsByInterests.
    destruct interests as [|i interests].
    - apply SortFacts.sortBy_byLastActivity.
    - apply SortFacts.sortBy_byRelevance. }
  split; [|split; [|split; [|split]]].
  - by intros ->.
  - intros Hne. exists (ChatRoomRepository.collectIds st interests).
    destruct (SortFacts.collectIds_spec st interests) as [Hnd Hin].
    split; [done|]. split; [done|].
    unfold result, ChatRoomRepository.getChatRoomsByInterests.
    destruct interests; [done|]. apply SortFacts.sortBy_perm.
  - intros room Hin. unfold result, ChatRoomRepository.getChatRoomsByInterests in Hin.
    destruct interests; [unfold ChatRoomRepository.getActiveChatRooms in Hin|];
      apply SortFacts.elem_of_sortBy, SortFacts.elem_of_activeRoomsOf in Hin
        as (id & _ & _ & Ha); exact Ha.
  - exact Hsorted.
  - intros i j a b Ha Hb Hmore.
    destruct (decide (i < j)%nat) as [|Hge]; [done|]. exfalso.
    destruct (decide (i = j)) as [->|Hne]; [rewrite Ha in Hb; injection Hb as ->; lia|].
    assert (Hji : (j < i)%nat) by lia.
    clear Hge Hne. revert i j Ha Hb Hji.
    induction Hsorted as [|x l Hs IH Hx]; intros i j Ha Hb Hji; [done|].
    destruct j as [|j]; destruct i as [|i]; try lia; simpl in *.
    + injection Hb as ->. rewrite Forall_forall in Hx.
      assert (Hr : ranked_before interests b a)
        by (apply Hx; by eapply list_elem_of_lookup_2).
      unfold ranked_before in Hr. lia.
    + apply (IH i j); [done|done|lia].
Qed.

Lemma getChatRoomsByInterests_ranking_witness :
  let st := run Sample.two_rooms emptyStore in
  let result := ChatRoomRepository.getChatRoomsByInterests st ["music"; "gaming"] in
  (ChatRoom.id <$> result) = [Sample.room_A; Sample.room_B] ∧
  (∃ ids, NoDup ids ∧ result ≡ₚ ChatRoomRepository.activeRoomsOf st ids) ∧
  (∀ a b, result !! 0%nat = Some a → result !! 1%nat = Some b →
          ranked_before ["music"; "gaming"] a b).
Proof.
  intros st result.
  destruct (getChatRoomsByInterests_ranking st ["music"; "gaming"])
    as (_ & Hunion & _ & Hsorted & _).
  fold result in Hunion, Hsorted.
  split; [vm_compute; reflexivity|]. split.
  - destruct (Hunion ltac:(discriminate)) as (ids & Hnd & _ & Hperm). by exists ids.
  - intros a b Ha Hb.
    destruct result as [|x [|y l]]; try discriminate.
    injection Ha as ->. injection Hb as ->.
    apply StronglySorted_inv in Hsorted as [_ Hx].
    by apply Forall_inv in Hx.
Defined.

(** C6 (the failing input). When the only participant of a room leaves it,
    [leaveChatRoom] returns [true] and deactivates the room without writing
    the emptied list of participants: the room read back still lists the
    user, with a count of 1. *)
Theorem leaveChatRoom_last_participant_stays_listed :
  let st := run [CreateChatRoom Sample.room_id Sample.t0 "Book Club"
                   "Weekly fiction discussion" "t2_u1" "u1" ["books"]] emptyStore in
  let result := ChatRoomRepository.leaveChatRoom st (Sample.t0 + 1) Sample.room_id "t2_u1" in
  result.1 = true ∧
  ∃ room,
    ChatRoomRepository.getChatRoom (result.2) Sample.room_id = Some room ∧
    "t2_u1" ∈ ChatRoom.participants room ∧
    ChatRoom.participantCount room = 1 ∧
    ChatRoom.isActive room = false.
Proof.
  split; [reflexivity|].
  eexists. split; [vm_compute; reflexivity|]. simpl.
  split; [by left|done].
Qed.

(** The same for any room with one participant, in any store. *)
Lemma leaveChatRoom_sole_participant st now chatRoomId userId room :
  ChatRoomRepository.getChatRoom st chatRoomId = Some room →
  ChatRoom.participants room = [userId] →
  ChatRoomRepository.leaveChatRoom st now chatRoomId userId
  = (true, ChatRoomRepository.deactivateChatRoom st chatRoomId) ∧
  ChatRoomRepository.getChatRoom
    (ChatRoomRepository.deactivateChatRoom st chatRoomId) chatRoomId
  = Some (deactivated room).
Proof.
  intros Hroom Hparts. split.
  - apply (RoomFacts.leaveChatRoom_nobody_remains st now chatRoomId userId room Hroom).
    rewrite Hparts. by rewrite filter_cons_False, filter_nil by (intros H; by apply H).
  - rewrite (RoomFacts.getChatRoom_deactivate st chatRoomId room _ Hroom).
    by rewrite decide_True.
Qed.



(** C8 (the failing inputs). The handler of POST /api/chatrooms answers 201
    and stores the room for a title of 2 characters, for a topic of 5
    characters, for an empty list of interests and for 6 valid interests. *)
Theorem createChatRoom_accepts_out_of_bounds :
  let accepted body :=
    let outcome := Handlers.createChatRoom emptyStore Sample.u1 Sample.room_id
                     Sample.t0 body in
    status (response outcome) = 201 ∧
    is_Some (ChatRoomRepository.getChatRoom (store outcome) Sample.room_id) in
  accepted (CreateChatRoomRequest.mk "Hi" "Weekly fiction discussion" (Some ["books"])) ∧
  accepted (CreateChatRoomRequest.mk "Book Club" "Books" (Some ["books"])) ∧
  accepted (CreateChatRoomRequest.mk "Book Club" "Weekly fiction discussion" (Some [])) ∧
  accepted (CreateChatRoomRequest.mk "Book Club" "Weekly fiction discussion"
              (Some ["gaming"; "technology"; "music"; "movies"; "sports"; "food"])).
Proof.
  cbv zeta. repeat split; try (vm_compute; reflexivity); vm_compute; eauto.
Qed.



(** C10. [deleteChatRoom] returns [false] and leaves the store as it is both
    when the room does not exist and when the requester is not its creator;
    whenever it returns [false] the store is unchanged; and the handler then
    answers 403 for both, with the store unchanged and nothing sent. *)
Theorem deleteChatRoom_failure :
  ∀ st chatRoomId userId,
    (ChatRoomRepository.getChatRoom st chatRoomId = None →
     ChatRoomRepository.deleteChatRoom st chatRoomId userId = (false, st)) ∧
    (∀ room,
        ChatRoomRepository.getChatRoom st chatRoomId = Some room →
        ChatRoom.creatorId room ≠ Some userId →
        ChatRoomRepository.deleteChatRoom st chatRoomId userId = (false, st)) ∧
    ((ChatRoomRepository.deleteChatRoom st chatRoomId userId).1 = false →
     (ChatRoomRepository.deleteChatRoom st chatRoomId userId).2 = st) ∧
    (∀ username now,
        userId ≠ EmptyString →
        (ChatRoomRepository.deleteChatRoom st chatRoomId userId).1 = false →
        Handlers.deleteChatRoom st (Context.mk (Some userId) username) now chatRoomId
        = mkOutcome (Failure 403 "FORBIDDEN" "Only chat room creator can delete the room")
                    st []).
Proof.
  intros st chatRoomId userId.
  assert (Hfalse : (ChatRoomRepository.deleteChatRoom st chatRoomId userId).1 = false →
                   ChatRoomRepository.deleteChatRoom st chatRoomId userId = (false, st)).
  { unfold ChatRoomRepository.deleteChatRoom.
    destruct (ChatRoomRepository.getChatRoom st chatRoomId) as [room|]; [|done].
    by case_bool_decide. }
  split; [|split; [|split]].
  - intros E. unfold ChatRoomRepository.deleteChatRoom. by rewrite E.
  - intros room E Hc. unfold ChatRoomRepository.deleteChatRoom. rewrite E.
    by rewrite bool_decide_eq_true_2.
  - intros H. by rewrite (Hfalse H).
  - intros username now Hne H. unfold Handlers.deleteChatRoom. simpl.
    destruct userId; [done|]. simpl. by rewrite (Hfalse H).
Qed.

Lemma deleteChatRoom_failure_witness :
  status (response (Handlers.deleteChatRoom emptyStore Sample.u3 Sample.t0
                      "1700000000000-n0suchr0m")) = 403 ∧
  Handlers.deleteChatRoom (run Sample.book_club emptyStore) Sample.u3 Sample.t0
    Sample.room_id
  = mkOutcome (Failure 403 "FORBIDDEN" "Only chat room creator can delete the room")
              (run Sample.book_club emptyStore) [].
Proof.
  split.
  - destruct (deleteChatRoom_failure emptyStore "1700000000000-n0suchr0m" "t2_u3")
      as (Habsent & _ & _ & Hhandler).
    unfold Sample.u3. rewrite (Hhandler (Some "u3") Sample.t0); [reflexivity|discriminate|].
    by rewrite Habsent.
  - destruct (ChatRoomRepository.getChatRoom (run Sample.book_club emptyStore)
                Sample.room_id) as [room|] eqn:E; [|vm_compute in E; discriminate].
    destruct (deleteChatRoom_failure (run Sample.book_club emptyStore) Sample.room_id
                "t2_u3") as (_ & Hother & _ & Hhandler).
    unfold Sample.u3. apply Hhandler; [discriminate|].
    rewrite (Hother room E); [reflexivity|].
    vm_compute in E. injection E as <-. discriminate.
Defined.


(** * Further properties of the code *)

(** ** Keys of the user data *)

Module UserKeyFacts.

Lemma userProfile_not_chatRoom (userId id : string) :
  REDIS_KEYS.userProfile userId ≠ REDIS_KEYS.chatRoom id.
Proof. discriminate. Qed.

Lemma userInterests_not_chatRoom (userId id : string) :
  REDIS_KEYS.userInterests userId ≠ REDIS_KEYS.chatRoom id.
Proof. discriminate. Qed.

Lemma userActiveChats_not_chatRoom (userId id : string) :
  REDIS_KEYS.userActiveChats userId ≠ REDIS_KEYS.chatRoom id.
Proof. discriminate. Qed.

Lemma userProfile_not_interest (userId tag : string) :
  REDIS_KEYS.userProfile userId ≠ REDIS_KEYS.interestChatRooms tag.
Proof. discriminate. Qed.

Lemma userInterests_not_interest (userId tag : string) :
  REDIS_KEYS.userInterests userId ≠ REDIS_KEYS.interestChatRooms tag.
Proof. discriminate. Qed.

Lemma userProfile_not_active (userId : string) :
  REDIS_KEYS.userProfile userId ≠ REDIS_KEYS.activeChatRooms.
Proof. discriminate. Qed.

Lemma userInterests_not_active (userId : string) :
  REDIS_KEYS.userInterests userId ≠ REDIS_KEYS.activeChatRooms.
Proof. discriminate. Qed.

Lemma append_inj_l (a b c : string) : (a ++ b)%string = (a ++ c)%string → b = c.
Proof. induction a as [|x a IH]; simpl; [done|]. intros [= H]. by apply IH. Qed.

Lemma append_length (a b : string) :
  String.length (a ++ b) = (String.length a + String.length b)%nat.
Proof. induction a as [|x a IH]; simpl; [done|]. by rewrite IH. Qed.

Lemma append_inj_r (c : string) : ∀ a b : string, (a ++ c)%string = (b ++ c)%string → a = b.
Proof.
  induction a as [|x a IH]; intros [|y b] H; simpl in H.
  - done.
  - apply (f_equal String.length) in H. rewrite !append_length in H. simpl in H. lia.
  - apply (f_equal String.length) in H. rewrite !append_length in H. simpl in H. lia.
  - injection H as -> H. f_equal. by apply IH.
Qed.

Lemma chatRoomMessages_inj (a b : string) :
  REDIS_KEYS.chatRoomMessages a = REDIS_KEYS.chatRoomMessages b → a = b.
Proof.
  unfold REDIS_KEYS.chatRoomMessages. intros H.
  apply append_inj_l in H. by apply append_inj_r in H.
Qed.

Lemma userInterests_inj (a b : string) :
  REDIS_KEYS.userInterests a = REDIS_KEYS.userInterests b → a = b.
Proof.
  unfold REDIS_KEYS.userInterests. intros H.
  apply append_inj_l in H. by apply append_inj_r in H.
Qed.

Lemma userProfile_inj (a b : string) :
  REDIS_KEYS.userProfile a = REDIS_KEYS.userProfile b → a = b.
Proof.
  unfold REDIS_KEYS.userProfile. intros H.
  apply append_inj_l in H. by apply append_inj_r in H.
Qed.

Lemma userActiveChats_inj (a b : string) :
  REDIS_KEYS.userActiveChats a = REDIS_KEYS.userActiveChats b → a = b.
Proof.
  unfold REDIS_KEYS.userActiveChats. intros H.
  apply append_inj_l in H. by apply append_inj_r in H.
Qed.

End UserKeyFacts.

(** ** Calls that leave the rooms and their indexes as they are *)

Module ViewFacts.
Import HashFacts RoomFacts IndexInvariant.

Lemma same_rooms_refl st : same_rooms st st.
Proof. by repeat split. Qed.

Lemma same_rooms_trans st1 st2 st3 :
  same_rooms st1 st2 → same_rooms st2 st3 → same_rooms st1 st3.
Proof.
  intros (H1 & H2 & H3) (H1' & H2' & H3'). repeat split.
  - intros id. by rewrite H1', H1.
  - by rewrite H2', H2.
  - intros tag. by rewrite H3', H3.
Qed.

Lemma same_rooms_frame st st' :
  roomHashes st' = roomHashes st → setHashes st' = setHashes st → same_rooms st st'.
Proof.
  intros Hr Hs. repeat split.
  - intros id. by apply getChatRoom_frame.
  - by apply hKeys_frame.
  - intros tag. by apply hKeys_frame.
Qed.

Lemma same_rooms_del st key :
  (∀ id, is_Some (ChatRoomRepository.getChatRoom st id) → REDIS_KEYS.chatRoom id ≠ key) →
  key ≠ REDIS_KEYS.activeChatRooms →
  (∀ tag, key ≠ REDIS_KEYS.interestChatRooms tag) →
  same_rooms st (Redis.del st key).
Proof.
  intros Hroom Hact Htag. repeat split.
  - intros id. rewrite getChatRoom_del.
    destruct (decide (REDIS_KEYS.chatRoom id = key)) as [Heq|]; [|done].
    destruct (ChatRoomRepository.getChatRoom st id) as [room|] eqn:E; [|done].
    by destruct (Hroom id (mk_is_Some _ _ E)).
  - rewrite hKeys_del. by rewrite decide_False.
  - intros tag. rewrite hKeys_del. by rewrite decide_False.
Qed.

Lemma same_rooms_hSet_flag st key field :
  key ≠ REDIS_KEYS.activeChatRooms →
  (∀ tag, key ≠ REDIS_KEYS.interestChatRooms tag) →
  same_rooms st (Redis.hSet_flag st key field).
Proof.
  intros Hact Htag. repeat split.
  - rewrite hKeys_hSet_flag. by rewrite decide_False.
  - intros tag. rewrite hKeys_hSet_flag. by rewrite decide_False.
Qed.

Lemma same_rooms_hSet_flags st key fields :
  key ≠ REDIS_KEYS.activeChatRooms →
  (∀ tag, key ≠ REDIS_KEYS.interestChatRooms tag) →
  same_rooms st (Redis.hSet_flags st key fields).
Proof.
  intros Hact Htag. unfold Redis.hSet_flags.
  revert st. induction fields as [|f fields IH]; intros st; simpl.
  - apply same_rooms_refl.
  - eapply same_rooms_trans; [by apply (same_rooms_hSet_flag st key f)|apply IH].
Qed.

Lemma same_rooms_hDel st key field :
  key ≠ REDIS_KEYS.activeChatRooms →
  (∀ tag, key ≠ REDIS_KEYS.interestChatRooms tag) →
  same_rooms st (Redis.hDel st key field).
Proof.
  intros Hact Htag. repeat split.
  - rewrite hKeys_hDel. by rewrite decide_False.
  - intros tag. rewrite hKeys_hDel. by rewrite decide_False.
Qed.

Lemma same_rooms_zPut st key l : same_rooms st (Redis.zPut st key l).
Proof. by apply same_rooms_frame. Qed.

Lemma same_rooms_hSet_profile st key fields :
  same_rooms st (Redis.hSet_profile st key fields).
Proof. by apply same_rooms_frame. Qed.

(** The calls of the message and user repositories. *)

Lemma same_rooms_createMessage st id now room userId username content :
  same_rooms st
    (MessageRepository.createMessage st id now room userId username content).2.
Proof.
  unfold MessageRepository.createMessage. destruct (_ <? _); simpl.
  - eapply same_rooms_trans; apply same_rooms_zPut.
  - apply same_rooms_zPut.
Qed.

Lemma same_rooms_deleteMessage st room messageId :
  same_rooms st (MessageRepository.deleteMessage st room messageId).2.
Proof.
  rewrite ClientFacts.deleteMessage_unchanged. apply same_rooms_refl.
Qed.

Lemma same_rooms_deleteAllMessages st room :
  rooms_indexed st →
  same_rooms st (MessageRepository.deleteAllMessages st room).
Proof.
  intros Hst. apply same_rooms_del.
  - intros id [r E] Heq. destruct (room_keyed st Hst id r E) as [_ Hcolon].
    symmetry in Heq. by apply KeyFacts.chatRoomMessages_not_chatRoom in Heq.
  - apply KeyFacts.chatRoomMessages_not_active.
  - apply KeyFacts.chatRoomMessages_not_interest.
Qed.

Lemma same_rooms_updateProfileActiveChats st userId :
  same_rooms st (UserRepository.updateProfileActiveChats st userId).
Proof.
  unfold UserRepository.updateProfileActiveChats.
  destruct (UserRepository.profileExists st userId);
    [apply same_rooms_hSet_profile|apply same_rooms_refl].
Qed.

Lemma same_rooms_addUserToActiveChat st userId room :
  same_rooms st (UserRepository.addUserToActiveChat st userId room).
Proof.
  eapply same_rooms_trans; [|apply same_rooms_updateProfileActiveChats].
  apply same_rooms_hSet_flag.
  - apply KeyFacts.userActiveChats_not_active.
  - apply KeyFacts.userActiveChats_not_interest.
Qed.

Lemma same_rooms_removeUserFromActiveChat st userId room :
  same_rooms st (UserRepository.removeUserFromActiveChat st userId room).
Proof.
  eapply same_rooms_trans; [|apply same_rooms_updateProfileActiveChats].
  apply same_rooms_hDel.
  - apply KeyFacts.userActiveChats_not_active.
  - apply KeyFacts.userActiveChats_not_interest.
Qed.

Lemma same_rooms_setUserInterests st userId interests :
  same_rooms st (UserRepository.setUserInterests st userId interests).2.
Proof.
  unfold UserRepository.setUserInterests.
  destruct (_ <? _); simpl; [apply same_rooms_refl|].
  assert (H1 : same_rooms st (Redis.del st (REDIS_KEYS.userInterests userId))).
  { apply same_rooms_del.
    - intros id _ Heq. symmetry in Heq.
      by apply UserKeyFacts.userInterests_not_chatRoom in Heq.
    - apply UserKeyFacts.userInterests_not_active.
    - apply UserKeyFacts.userInterests_not_interest. }
  set (st1 := Redis.del st (REDIS_KEYS.userInterests userId)) in *.
  assert (H2 : same_rooms st
    (if 0 <? Z.of_nat (length interests)
     then Redis.hSet_flags st1 (REDIS_KEYS.userInterests userId) interests else st1)).
  { destruct (0 <? _); [|done].
    eapply same_rooms_trans; [exact H1|]. apply same_rooms_hSet_flags.
    - apply UserKeyFacts.userInterests_not_active.
    - apply UserKeyFacts.userInterests_not_interest. }
  destruct (UserRepository.getUserProfile _ _); [|done].
  eapply same_rooms_trans; [exact H2|]. apply same_rooms_hSet_profile.
Qed.

Lemma same_rooms_createOrUpdateUserProfile st now userId username interests :
  same_rooms st
    (UserRepository.createOrUpdateUserProfile st now userId username interests).2.
Proof.
  unfold UserRepository.createOrUpdateUserProfile.
  set (st1 := Redis.hSet_profile st _ _).
  assert (H1 : same_rooms st st1) by apply same_rooms_hSet_profile.
  destruct interests as [interests|]; [|done].
  destruct (0 <? _); [|done].
  pose proof (same_rooms_setUserInterests st1 userId interests) as H2.
  destruct (UserRepository.setUserInterests st1 userId interests) as [[v|r] st2];
    simpl in *; by eapply same_rooms_trans.
Qed.

Lemma same_rooms_deleteUserData st userId :
  same_rooms st (UserRepository.deleteUserData st userId).
Proof.
  unfold UserRepository.deleteUserData.
  eapply same_rooms_trans; [|eapply same_rooms_trans].
  - apply (same_rooms_del st (REDIS_KEYS.userProfile userId)).
    + intros id _ Heq. symmetry in Heq.
      by apply UserKeyFacts.userProfile_not_chatRoom in Heq.
    + apply UserKeyFacts.userProfile_not_active.
    + apply UserKeyFacts.userProfile_not_interest.
  - apply (same_rooms_del _ (REDIS_KEYS.userInterests userId)).
    + intros id _ Heq. symmetry in Heq.
      by apply UserKeyFacts.userInterests_not_chatRoom in Heq.
    + apply UserKeyFacts.userInterests_not_active.
    + apply UserKeyFacts.userInterests_not_interest.
  - apply (same_rooms_del _ (REDIS_KEYS.userActiveChats userId)).
    + intros id _ Heq. symmetry in Heq.
      by apply UserKeyFacts.userActiveChats_not_chatRoom in Heq.
    + apply KeyFacts.userActiveChats_not_active.
    + apply KeyFacts.userActiveChats_not_interest.
Qed.

Lemma same_rooms_updateUsername st userId newUsername :
  same_rooms st (UserRepository.updateUsername st userId newUsername).
Proof.
  unfold UserRepository.updateUsername.
  destruct (UserRepository.getUserProfile st userId);
    [apply same_rooms_hSet_profile|apply same_rooms_refl].
Qed.

(** What the invariants of the rooms need of a store is what
    [same_rooms] keeps. *)

Lemma rooms_indexed_same st st' : same_rooms st st' → rooms_indexed st → rooms_indexed st'.
Proof.
  intros (Hr & _ & Ht) [Hk Hi]. split.
  - intros id room. rewrite Hr. apply Hk.
  - intros tag id. rewrite Ht, Hr. apply Hi.
Qed.

Lemma rooms_ok_same st st' : same_rooms st st' → rooms_ok st → rooms_ok st'.
Proof. intros (Hr & _ & _) Hst id room. rewrite Hr. apply Hst. Qed.

Lemma rooms_listed_same st st' : same_rooms st st' → rooms_listed st → rooms_listed st'.
Proof.
  intros (Hr & Ha & Ht) [H1 H2 H3]. split.
  - intros id. rewrite Ha, Hr. apply H1.
  - intros tag id. rewrite Ht, Hr. apply H2.
  - intros id room. rewrite Hr, Ha. intros E Hact.
    destruct (H3 id room E Hact) as [? Htags]. split; [done|].
    intros tag. rewrite Ht. apply Htags.
Qed.

End ViewFacts.

(** ** The invariants of the attainable stores *)

Module StoreInvariant.
Import HashFacts RoomFacts IndexInvariant ViewFacts.

(** *** Rooms are well formed *)

Lemma rooms_ok_hSet_room st id fields :
  RoomHash.id fields = None →
  (∀ l, RoomHash.participants fields = Some l → NoDup l ∧ l ≠ []) →
  RoomHash.isActive fields ≠ Some true →
  rooms_ok st → rooms_ok (Redis.hSet_room st (REDIS_KEYS.chatRoom id) fields).
Proof.
  intros Hid Hpart Hact Hst id' room'.
  destruct (decide (id = id')) as [<-|Hne].
  - destruct (ChatRoomRepository.getChatRoom st id) as [room|] eqn:E.
    + rewrite (getChatRoom_hSet_room st id fields room E Hid). intros [= <-].
      destruct (Hst id room E) as [H1 H2 H3 H4 H5]. split; simpl.
      * destruct (RoomHash.title fields); [by eexists|done].
      * destruct (RoomHash.topic fields); [by eexists|done].
      * destruct (RoomHash.creatorId fields); [by eexists|done].
      * destruct (RoomHash.participants fields) as [l|]; [|done]. by apply Hpart.
      * destruct (RoomHash.isActive fields) as [[|]|]; [done|done|]. simpl.
        intros Ha. destruct (RoomHash.participants fields) as [l|]; [|by apply H5].
        by apply Hpart.
    + by rewrite (getChatRoom_hSet_room_absent st id fields E Hid).
  - rewrite getChatRoom_hSet_room_ne by done. apply Hst.
Qed.

Lemma rooms_ok_deactivate st chatRoomId :
  rooms_ok st → rooms_ok (ChatRoomRepository.deactivateChatRoom st chatRoomId).
Proof.
  intros Hst.
  destruct (ChatRoomRepository.getChatRoom st chatRoomId) as [room|] eqn:E;
    [|by rewrite deactivate_absent].
  intros id room'. rewrite (getChatRoom_deactivate st chatRoomId room id E).
  destruct (decide (id = chatRoomId)) as [->|Hne]; [|apply Hst].
  intros [= <-]. destruct (Hst chatRoomId room E) as [H1 H2 H3 H4 H5].
  by split.
Qed.

Lemma rooms_ok_del st key : rooms_ok st → rooms_ok (Redis.del st key).
Proof.
  intros Hst id room. rewrite getChatRoom_del. destruct (decide _); [done|apply Hst].
Qed.

Lemma rooms_ok_exec st c : fresh_id st c → rooms_ok st → rooms_ok (exec st c).
Proof.
  intros Hfresh Hst. destruct c; unfold exec.
  - destruct Hfresh as (Hid & _ & _).
    intros id' room. rewrite getChatRoom_createChatRoom by done.
    destruct (decide (id' = id)) as [->|Hne]; [|apply Hst].
    intros [= <-]. split; simpl; try by eexists.
    + apply NoDup_singleton.
    + done.
  - unfold ChatRoomRepository.joinChatRoom.
    destruct (ChatRoomRepository.getChatRoom st chatRoomId) as [room|] eqn:E; [|done].
    destruct (negb _); [done|]. case_bool_decide as Hin; [done|]. simpl.
    apply rooms_ok_hSet_room; [done| |done|done].
    intros l [= <-]. split.
    + apply NoDup_app. split; [apply (room_distinct _ (Hst _ _ E))|].
      split; [|apply NoDup_singleton].
      intros x Hx Hx'. apply list_elem_of_singleton in Hx' as ->. done.
    + by destruct (ChatRoom.participants room).
  - unfold ChatRoomRepository.leaveChatRoom.
    destruct (ChatRoomRepository.getChatRoom st chatRoomId) as [room|] eqn:E; [|done].
    case_bool_decide as Hlen; simpl.
    + by apply rooms_ok_deactivate.
    + apply rooms_ok_hSet_room; [done| |done|done].
      intros l [= <-]. split.
      * apply NoDup_filter, (room_distinct _ (Hst _ _ E)).
      * intros Hnil. by rewrite Hnil in Hlen.
  - by apply rooms_ok_hSet_room.
  - by apply rooms_ok_deactivate.
  - unfold ChatRoomRepository.deleteChatRoom.
    destruct (ChatRoomRepository.getChatRoom st chatRoomId) as [room|]; [|done].
    case_bool_decide; [done|]. simpl.
    by apply rooms_ok_del, rooms_ok_del, rooms_ok_deactivate.
  - eapply rooms_ok_same; [apply same_rooms_createMessage|done].
  - eapply rooms_ok_same; [apply same_rooms_addUserToActiveChat|done].
  - eapply rooms_ok_same; [apply same_rooms_removeUserFromActiveChat|done].
Qed.

(** *** The indexes list the active rooms *)

Lemma rooms_listed_hSet_room st id fields :
  RoomHash.id fields = None → RoomHash.isActive fields = None →
  RoomHash.interests fields = None →
  rooms_listed st → rooms_listed (Redis.hSet_room st (REDIS_KEYS.chatRoom id) fields).
Proof.
  intros Hid Hact Hint [H1 H2 H3].
  set (st' := Redis.hSet_room st (REDIS_KEYS.chatRoom id) fields).
  assert (Hget : ∀ id' room,
    ChatRoomRepository.getChatRoom st id' = Some room →
    ∃ room', ChatRoomRepository.getChatRoom st' id' = Some room' ∧
             ChatRoom.isActive room' = ChatRoom.isActive room ∧
             ChatRoom.interests room' = ChatRoom.interests room).
  { intros id' room E. destruct (decide (id = id')) as [<-|Hne].
    - unfold st'. rewrite (getChatRoom_hSet_room st id fields room E Hid).
      eexists. split; [done|]. simpl. by rewrite Hact, Hint.
    - unfold st'. rewrite getChatRoom_hSet_room_ne by done. eauto. }
  assert (Hback : ∀ id' room',
    ChatRoomRepository.getChatRoom st' id' = Some room' →
    ∃ room, ChatRoomRepository.getChatRoom st id' = Some room ∧
            ChatRoom.isActive room' = ChatRoom.isActive room ∧
            ChatRoom.interests room' = ChatRoom.interests room).
  { intros id' room' E'.
    destruct (ChatRoomRepository.getChatRoom st id') as [room|] eqn:E.
    - destruct (Hget id' room E) as (room'' & E'' & ? & ?).
      exists room. split; [done|]. split; congruence.
    - destruct (decide (id = id')) as [<-|Hne].
      + unfold st' in E'. by rewrite (getChatRoom_hSet_room_absent st id fields E Hid) in E'.
      + unfold st' in E'. rewrite getChatRoom_hSet_room_ne in E' by done. congruence. }
  split.
  - intros id' Hin. destruct (H1 id' Hin) as (room & E & Ha).
    destruct (Hget id' room E) as (room' & E' & Ha' & _).
    exists room'. split; [done|congruence].
  - intros tag id' Hin. destruct (H2 tag id' Hin) as (room & E & Ha).
    destruct (Hget id' room E) as (room' & E' & Ha' & _).
    exists room'. split; [done|congruence].
  - intros id' room' E' Ha'. destruct (Hback id' room' E') as (room & E & Ha & Hi).
    rewrite Hi. apply (H3 id' room E). congruence.
Qed.

Lemma rooms_listed_deactivate st chatRoomId :
  rooms_indexed st → rooms_listed st →
  rooms_listed (ChatRoomRepository.deactivateChatRoom st chatRoomId).
Proof.
  intros Hix [H1 H2 H3].
  destruct (ChatRoomRepository.getChatRoom st chatRoomId) as [room|] eqn:E;
    [|by rewrite deactivate_absent].
  split.
  - intros id Hin.
    apply (elem_of_hKeys_deactivate st chatRoomId room _ _ E) in Hin as [Hin Hn].
    rewrite (getChatRoom_deactivate st chatRoomId room id E).
    destruct (decide (id = chatRoomId)) as [->|Hne]; [|by apply H1].
    destruct Hn. split; [done|by left].
  - intros tag id Hin.
    apply (elem_of_hKeys_deactivate st chatRoomId room _ _ E) in Hin as [Hin Hn].
    rewrite (getChatRoom_deactivate st chatRoomId room id E).
    destruct (decide (id = chatRoomId)) as [->|Hne]; [|by apply (H2 tag)].
    destruct Hn. split; [done|]. right. exists tag. split; [|done].
    destruct (interest_indexed st Hix tag chatRoomId Hin) as (room' & E' & Htag).
    congruence.
  - intros id room'. rewrite (getChatRoom_deactivate st chatRoomId room id E).
    destruct (decide (id = chatRoomId)) as [->|Hne].
    + intros [= <-]. done.
    + intros E' Ha'. destruct (H3 id room' E' Ha') as [Hin Htags]. split.
      * apply (elem_of_hKeys_deactivate st chatRoomId room _ _ E).
        split; [done|]. by intros [? _].
      * intros tag Htag.
        apply (elem_of_hKeys_deactivate st chatRoomId room _ _ E).
        split; [by apply Htags|]. by intros [? _].
Qed.

Lemma rooms_listed_delete st chatRoomId userId :
  rooms_indexed st → rooms_listed st →
  rooms_listed (ChatRoomRepository.deleteChatRoom st chatRoomId userId).2.
Proof.
  intros Hix Hst. unfold ChatRoomRepository.deleteChatRoom.
  destruct (ChatRoomRepository.getChatRoom st chatRoomId) as [room|] eqn:E; [|done].
  case_bool_decide; [done|]. simpl.
  pose proof (rooms_indexed_deactivate st chatRoomId Hix) as Hix1.
  pose proof (rooms_listed_deactivate st chatRoomId Hix Hst) as [H1 H2 H3].
  pose proof (getChatRoom_deactivate st chatRoomId room chatRoomId E) as Hd.
  rewrite decide_True in Hd by done.
  set (st1 := ChatRoomRepository.deactivateChatRoom st chatRoomId) in *.
  set (st3 := Redis.del (Redis.del st1 (REDIS_KEYS.chatRoom chatRoomId))
                (REDIS_KEYS.chatRoomMessages chatRoomId)).
  assert (Hget : ∀ id room',
    ChatRoomRepository.getChatRoom st1 id = Some room' →
    ChatRoom.isActive room' = true →
    ChatRoomRepository.getChatRoom st3 id = Some room').
  { intros id room' E' Ha'. unfold st3. rewrite !getChatRoom_del.
    destruct (room_keyed st1 Hix1 id room' E') as [_ Hcolon].
    rewrite decide_False.
    - rewrite decide_False; [done|]. intros Heq.
      apply KeyFacts.chatRoom_inj in Heq as ->.
      rewrite Hd in E'. injection E' as <-. done.
    - intros Heq. by apply (KeyFacts.chatRoomMessages_not_chatRoom chatRoomId id). }
  assert (Hkeys : ∀ key,
    key = REDIS_KEYS.activeChatRooms ∨ (∃ tag, key = REDIS_KEYS.interestChatRooms tag) →
    Redis.hKeys st3 key = Redis.hKeys st1 key).
  { intros key Hkey. unfold st3. rewrite !hKeys_del.
    destruct Hkey as [->|[tag ->]].
    - rewrite decide_False by apply KeyFacts.chatRoomMessages_not_active.
      by rewrite decide_False by apply KeyFacts.chatRoom_not_active.
    - rewrite decide_False by apply KeyFacts.chatRoomMessages_not_interest.
      by rewrite decide_False by apply KeyFacts.chatRoom_not_interest. }
  split.
  - intros id. rewrite Hkeys by by left. intros Hin.
    destruct (H1 id Hin) as (room' & E' & Ha'). exists room'.
    split; [by apply Hget|done].
  - intros tag id. rewrite Hkeys by (right; by exists tag). intros Hin.
    destruct (H2 tag id Hin) as (room' & E' & Ha'). exists room'.
    split; [by apply Hget|done].
  - intros id room' E' Ha'.
    assert (E1 : ChatRoomRepository.getChatRoom st1 id = Some room').
    { unfold st3 in E'. rewrite !getChatRoom_del in E'.
      by repeat (destruct (decide _); [done|]). }
    destruct (H3 id room' E1 Ha') as [Hin Htags]. split.
    + by rewrite Hkeys by by left.
    + intros tag Htag. rewrite Hkeys by (right; by exists tag). by apply Htags.
Qed.

Lemma rooms_listed_create st id now title topic creatorId creatorUsername interests :
  id ≠ EmptyString →
  ChatRoomRepository.getChatRoom st id = None →
  rooms_listed st →
  rooms_listed (ChatRoomRepository.createChatRoom st id now title topic creatorId
                  creatorUsername interests).2.
Proof.
  intros Hid Hfresh [H1 H2 H3]. split.
  - intros id' Hin. rewrite getChatRoom_createChatRoom by done.
    destruct (decide (id' = id)) as [->|Hne]; [by eexists|].
    apply elem_of_hKeys_createChatRoom in Hin as [Hin|[-> _]]; [by apply H1|done].
  - intros tag id' Hin. rewrite getChatRoom_createChatRoom by done.
    destruct (decide (id' = id)) as [->|Hne]; [by eexists|].
    apply elem_of_hKeys_createChatRoom in Hin as [Hin|[-> _]]; [by apply (H2 tag)|done].
  - intros id' room. rewrite getChatRoom_createChatRoom by done.
    destruct (decide (id' = id)) as [->|Hne].
    + intros [= <-] _. simpl. split.
      * apply elem_of_hKeys_createChatRoom. right. split; [done|by left].
      * intros tag Htag. apply elem_of_hKeys_createChatRoom. right.
        split; [done|]. right. by exists tag.
    + intros E Ha. destruct (H3 id' room E Ha) as [Hin Htags]. split.
      * apply elem_of_hKeys_createChatRoom. by left.
      * intros tag Htag. apply elem_of_hKeys_createChatRoom. left. by apply Htags.
Qed.

Lemma rooms_listed_exec st c :
  fresh_id st c → rooms_indexed st → rooms_listed st → rooms_listed (exec st c).
Proof.
  intros Hfresh Hix Hst. destruct c; unfold exec.
  - destruct Hfresh as (? & ? & ?). by apply rooms_listed_create.
  - unfold ChatRoomRepository.joinChatRoom.
    destruct (ChatRoomRepository.getChatRoom st chatRoomId) as [room|]; [|done].
    destruct (negb _); [done|]. case_bool_decide; [done|].
    by apply rooms_listed_hSet_room.
  - unfold ChatRoomRepository.leaveChatRoom.
    destruct (ChatRoomRepository.getChatRoom st chatRoomId) as [room|]; [|done].
    case_bool_decide.
    + by apply rooms_listed_deactivate.
    + by apply rooms_listed_hSet_room.
  - by apply rooms_listed_hSet_room.
  - by apply rooms_listed_deactivate.
  - by apply rooms_listed_delete.
  - eapply rooms_listed_same; [apply same_rooms_createMessage|done].
  - eapply rooms_listed_same; [apply same_rooms_addUserToActiveChat|done].
  - eapply rooms_listed_same; [apply same_rooms_removeUserFromActiveChat|done].
Qed.

(** *** No set lists a field twice *)

Lemma sets_ok_frame st st' : setHashes st' = setHashes st → sets_ok st → sets_ok st'.
Proof. intros Hs Hst key. rewrite (hKeys_frame st st') by done. apply Hst. Qed.

Lemma sets_ok_hSet_flag st key field : sets_ok st → sets_ok (Redis.hSet_flag st key field).
Proof.
  intros Hst key'. rewrite hKeys_hSet_flag.
  destruct (decide (key = key')) as [<-|]; [|apply Hst].
  case_bool_decide as Hin; [apply Hst|].
  apply NoDup_app. split; [apply Hst|]. split; [|apply NoDup_singleton].
  intros x Hx Hx'. apply list_elem_of_singleton in Hx' as ->. done.
Qed.

Lemma sets_ok_hDel st key field : sets_ok st → sets_ok (Redis.hDel st key field).
Proof.
  intros Hst key'. rewrite hKeys_hDel.
  destruct (decide (key = key')) as [<-|]; [|apply Hst]. apply NoDup_filter, Hst.
Qed.

Lemma sets_ok_del st key : sets_ok st → sets_ok (Redis.del st key).
Proof.
  intros Hst key'. rewrite hKeys_del.
  destruct (decide (key = key')); [apply NoDup_nil_2|apply Hst].
Qed.

Lemma sets_ok_fold_hSet_flag (f : string → string) (x : string) (l : list string) :
  ∀ st, sets_ok st → sets_ok (fold_left (λ s i, Redis.hSet_flag s (f i) x) l st).
Proof.
  induction l as [|i l IH]; intros st Hst; simpl; [done|].
  by apply IH, sets_ok_hSet_flag.
Qed.

Lemma sets_ok_fold_hDel (f : string → string) (x : string) (l : list string) :
  ∀ st, sets_ok st → sets_ok (fold_left (λ s i, Redis.hDel s (f i) x) l st).
Proof.
  induction l as [|i l IH]; intros st Hst; simpl; [done|].
  by apply IH, sets_ok_hDel.
Qed.

Lemma sets_ok_hSet_flags st key fields :
  sets_ok st → sets_ok (Redis.hSet_flags st key fields).
Proof.
  unfold Redis.hSet_flags. revert st.
  induction fields as [|f fields IH]; intros st Hst; simpl; [done|].
  by apply IH, sets_ok_hSet_flag.
Qed.

Lemma sets_ok_deactivate st chatRoomId :
  sets_ok st → sets_ok (ChatRoomRepository.deactivateChatRoom st chatRoomId).
Proof.
  intros Hst. unfold ChatRoomRepository.deactivateChatRoom.
  destruct (ChatRoomRepository.getChatRoom st chatRoomId) as [room|]; [|done].
  apply sets_ok_fold_hDel, sets_ok_hDel. by apply (sets_ok_frame st).
Qed.

Lemma sets_ok_updateProfileActiveChats st userId :
  sets_ok st → sets_ok (UserRepository.updateProfileActiveChats st userId).
Proof.
  intros Hst. unfold UserRepository.updateProfileActiveChats.
  destruct (UserRepository.profileExists st userId); [|done].
  by apply (sets_ok_frame st).
Qed.

Lemma sets_ok_exec st c : sets_ok st → sets_ok (exec st c).
Proof.
  intros Hst. destruct c; unfold exec.
  - unfold ChatRoomRepository.createChatRoom. simpl.
    apply sets_ok_fold_hSet_flag, sets_ok_hSet_flag. by apply (sets_ok_frame st).
  - unfold ChatRoomRepository.joinChatRoom.
    destruct (ChatRoomRepository.getChatRoom st chatRoomId) as [room|]; [|done].
    destruct (negb _); [done|]. case_bool_decide; [done|].
    by apply (sets_ok_frame st).
  - unfold ChatRoomRepository.leaveChatRoom.
    destruct (ChatRoomRepository.getChatRoom st chatRoomId) as [room|]; [|done].
    case_bool_decide; simpl.
    + by apply sets_ok_deactivate.
    + by apply (sets_ok_frame st).
  - by apply (sets_ok_frame st).
  - by apply sets_ok_deactivate.
  - unfold ChatRoomRepository.deleteChatRoom.
    destruct (ChatRoomRepository.getChatRoom st chatRoomId) as [room|]; [|done].
    case_bool_decide; [done|]. simpl.
    by apply sets_ok_del, sets_ok_del, sets_ok_deactivate.
  - apply (sets_ok_frame st); [|done].
    unfold MessageRepository.createMessage. by destruct (_ <? _).
  - by apply sets_ok_updateProfileActiveChats, sets_ok_hSet_flag.
  - by apply sets_ok_updateProfileActiveChats, sets_ok_hDel.
Qed.

End StoreInvariant.

(** ** Calls that only remove room hashes and log entries *)

Module ShrinkFacts.
Import ZSetFacts.

Lemma shrinks_refl st : shrinks st st.
Proof. by split. Qed.

Lemma shrinks_trans st1 st2 st3 : shrinks st1 st2 → shrinks st2 st3 → shrinks st1 st3.
Proof.
  intros [H1 H2] [H1' H2']. split.
  - intros key h E. by apply H1, H1'.
  - intros key. etransitivity; [apply H2'|apply H2].
Qed.

Lemma shrinks_frame st st' :
  roomHashes st' = roomHashes st → sortedSets st' = sortedSets st → shrinks st st'.
Proof.
  intros Hr Hs. split.
  - intros key h. by rewrite Hr.
  - intros key. unfold Redis.zGet. by rewrite Hs.
Qed.

Lemma zGet_del st key key' :
  Redis.zGet (Redis.del st key) key'
  = if decide (key = key') then [] else Redis.zGet st key'.
Proof.
  unfold Redis.zGet, Redis.del. simpl.
  destruct (decide (key = key')) as [->|Hne].
  - by rewrite lookup_delete_eq.
  - by rewrite lookup_delete_ne.
Qed.

Lemma shrinks_del st key : shrinks st (Redis.del st key).
Proof.
  split.
  - intros key' h. unfold Redis.del. simpl. rewrite lookup_delete_Some. tauto.
  - intros key'. rewrite zGet_del. destruct (decide _); [apply sublist_nil_l|done].
Qed.

Lemma shrinks_hSet_flag st key field : shrinks st (Redis.hSet_flag st key field).
Proof. by apply shrinks_frame. Qed.

Lemma shrinks_hSet_flags st key fields : shrinks st (Redis.hSet_flags st key fields).
Proof.
  unfold Redis.hSet_flags. revert st.
  induction fields as [|f fields IH]; intros st; simpl; [apply shrinks_refl|].
  eapply shrinks_trans; [apply (shrinks_hSet_flag st key f)|apply IH].
Qed.

Lemma shrinks_hDel st key field : shrinks st (Redis.hDel st key field).
Proof. by apply shrinks_frame. Qed.

Lemma shrinks_hSet_profile st key fields : shrinks st (Redis.hSet_profile st key fields).
Proof. by apply shrinks_frame. Qed.

Lemma shrinks_zPut st key l :
  l `sublist_of` Redis.zGet st key → shrinks st (Redis.zPut st key l).
Proof.
  intros Hl. split.
  - intros key' h. unfold Redis.zPut. by destruct l.
  - intros key'. destruct (decide (key = key')) as [<-|Hne].
    + by rewrite zGet_zPut.
    + by rewrite zGet_zPut_ne.
Qed.

Lemma shrinks_deleteMessage st room messageId :
  shrinks st (MessageRepository.deleteMessage st room messageId).2.
Proof.
  rewrite ClientFacts.deleteMessage_unchanged. apply shrinks_refl.
Qed.

Lemma shrinks_setUserInterests st userId interests :
  shrinks st (UserRepository.setUserInterests st userId interests).2.
Proof.
  unfold UserRepository.setUserInterests.
  destruct (_ <? _); simpl; [apply shrinks_refl|].
  pose proof (shrinks_del st (REDIS_KEYS.userInterests userId)) as H1.
  set (st1 := Redis.del st (REDIS_KEYS.userInterests userId)) in *.
  assert (H2 : shrinks st
    (if 0 <? Z.of_nat (length interests)
     then Redis.hSet_flags st1 (REDIS_KEYS.userInterests userId) interests else st1)).
  { destruct (0 <? _); [|done].
    eapply shrinks_trans; [exact H1|apply shrinks_hSet_flags]. }
  destruct (UserRepository.getUserProfile _ _); [|done].
  eapply shrinks_trans; [exact H2|apply shrinks_hSet_profile].
Qed.

Lemma shrinks_createOrUpdateUserProfile st now userId username interests :
  shrinks st
    (UserRepository.createOrUpdateUserProfile st now userId username interests).2.
Proof.
  unfold UserRepository.createOrUpdateUserProfile.
  set (st1 := Redis.hSet_profile st _ _).
  assert (H1 : shrinks st st1) by apply shrinks_hSet_profile.
  destruct interests as [interests|]; [|done].
  destruct (0 <? _); [|done].
  pose proof (shrinks_setUserInterests st1 userId interests) as H2.
  destruct (UserRepository.setUserInterests st1 userId interests) as [[v|r] st2];
    simpl in *; by eapply shrinks_trans.
Qed.

Lemma shrinks_deleteUserData st userId :
  shrinks st (UserRepository.deleteUserData st userId).
Proof.
  unfold UserRepository.deleteUserData.
  eapply shrinks_trans; [|eapply shrinks_trans]; apply shrinks_del.
Qed.

Lemma shrinks_updateUsername st userId newUsername :
  shrinks st (UserRepository.updateUsername st userId newUsername).
Proof.
  unfold UserRepository.updateUsername.
  destruct (UserRepository.getUserProfile st userId);
    [apply shrinks_hSet_profile|apply shrinks_refl].
Qed.

(** What shrinking keeps. *)

Lemma log_ok_sublist (l l' : list zentry) : l' `sublist_of` l → log_ok l → log_ok l'.
Proof.
  intros Hsub [H1 H2 H3 H4]. split.
  - by eapply PageFacts.sorted_sublist.
  - eapply sublist_NoDup; [exact H2|]. by apply fmap_sublist.
  - rewrite Forall_forall in H3 |- *. intros e He. apply H3.
    by eapply elem_of_sublist.
  - apply sublist_length in Hsub. lia.
Qed.

Lemma logs_ok_shrinks st st' : shrinks st st' → logs_ok st → logs_ok st'.
Proof. intros [_ H] Hst key. eapply log_ok_sublist; [apply H|apply Hst]. Qed.

Lemma logs_placed_shrinks st st' : shrinks st st' → logs_placed st → logs_placed st'.
Proof.
  intros [_ H] Hst key e He. apply Hst. eapply elem_of_sublist; [exact He|apply H].
Qed.

Lemma counts_ok_shrinks st st' : shrinks st st' → counts_ok st → counts_ok st'.
Proof. intros [H _] Hst key h E. by apply (Hst key), H. Qed.

Lemma logs_placed_exec st c : logs_placed st → logs_placed (exec st c).
Proof.
  intros Hst key e.
  destruct c;
    try (match goal with
         | |- context [exec st ?c] =>
             destruct (Frame.exec_zGet st c key ltac:(discriminate)) as [-> | ->];
             [apply Hst|intros He; by apply elem_of_nil in He]
         end).
  unfold exec.
  destruct (decide (key = REDIS_KEYS.chatRoomMessages chatRoomId)) as [->|Hne].
  - pose proof (MessageFacts.createMessage_log st id now chatRoomId userId username
                  content) as Hlog.
    unfold messageLog in Hlog. rewrite Hlog. unfold newest. intros He.
    pose proof (elem_of_sublist _ _ _ He (sublist_drop _ _)) as He'.
    clear He. unfold Redis.zAdd_entries in He'.
    rewrite zinsert_perm in He'. apply elem_of_cons in He' as [->|He'].
    + done.
    + apply list_elem_of_filter in He' as [_ He']. by apply Hst.
  - rewrite MessageFacts.createMessage_other by done. apply Hst.
Qed.

End ShrinkFacts.

(** ** Every attainable store satisfies the invariants *)

Module Attainable.
Import HashFacts ViewFacts StoreInvariant ShrinkFacts.

Lemma store_ok_empty : store_ok emptyStore.
Proof.
  assert (Hroom : ∀ id, ChatRoomRepository.getChatRoom emptyStore id = None).
  { intros id. unfold ChatRoomRepository.getChatRoom, Redis.hGetAll_room. simpl.
    by rewrite lookup_empty. }
  assert (Hkeys : ∀ key, Redis.hKeys emptyStore key = []).
  { intros key. unfold Redis.hKeys. simpl. by rewrite lookup_empty. }
  split.
  - apply IndexInvariant.rooms_indexed_empty.
  - intros id room. by rewrite Hroom.
  - split.
    + intros id. rewrite Hkeys. intros Hin. by apply elem_of_nil in Hin.
    + intros tag id. rewrite Hkeys. intros Hin. by apply elem_of_nil in Hin.
    + intros id room. by rewrite Hroom.
  - intros key. rewrite Hkeys. apply NoDup_nil_2.
  - apply LogInvariant.logs_ok_empty.
  - intros key e. unfold Redis.zGet. simpl. rewrite lookup_empty. simpl.
    intros Hin. by apply elem_of_nil in Hin.
  - apply CountInvariant.counts_ok_empty.
Qed.

Lemma store_ok_exec st c : fresh_id st c → store_ok st → store_ok (exec st c).
Proof.
  intros Hfresh [H1 H2 H3 H4 H5 H6 H7]. split.
  - by apply IndexInvariant.rooms_indexed_exec.
  - by apply rooms_ok_exec.
  - by apply rooms_listed_exec.
  - by apply sets_ok_exec.
  - by apply LogInvariant.logs_ok_exec.
  - by apply logs_placed_exec.
  - by apply CountInvariant.counts_ok_exec.
Qed.

(** A call that shows the same rooms and only shrinks the hashes and logs
    keeps the invariants. *)
Lemma store_ok_quiet st st' :
  same_rooms st st' → shrinks st st' → sets_ok st' → store_ok st → store_ok st'.
Proof.
  intros Hsame Hshr Hsets [H1 H2 H3 H4 H5 H6 H7]. split.
  - by eapply rooms_indexed_same.
  - by eapply rooms_ok_same.
  - by eapply rooms_listed_same.
  - done.
  - by eapply logs_ok_shrinks.
  - by eapply logs_placed_shrinks.
  - by eapply counts_ok_shrinks.
Qed.

Lemma sets_ok_setUserInterests st userId interests :
  sets_ok st → sets_ok (UserRepository.setUserInterests st userId interests).2.
Proof.
  intros Hst. unfold UserRepository.setUserInterests.
  destruct (_ <? _); simpl; [done|].
  pose proof (sets_ok_del st (REDIS_KEYS.userInterests userId) Hst) as H1.
  set (st1 := Redis.del st (REDIS_KEYS.userInterests userId)) in *.
  assert (H2 : sets_ok
    (if 0 <? Z.of_nat (length interests)
     then Redis.hSet_flags st1 (REDIS_KEYS.userInterests userId) interests else st1)).
  { destruct (0 <? _); [|done]. by apply sets_ok_hSet_flags. }
  destruct (UserRepository.getUserProfile _ _); [|done].
  by eapply sets_ok_frame; [|exact H2].
Qed.

Lemma sets_ok_createOrUpdateUserProfile st now userId username interests :
  sets_ok st →
  sets_ok (UserRepository.createOrUpdateUserProfile st now userId username interests).2.
Proof.
  intros Hst. unfold UserRepository.createOrUpdateUserProfile.
  set (st1 := Redis.hSet_profile st _ _).
  assert (H1 : sets_ok st1) by by apply (sets_ok_frame st).
  destruct interests as [interests|]; [|done].
  destruct (0 <? _); [|done].
  pose proof (sets_ok_setUserInterests st1 userId interests H1) as H2.
  by destruct (UserRepository.setUserInterests st1 userId interests) as [[v|r] st2].
Qed.

Lemma store_ok_perform st a : fresh st a → store_ok st → store_ok (perform st a).
Proof.
  intros Hfresh Hst. destruct a; unfold perform.
  - by apply store_ok_exec.
  - apply (store_ok_quiet st); [apply same_rooms_deleteMessage
                               |apply shrinks_deleteMessage| |done].
    apply (sets_ok_frame st); [|apply (ok_sets st Hst)].
    by rewrite ClientFacts.deleteMessage_unchanged.
  - apply (store_ok_quiet st); [|apply shrinks_del| |done].
    + apply same_rooms_deleteAllMessages, (ok_indexed st Hst).
    + apply sets_ok_del, (ok_sets st Hst).
  - apply (store_ok_quiet st); [apply same_rooms_createOrUpdateUserProfile
                               |apply shrinks_createOrUpdateUserProfile| |done].
    apply sets_ok_createOrUpdateUserProfile, (ok_sets st Hst).
  - apply (store_ok_quiet st); [apply same_rooms_setUserInterests
                               |apply shrinks_setUserInterests| |done].
    apply sets_ok_setUserInterests, (ok_sets st Hst).
  - apply (store_ok_quiet st); [apply same_rooms_deleteUserData
                               |apply shrinks_deleteUserData| |done].
    unfold UserRepository.deleteUserData.
    apply sets_ok_del, sets_ok_del, sets_ok_del, (ok_sets st Hst).
  - apply (store_ok_quiet st); [apply same_rooms_updateUsername
                               |apply shrinks_updateUsername| |done].
    apply (sets_ok_frame st); [|apply (ok_sets st Hst)].
    unfold UserRepository.updateUsername.
    by destruct (UserRepository.getUserProfile st userId).
Qed.

Lemma store_ok_attainable st : attainable st → store_ok st.
Proof. induction 1; [apply store_ok_empty|by apply store_ok_perform]. Qed.

Lemma reachable_attainable st : reachable st → attainable st.
Proof.
  induction 1 as [|st c Hst IH Hfresh]; [constructor|].
  by apply (attainable_perform st (Repository c)).
Qed.

(** A history of calls that need no fresh id. *)
Lemma attainable_fold (actions : list Action) :
  Forall (λ a, ∀ st, fresh st a) actions →
  ∀ st, attainable st → attainable (fold_left perform actions st).
Proof.
  induction 1 as [|a actions Ha _ IH]; intros st Hst; simpl; [done|].
  apply IH. by apply attainable_perform.
Qed.

End Attainable.

(** ** Histories *)

Module HistoryFacts.
Import Attainable.

Lemma attainable_steps (actions : list Action) :
  ∀ st, attainable st → actions_fresh st actions →
        attainable (fold_left perform actions st).
Proof.
  induction actions as [|a actions IH]; intros st Hst Hfresh; simpl; [done|].
  destruct Hfresh as [Ha Hrest]. apply IH; [by apply attainable_perform|done].
Qed.

Lemma attainable_run (calls : list Call) :
  ∀ st, attainable st →
        actions_fresh st (map Repository calls) → attainable (run calls st).
Proof.
  unfold run. induction calls as [|c calls IH]; intros st Hst Hfresh; simpl; [done|].
  destruct Hfresh as [Hc Hrest].
  apply IH; [by apply (attainable_perform st (Repository c))|done].
Qed.

End HistoryFacts.

(** ** Joining, leaving and closing rooms *)

Module MembershipFacts.
Import HashFacts RoomFacts.

(** What [joinChatRoom] does to an active room. *)
Lemma joinChatRoom_active st now id userId room :
  ChatRoomRepository.getChatRoom st id = Some room →
  ChatRoom.isActive room = true →
  ChatRoomRepository.joinChatRoom st now id userId
  = (true,
     if bool_decide (userId ∈ ChatRoom.participants room) then st
     else Redis.hSet_room st (REDIS_KEYS.chatRoom id)
            (RoomHash.mk None None None None None
               (Some (ChatRoom.participants room ++ [userId])%list)
               (Some (Z.of_nat (length (ChatRoom.participants room ++ [userId])%list)))
               None None None (Some now))).
Proof.
  intros E Ha. unfold ChatRoomRepository.joinChatRoom. rewrite E, Ha. simpl.
  by case_bool_decide.
Qed.

Lemma joinChatRoom_inactive st now id userId :
  inactive_or_gone st id →
  ChatRoomRepository.joinChatRoom st now id userId = (false, st).
Proof.
  unfold inactive_or_gone, ChatRoomRepository.joinChatRoom.
  destruct (ChatRoomRepository.getChatRoom st id) as [room|]; [|done].
  by intros ->.
Qed.

(** A room is read from the room hashes alone, and creating a room touches
    the hash of that room only. *)
Lemma getChatRoom_createChatRoom_ne st id now title topic creatorId creatorUsername
    interests id' :
  id' ≠ id →
  ChatRoomRepository.getChatRoom
    (ChatRoomRepository.createChatRoom st id now title topic creatorId creatorUsername
       interests).2 id'
  = ChatRoomRepository.getChatRoom st id'.
Proof.
  intros Hne. unfold ChatRoomRepository.createChatRoom. simpl.
  match goal with
  | |- ChatRoomRepository.getChatRoom (fold_left _ _ (Redis.hSet_flag ?s _ _)) _ = _ =>
      rewrite (getChatRoom_frame s)
  end.
  - by apply getChatRoom_hSet_room_ne.
  - by destruct (Frame.fold_hSet_flag REDIS_KEYS.interestChatRooms id interests
                   (Redis.hSet_flag
                      (Redis.hSet_room st (REDIS_KEYS.chatRoom id)
                         (RoomHash.mk (Some id) (Some title) (Some topic) (Some creatorId)
                            (Some creatorUsername) (Some [creatorId]) (Some 1)
                            (Some interests) (Some true) (Some now) (Some now)))
                      REDIS_KEYS.activeChatRooms id)) as (-> & _).
Qed.

End MembershipFacts.

(** X1. Joining an active room succeeds.  A user who was not yet a participant
    is appended at the end of the list of participants, the stored count is
    the new length and the time of last activity is the time of the join;
    for a user who is already a participant the room is left as it is.  No
    other room and no index changes, and joining once more changes nothing. *)
Theorem joinChatRoom_adds_participant st now id userId room :
  ChatRoomRepository.getChatRoom st id = Some room →
  ChatRoom.isActive room = true →
  let result := ChatRoomRepository.joinChatRoom st now id userId in
  result.1 = true ∧
  ChatRoomRepository.getChatRoom result.2 id
  = Some (if bool_decide (userId ∈ ChatRoom.participants room) then room
          else with_participants room (ChatRoom.participants room ++ [userId]) now) ∧
  (∀ other, other ≠ id →
     ChatRoomRepository.getChatRoom result.2 other
     = ChatRoomRepository.getChatRoom st other) ∧
  (∀ key, Redis.hKeys result.2 key = Redis.hKeys st key) ∧
  (∀ now', ChatRoomRepository.joinChatRoom result.2 now' id userId = (true, result.2)).
Proof.
  intros E Ha result. unfold result.
  rewrite (MembershipFacts.joinChatRoom_active st now id userId room E Ha). simpl.
  case_bool_decide as Hin.
  - split; [done|]. split; [done|]. split; [done|]. split; [done|].
    intros now'. rewrite (MembershipFacts.joinChatRoom_active st now' id userId room E Ha).
    by rewrite bool_decide_eq_true_2.
  - set (st' := Redis.hSet_room st _ _).
    assert (E' : ChatRoomRepository.getChatRoom st' id
                 = Some (with_participants room
                           (ChatRoom.participants room ++ [userId]) now)).
    { unfold st'. by rewrite (HashFacts.getChatRoom_hSet_room st id _ room E). }
    split; [done|]. split; [done|]. split; [|split].
    + intros other Hne. unfold st'. by rewrite HashFacts.getChatRoom_hSet_room_ne.
    + intros key. by apply HashFacts.hKeys_frame.
    + intros now'.
      rewrite (MembershipFacts.joinChatRoom_active st' now' id userId _ E' Ha).
      rewrite bool_decide_eq_true_2; [done|].
      simpl. apply elem_of_app. right. by apply list_elem_of_singleton.
Qed.

Lemma joinChatRoom_adds_participant_witness :
  (ChatRoomRepository.joinChatRoom Sample.lobby (Sample.t0 + 5) Sample.room_A "t2_u3").1
  = true ∧
  (ChatRoom.participants <$>
     ChatRoomRepository.getChatRoom
       (ChatRoomRepository.joinChatRoom Sample.lobby (Sample.t0 + 5) Sample.room_A
          "t2_u3").2 Sample.room_A)
  = Some ["t2_u1"; "t2_u3"].
Proof.
  destruct (ChatRoomRepository.getChatRoom Sample.lobby Sample.room_A) as [room|] eqn:E;
    [|vm_compute in E; discriminate].
  destruct (joinChatRoom_adds_participant Sample.lobby (Sample.t0 + 5) Sample.room_A
              "t2_u3" room E) as (H1 & H2 & _).
  - vm_compute in E. by injection E as <-.
  - split; [exact H1|]. rewrite H2. vm_compute in E. injection E as <-.
    vm_compute. reflexivity.
Defined.

(** ** Rooms that were deactivated *)

Module ClosedFacts.
Import HashFacts RoomFacts IndexInvariant ViewFacts MembershipFacts.

Lemma inactive_same st st' id :
  same_rooms st st' → inactive_or_gone st id → inactive_or_gone st' id.
Proof. intros (Hr & _ & _). unfold inactive_or_gone. by rewrite Hr. Qed.

Lemma inactive_hSet_room st id chatRoomId fields :
  RoomHash.id fields = None → RoomHash.isActive fields ≠ Some true →
  inactive_or_gone st id →
  inactive_or_gone (Redis.hSet_room st (REDIS_KEYS.chatRoom chatRoomId) fields) id.
Proof.
  intros Hid Hact. unfold inactive_or_gone.
  destruct (decide (chatRoomId = id)) as [->|Hne].
  - destruct (ChatRoomRepository.getChatRoom st id) as [room|] eqn:E.
    + rewrite (getChatRoom_hSet_room st id fields room E Hid). simpl.
      intros ->. by destruct (RoomHash.isActive fields) as [[|]|].
    + by rewrite (getChatRoom_hSet_room_absent st id fields E Hid).
  - by rewrite getChatRoom_hSet_room_ne.
Qed.

Lemma inactive_deactivate st id chatRoomId :
  inactive_or_gone st id →
  inactive_or_gone (ChatRoomRepository.deactivateChatRoom st chatRoomId) id.
Proof.
  destruct (ChatRoomRepository.getChatRoom st chatRoomId) as [room|] eqn:E;
    [|by rewrite deactivate_absent].
  unfold inactive_or_gone. rewrite (getChatRoom_deactivate st chatRoomId room id E).
  by destruct (decide (id = chatRoomId)).
Qed.

Lemma inactive_del st id key :
  inactive_or_gone st id → inactive_or_gone (Redis.del st key) id.
Proof.
  unfold inactive_or_gone. rewrite getChatRoom_del. by destruct (decide _).
Qed.

Lemma inactive_exec st id c :
  ¬ creates id (Repository c) → inactive_or_gone st id → inactive_or_gone (exec st c) id.
Proof.
  intros Hc Hst. destruct c; unfold exec.
  - unfold inactive_or_gone. rewrite getChatRoom_createChatRoom_ne; [done|].
    intros ->. apply Hc. by do 6 eexists.
  - unfold ChatRoomRepository.joinChatRoom.
    destruct (ChatRoomRepository.getChatRoom st chatRoomId) as [room|]; [|done].
    destruct (negb _); [done|]. case_bool_decide; [done|].
    by apply inactive_hSet_room.
  - unfold ChatRoomRepository.leaveChatRoom.
    destruct (ChatRoomRepository.getChatRoom st chatRoomId) as [room|]; [|done].
    case_bool_decide; simpl.
    + by apply inactive_deactivate.
    + by apply inactive_hSet_room.
  - by apply inactive_hSet_room.
  - by apply inactive_deactivate.
  - unfold ChatRoomRepository.deleteChatRoom.
    destruct (ChatRoomRepository.getChatRoom st chatRoomId) as [room|]; [|done].
    case_bool_decide; [done|]. simpl.
    by apply inactive_del, inactive_del, inactive_deactivate.
  - eapply inactive_same; [apply same_rooms_createMessage|done].
  - eapply inactive_same; [apply same_rooms_addUserToActiveChat|done].
  - eapply inactive_same; [apply same_rooms_removeUserFromActiveChat|done].
Qed.

Lemma inactive_perform st id a :
  ¬ creates id a → inactive_or_gone st id → inactive_or_gone (perform st a) id.
Proof.
  intros Hc Hst. destruct a; unfold perform.
  - by apply inactive_exec.
  - eapply inactive_same; [apply same_rooms_deleteMessage|done].
  - by apply inactive_del.
  - eapply inactive_same; [apply same_rooms_createOrUpdateUserProfile|done].
  - eapply inactive_same; [apply same_rooms_setUserInterests|done].
  - eapply inactive_same; [apply same_rooms_deleteUserData|done].
  - eapply inactive_same; [apply same_rooms_updateUsername|done].
Qed.

End ClosedFacts.

(** X2. A room that was deactivated is never active again: whatever the
    repositories are called with afterwards, short of creating a room with
    the same id anew, the room stays inactive (or is deleted), and every
    [joinChatRoom] into it is refused and leaves the store as it is. *)
Theorem deactivated_room_stays_closed st id actions :
  inactive_or_gone st id →
  Forall (λ a, ¬ creates id a) actions →
  let st' := fold_left perform actions st in
  inactive_or_gone st' id ∧
  ∀ now userId, ChatRoomRepository.joinChatRoom st' now id userId = (false, st').
Proof.
  intros Hst Hactions st'.
  assert (H : inactive_or_gone st' id).
  { unfold st'. clear st'. revert st Hst.
    induction Hactions as [|a actions Ha _ IH]; intros st Hst; simpl; [done|].
    by apply IH, ClosedFacts.inactive_perform. }
  split; [done|]. intros now userId. by apply MembershipFacts.joinChatRoom_inactive.
Qed.

Lemma deactivated_room_stays_closed_witness :
  inactive_or_gone
    (fold_left perform
       [Repository (UpdateLastActivity (Sample.t0 + 2) Sample.room_B);
        Repository (JoinChatRoom (Sample.t0 + 3) Sample.room_B "t2_u3");
        SetUserInterests "t2_u3" ["music"]]
       Sample.closed_B) Sample.room_B ∧
  (ChatRoomRepository.joinChatRoom Sample.closed_B (Sample.t0 + 3) Sample.room_B
     "t2_u3").1 = false.
Proof.
  split.
  - apply (deactivated_room_stays_closed Sample.closed_B Sample.room_B
             [Repository (UpdateLastActivity (Sample.t0 + 2) Sample.room_B);
              Repository (JoinChatRoom (Sample.t0 + 3) Sample.room_B "t2_u3");
              SetUserInterests "t2_u3" ["music"]]).
    + vm_compute. reflexivity.
    + repeat constructor; intros (? & ? & ? & ? & ? & ? & ?); discriminate.
  - destruct (deactivated_room_stays_closed Sample.closed_B Sample.room_B []) as [_ H].
    + vm_compute. reflexivity.
    + constructor.
    + simpl in H. by rewrite (H (Sample.t0 + 3) "t2_u3").
Defined.

(** X3. In every attainable store a room that is read back carries the id it
    is stored under, which is non-empty and holds no [:]; it has a title, a
    topic and a creator; nobody is listed twice among its participants; and
    as long as it is active it has at least one participant. *)
Theorem rooms_are_well_formed st id room :
  attainable st →
  ChatRoomRepository.getChatRoom st id = Some room →
  ChatRoom.id room = id ∧ id ≠ EmptyString ∧ colon_free id = true ∧
  is_Some (ChatRoom.title room) ∧ is_Some (ChatRoom.topic room) ∧
  is_Some (ChatRoom.creatorId room) ∧
  NoDup (ChatRoom.participants room) ∧
  (ChatRoom.isActive room = true → ChatRoom.participants room ≠ []).
Proof.
  intros Hst E. apply Attainable.store_ok_attainable in Hst.
  destruct (room_keyed st (ok_indexed st Hst) id room E) as [Hid Hcolon].
  destruct (ok_rooms st Hst id room E) as [H1 H2 H3 H4 H5].
  split; [done|]. split.
  - intros ->. unfold ChatRoomRepository.getChatRoom in E.
    destruct (RoomHash.id _) as [[|c s]|]; try done.
    injection E as <-. by simpl in Hid.
  - done.
Qed.

Lemma rooms_are_well_formed_witness :
  NoDup ["t2_u1"; "t2_u2"] ∧ colon_free Sample.room_id = true.
Proof.
  assert (Hst : attainable Sample.club).
  { apply HistoryFacts.attainable_run; [constructor|].
    vm_compute. repeat split; discriminate. }
  destruct (ChatRoomRepository.getChatRoom Sample.club Sample.room_id) as [room|] eqn:E;
    [|vm_compute in E; discriminate].
  destruct (rooms_are_well_formed Sample.club Sample.room_id room Hst E)
    as (_ & _ & Hcolon & _ & _ & _ & Hnd & _).
  vm_compute in E. injection E as <-. by split.
Defined.

(** ** What the listings show *)

Module DiscoveryFacts.
Import SortFacts.

Lemma NoDup_omap {A B} (f : A → option B) (g : B → A) (l : list A) :
  (∀ x y, f x = Some y → g y = x) → NoDup l → NoDup (omap f l).
Proof.
  intros Hg. induction 1 as [|x l Hx Hl IH]; simpl; [apply NoDup_nil_2|].
  destruct (f x) as [y|] eqn:E; [|done].
  apply NoDup_cons. split; [|done].
  intros Hy. apply list_elem_of_omap in Hy as (x' & Hx' & E').
  apply Hg in E, E'. congruence.
Qed.

(** The rooms read for a list of ids, in an attainable store. *)
Lemma activeRoomsOf_NoDup st ids :
  rooms_indexed st → NoDup ids → NoDup (ChatRoomRepository.activeRoomsOf st ids).
Proof.
  intros Hst. unfold ChatRoomRepository.activeRoomsOf.
  apply (NoDup_omap _ ChatRoom.id). intros id room.
  destruct (ChatRoomRepository.getChatRoom st id) as [r|] eqn:E; [|done].
  destruct (ChatRoom.isActive r); [|done]. intros [= <-].
  by destruct (room_keyed st Hst id r E).
Qed.

Lemma elem_of_getActiveChatRooms st room :
  store_ok st →
  room ∈ ChatRoomRepository.getActiveChatRooms st
  ↔ ChatRoomRepository.getChatRoom st (ChatRoom.id room) = Some room ∧
    ChatRoom.isActive room = true.
Proof.
  intros Hst. unfold ChatRoomRepository.getActiveChatRooms.
  rewrite elem_of_sortBy, elem_of_activeRoomsOf. split.
  - intros (id & Hin & E & Ha).
    destruct (room_keyed st (ok_indexed st Hst) id room E) as [-> _]. done.
  - intros [E Ha]. exists (ChatRoom.id room). split; [|done].
    by destruct (active_listed st (ok_listed st Hst) _ room E Ha).
Qed.

Lemma elem_of_getChatRoomsByInterests st tags room :
  store_ok st → tags ≠ [] →
  room ∈ ChatRoomRepository.getChatRoomsByInterests st tags
  ↔ ChatRoomRepository.getChatRoom st (ChatRoom.id room) = Some room ∧
    ChatRoom.isActive room = true ∧
    ∃ tag, tag ∈ tags ∧ tag ∈ ChatRoom.interests room.
Proof.
  intros Hst Hne. unfold ChatRoomRepository.getChatRoomsByInterests.
  destruct tags as [|t tags]; [done|].
  rewrite elem_of_sortBy, elem_of_activeRoomsOf.
  destruct (collectIds_spec st (t :: tags)) as [_ Hids]. split.
  - intros (id & Hin & E & Ha).
    destruct (room_keyed st (ok_indexed st Hst) id room E) as [-> _].
    split; [done|]. split; [done|].
    apply Hids in Hin as (tag & Htag & Hin). exists tag. split; [done|].
    destruct (interest_indexed st (ok_indexed st Hst) tag _ Hin) as (r & E' & Hr).
    congruence.
  - intros (E & Ha & tag & Htag & Hi). exists (ChatRoom.id room). split; [|done].
    apply Hids. exists tag. split; [done|].
    destruct (active_listed st (ok_listed st Hst) _ room E Ha) as [_ Htags].
    by apply Htags.
Qed.

Lemma getActiveChatRooms_NoDup st :
  store_ok st → NoDup (ChatRoomRepository.getActiveChatRooms st).
Proof.
  intros Hst. unfold ChatRoomRepository.getActiveChatRooms.
  rewrite sortBy_perm. apply activeRoomsOf_NoDup; [apply (ok_indexed st Hst)|].
  apply (ok_sets st Hst).
Qed.

Lemma getChatRoomsByInterests_NoDup st tags :
  store_ok st → NoDup (ChatRoomRepository.getChatRoomsByInterests st tags).
Proof.
  intros Hst. unfold ChatRoomRepository.getChatRoomsByInterests.
  destruct tags as [|t tags]; [by apply getActiveChatRooms_NoDup|].
  rewrite sortBy_perm. apply activeRoomsOf_NoDup; [apply (ok_indexed st Hst)|].
  apply collectIds_spec.
Qed.

End DiscoveryFacts.

(** X4. In every attainable store the listings show the active rooms, all of
    them and each once: [getActiveChatRooms] returns exactly the rooms that
    [getChatRoom] reads as active, and for a non-empty list of tags
    [getChatRoomsByInterests] returns exactly the active rooms that carry
    at least one of the tags. *)
Theorem listings_show_the_active_rooms st :
  attainable st →
  (∀ room,
     room ∈ ChatRoomRepository.getActiveChatRooms st
     ↔ ChatRoomRepository.getChatRoom st (ChatRoom.id room) = Some room ∧
       ChatRoom.isActive room = true) ∧
  NoDup (ChatRoomRepository.getActiveChatRooms st) ∧
  (∀ tags room,
     tags ≠ [] →
     room ∈ ChatRoomRepository.getChatRoomsByInterests st tags
     ↔ ChatRoomRepository.getChatRoom st (ChatRoom.id room) = Some room ∧
       ChatRoom.isActive room = true ∧
       ∃ tag, tag ∈ tags ∧ tag ∈ ChatRoom.interests room) ∧
  (∀ tags, NoDup (ChatRoomRepository.getChatRoomsByInterests st tags)).
Proof.
  intros Hst. apply Attainable.store_ok_attainable in Hst.
  split; [intros room; by apply DiscoveryFacts.elem_of_getActiveChatRooms|].
  split; [by apply DiscoveryFacts.getActiveChatRooms_NoDup|].
  split; [intros tags room Hne; by apply DiscoveryFacts.elem_of_getChatRoomsByInterests|].
  intros tags. by apply DiscoveryFacts.getChatRoomsByInterests_NoDup.
Qed.

Lemma listings_show_the_active_rooms_witness :
  NoDup (ChatRoomRepository.getActiveChatRooms Sample.closed_B) ∧
  ∀ room, room ∈ ChatRoomRepository.getChatRoomsByInterests Sample.closed_B ["music"]
          → ChatRoom.isActive room = true.
Proof.
  assert (Hst : attainable Sample.closed_B).
  { apply (HistoryFacts.attainable_run
             (Sample.two_rooms ++ [LeaveChatRoom (Sample.t0 + 1) Sample.room_B "t2_u2"])%list);
      [constructor|].
    vm_compute. repeat split; discriminate. }
  destruct (listings_show_the_active_rooms Sample.closed_B Hst) as (_ & H2 & H3 & _).
  split; [exact H2|]. intros room Hin. by apply (H3 ["music"] room) in Hin as (_ & ? & _).
Defined.

(** X5. When somebody else remains, [leaveChatRoom] removes the user: the
    participants read back are the former ones without the user, in their
    former order, the stored count is their number and the time of last
    activity is the time of the call; the room keeps its place in every
    index, and no other room changes. *)
Theorem leaveChatRoom_removes_participant st now id userId room :
  ChatRoomRepository.getChatRoom st id = Some room →
  filter (λ p, p ≠ userId) (ChatRoom.participants room) ≠ [] →
  let result := ChatRoomRepository.leaveChatRoom st now id userId in
  let remaining := filter (λ p, p ≠ userId) (ChatRoom.participants room) in
  result.1 = true ∧
  ChatRoomRepository.getChatRoom result.2 id
  = Some (with_participants room remaining now) ∧
  (userId ∉ remaining) ∧
  (∀ p, p ∈ ChatRoom.participants room → p ≠ userId → p ∈ remaining) ∧
  remaining `sublist_of` ChatRoom.participants room ∧
  (∀ other, other ≠ id →
     ChatRoomRepository.getChatRoom result.2 other
     = ChatRoomRepository.getChatRoom st other) ∧
  (∀ key, Redis.hKeys result.2 key = Redis.hKeys st key).
Proof.
  intros E Hrest result remaining. unfold result.
  rewrite (RoomFacts.leaveChatRoom_others_remain st now id userId room E Hrest). simpl.
  split; [done|]. split.
  { by rewrite (HashFacts.getChatRoom_hSet_room st id _ room E). }
  split. { unfold remaining. rewrite list_elem_of_filter. by intros [? _]. }
  split. { intros p Hp Hne. unfold remaining. by rewrite list_elem_of_filter. }
  split; [apply sublist_filter|]. split.
  - intros other Hne. by rewrite HashFacts.getChatRoom_hSet_room_ne.
  - intros key. by apply HashFacts.hKeys_frame.
Qed.

Lemma leaveChatRoom_removes_participant_witness :
  (ChatRoom.participants <$>
     ChatRoomRepository.getChatRoom
       (ChatRoomRepository.leaveChatRoom Sample.club (Sample.t0 + 3) Sample.room_id
          "t2_u1").2 Sample.room_id)
  = Some ["t2_u2"].
Proof.
  destruct (ChatRoomRepository.getChatRoom Sample.club Sample.room_id) as [room|] eqn:E;
    [|vm_compute in E; discriminate].
  destruct (leaveChatRoom_removes_participant Sample.club (Sample.t0 + 3) Sample.room_id
              "t2_u1" room E) as (_ & H2 & _).
  - vm_compute in E. injection E as <-. vm_compute. discriminate.
  - rewrite H2. vm_compute in E. injection E as <-. vm_compute. reflexivity.
Defined.

(** ** Deleting a room *)

Module DeleteFacts.
Import HashFacts RoomFacts IndexInvariant ShrinkFacts.

Lemma deleteChatRoom_creator st id userId room :
  ChatRoomRepository.getChatRoom st id = Some room →
  ChatRoom.creatorId room = Some userId →
  ChatRoomRepository.deleteChatRoom st id userId
  = (true,
     Redis.del (Redis.del (ChatRoomRepository.deactivateChatRoom st id)
                  (REDIS_KEYS.chatRoom id))
       (REDIS_KEYS.chatRoomMessages id)).
Proof.
  intros E Hc. unfold ChatRoomRepository.deleteChatRoom. rewrite E.
  by rewrite bool_decide_eq_false_2 by (intros H; by apply H).
Qed.

End DeleteFacts.

(** X6. In an attainable store, when its creator deletes a room
    [deleteChatRoom] returns [true]; afterwards the room cannot be read, its
    id is in no index and in no listing, its message log is empty, and
    every other room and every other log is as before. *)
Theorem deleteChatRoom_by_creator st id userId room :
  attainable st →
  ChatRoomRepository.getChatRoom st id = Some room →
  ChatRoom.creatorId room = Some userId →
  let result := ChatRoomRepository.deleteChatRoom st id userId in
  result.1 = true ∧
  ChatRoomRepository.getChatRoom result.2 id = None ∧
  (id ∉ Redis.hKeys result.2 REDIS_KEYS.activeChatRooms) ∧
  (∀ tag, id ∉ Redis.hKeys result.2 (REDIS_KEYS.interestChatRooms tag)) ∧
  (∀ r, r ∈ ChatRoomRepository.getActiveChatRooms result.2 → ChatRoom.id r ≠ id) ∧
  messageLog result.2 id = [] ∧
  (∀ limit before, MessageRepository.getMessages result.2 id limit before = []) ∧
  (∀ other, other ≠ id →
     ChatRoomRepository.getChatRoom result.2 other
     = ChatRoomRepository.getChatRoom st other ∧
     messageLog result.2 other = messageLog st other).
Proof.
  intros Hatt E Hc result. unfold result.
  rewrite (DeleteFacts.deleteChatRoom_creator st id userId room E Hc). simpl.
  pose proof (Attainable.store_ok_attainable st Hatt) as Hst.
  pose proof (ok_indexed st Hst) as Hix.
  destruct (room_keyed st Hix id room E) as [_ Hcolon].
  set (st1 := ChatRoomRepository.deactivateChatRoom st id).
  set (st3 := Redis.del (Redis.del st1 _) _).
  assert (Hgone : ChatRoomRepository.getChatRoom st3 id = None).
  { unfold st3. rewrite !IndexInvariant.getChatRoom_del.
    destruct (decide _); [done|]. by rewrite decide_True. }
  assert (Hact : id ∉ Redis.hKeys st3 REDIS_KEYS.activeChatRooms).
  { unfold st3. rewrite !IndexInvariant.hKeys_del.
    rewrite decide_False by apply KeyFacts.chatRoomMessages_not_active.
    rewrite decide_False by apply KeyFacts.chatRoom_not_active.
    intros Hin. apply (RoomFacts.elem_of_hKeys_deactivate st id room _ _ E) in Hin.
    destruct Hin as [_ Hn]. apply Hn. split; [done|by left]. }
  assert (Hlog : messageLog st3 id = []).
  { unfold messageLog, st3. rewrite ShrinkFacts.zGet_del. by rewrite decide_True. }
  split; [done|]. split; [done|]. split; [done|]. split.
  { intros tag. unfold st3. rewrite !IndexInvariant.hKeys_del.
    rewrite decide_False by apply KeyFacts.chatRoomMessages_not_interest.
    rewrite decide_False by apply KeyFacts.chatRoom_not_interest.
    apply IndexInvariant.deactivate_unindexed; [done|by eexists]. }
  split.
  { intros r Hr Hid. unfold ChatRoomRepository.getActiveChatRooms in Hr.
    rewrite SortFacts.elem_of_sortBy, SortFacts.elem_of_activeRoomsOf in Hr.
    destruct Hr as (id' & Hin & E' & _).
    destruct (decide (id' = id)) as [->|Hne]; [congruence|].
    assert (E1 : ChatRoomRepository.getChatRoom st1 id' = Some r).
    { unfold st3 in E'. rewrite !IndexInvariant.getChatRoom_del in E'.
      by repeat (destruct (decide _); [done|]). }
    unfold st1 in E1. rewrite (RoomFacts.getChatRoom_deactivate st id room id' E) in E1.
    rewrite decide_False in E1 by done.
    destruct (room_keyed st Hix id' r E1) as [? _]. congruence. }
  split; [done|]. split.
  { intros limit before. apply ClientFacts.getMessages_nil. }
  intros other Hne. split.
  - unfold st3. rewrite !IndexInvariant.getChatRoom_del.
    unfold st1. rewrite (RoomFacts.getChatRoom_deactivate st id room other E).
    rewrite (decide_False (P := other = id)) by done.
    rewrite (decide_False (P := REDIS_KEYS.chatRoom other = REDIS_KEYS.chatRoom id))
      by (intros Heq; by apply KeyFacts.chatRoom_inj in Heq).
    destruct (decide _) as [Heq|]; [|done].
    destruct (ChatRoomRepository.getChatRoom st other) as [r|] eqn:E'; [|done].
    destruct (room_keyed st Hix other r E') as [_ Hc'].
    symmetry in Heq. by apply KeyFacts.chatRoomMessages_not_chatRoom in Heq.
  - unfold messageLog, st3. rewrite !ShrinkFacts.zGet_del.
    rewrite decide_False
      by (intros Heq; by apply UserKeyFacts.chatRoomMessages_inj in Heq).
    rewrite decide_False
      by (intros Heq; symmetry in Heq;
          by apply KeyFacts.chatRoomMessages_not_chatRoom in Heq).
    unfold st1. unfold Redis.zGet.
    by rewrite Frame.deactivateChatRoom_sortedSets.
Qed.

Lemma deleteChatRoom_by_creator_witness :
  (ChatRoomRepository.deleteChatRoom Sample.club_end Sample.room_id "t2_u1").1 = true ∧
  messageLog
    (ChatRoomRepository.deleteChatRoom Sample.club_end Sample.room_id "t2_u1").2
    Sample.room_id = [].
Proof.
  assert (Hst : attainable Sample.club_end).
  { apply HistoryFacts.attainable_run; [constructor|].
    vm_compute. repeat split; discriminate. }
  destruct (ChatRoomRepository.getChatRoom Sample.club_end Sample.room_id)
    as [room|] eqn:E; [|vm_compute in E; discriminate].
  destruct (deleteChatRoom_by_creator Sample.club_end Sample.room_id "t2_u1" room Hst E)
    as (H1 & _ & _ & _ & _ & H6 & _).
  - vm_compute in E. by injection E as <-.
  - split; [exact H1|exact H6].
Defined.

Module ActivityFacts.
Import HashFacts SortFacts DiscoveryFacts.

Lemma updateLastActivity_attainable st now id :
  attainable st → attainable (ChatRoomRepository.updateLastActivity st now id).
Proof.
  intros Hst. by apply (attainable_perform st (Repository (UpdateLastActivity now id))).
Qed.

Lemma getChatRoom_updateLastActivity st now id room :
  ChatRoomRepository.getChatRoom st id = Some room →
  ChatRoomRepository.getChatRoom (ChatRoomRepository.updateLastActivity st now id) id
  = Some (with_lastActivity room now).
Proof.
  intros E. unfold ChatRoomRepository.updateLastActivity.
  by rewrite (getChatRoom_hSet_room st id _ room E).
Qed.

(** The head of a listing sorted by the time of last activity is the room
    with the latest one, when there is only one such room. *)
Lemma latest_is_first (l : list ChatRoom.t) (top : ChatRoom.t) :
  top ∈ sortBy ChatRoomRepository.byLastActivity l →
  (∀ r, r ∈ l → r = top ∨ ChatRoom.lastActivity r < ChatRoom.lastActivity top) →
  head (sortBy ChatRoomRepository.byLastActivity l) = Some top.
Proof.
  intros Hin Hlate.
  pose proof (sortBy_sorted ChatRoomRepository.byLastActivity
                ltac:(intros a b; unfold ChatRoomRepository.byLastActivity; lia)
                ltac:(intros a b c; unfold ChatRoomRepository.byLastActivity; lia) l)
    as Hsorted.
  assert (Hmem : ∀ r, r ∈ sortBy ChatRoomRepository.byLastActivity l → r ∈ l).
  { intros r. by rewrite elem_of_sortBy. }
  destruct (sortBy ChatRoomRepository.byLastActivity l) as [|h t];
    [by apply elem_of_nil in Hin|].
  simpl. f_equal. apply elem_of_cons in Hin as [->|Hin]; [done|].
  apply StronglySorted_inv in Hsorted as [_ Hh]. rewrite Forall_forall in Hh.
  specialize (Hh top Hin). unfold ChatRoomRepository.byLastActivity in Hh.
  destruct (Hlate h (Hmem h ltac:(by left))) as [->|Hlt]; [done|lia].
Qed.

End ActivityFacts.

(** X7. In an attainable store [updateLastActivity] on an id that names no
    room creates none and leaves the listing as it is.  On an active room,
    at a time later than the last activity of every listed room, it changes
    the time of last activity of that room and nothing else of it, and the
    room moves to the first place of [getActiveChatRooms], which otherwise
    lists the same rooms. *)
Theorem updateLastActivity_moves_to_front st now id :
  attainable st →
  let st' := ChatRoomRepository.updateLastActivity st now id in
  (ChatRoomRepository.getChatRoom st id = None →
   ChatRoomRepository.getChatRoom st' id = None ∧
   ChatRoomRepository.getActiveChatRooms st' = ChatRoomRepository.getActiveChatRooms st) ∧
  (∀ room,
     ChatRoomRepository.getChatRoom st id = Some room →
     ChatRoom.isActive room = true →
     (∀ r, r ∈ ChatRoomRepository.getActiveChatRooms st → ChatRoom.lastActivity r < now) →
     ChatRoomRepository.getChatRoom st' id = Some (with_lastActivity room now) ∧
     head (ChatRoomRepository.getActiveChatRooms st') = Some (with_lastActivity room now) ∧
     (∀ r, r ∈ ChatRoomRepository.getActiveChatRooms st'
           ↔ r = with_lastActivity room now ∨
             (r ∈ ChatRoomRepository.getActiveChatRooms st ∧ r ≠ room))).
Proof.
  intros Hatt st'.
  pose proof (Attainable.store_ok_attainable st Hatt) as Hst.
  pose proof (Attainable.store_ok_attainable st'
                (ActivityFacts.updateLastActivity_attainable st now id Hatt)) as Hst'.
  assert (Hother : ∀ other, other ≠ id →
    ChatRoomRepository.getChatRoom st' other = ChatRoomRepository.getChatRoom st other).
  { intros other Hne. unfold st', ChatRoomRepository.updateLastActivity.
    by rewrite HashFacts.getChatRoom_hSet_room_ne. }
  split.
  - intros E.
    assert (E' : ChatRoomRepository.getChatRoom st' id = None).
    { unfold st', ChatRoomRepository.updateLastActivity.
      by rewrite (HashFacts.getChatRoom_hSet_room_absent st id _ E). }
    split; [done|]. unfold ChatRoomRepository.getActiveChatRooms.
    rewrite (HashFacts.hKeys_frame st st') by done. f_equal.
    unfold ChatRoomRepository.activeRoomsOf.
    apply list_omap_ext, Forall_Forall2_diag, Forall_forall. intros x _.
    destruct (decide (x = id)) as [->|Hne]; [by rewrite E, E'|by rewrite Hother].
  - intros room E Ha Hlate.
    pose proof (ActivityFacts.getChatRoom_updateLastActivity st now id room E) as E'.
    fold st' in E'.
    destruct (room_keyed st (ok_indexed st Hst) id room E) as [Hid _].
    assert (Hmem : ∀ r, r ∈ ChatRoomRepository.getActiveChatRooms st'
      ↔ r = with_lastActivity room now ∨
        (r ∈ ChatRoomRepository.getActiveChatRooms st ∧ r ≠ room)).
    { intros r. rewrite !DiscoveryFacts.elem_of_getActiveChatRooms by done. split.
      - intros [Er Har]. destruct (decide (ChatRoom.id r = id)) as [Heq|Hne].
        + left. rewrite Heq in Er. congruence.
        + right. rewrite Hother in Er by done. split; [done|]. intros ->. by apply Hne.
      - intros [->|[[Er Har] Hne]].
        + simpl. rewrite Hid. done.
        + split; [|done]. rewrite Hother; [done|]. intros Heq. apply Hne.
          rewrite Heq in Er. congruence. }
    split; [done|]. split; [|done].
    unfold ChatRoomRepository.getActiveChatRooms.
    apply ActivityFacts.latest_is_first.
    + apply Hmem. by left.
    + intros r Hr.
      assert (Hr' : r ∈ ChatRoomRepository.getActiveChatRooms st').
      { unfold ChatRoomRepository.getActiveChatRooms. by rewrite SortFacts.elem_of_sortBy. }
      apply Hmem in Hr' as [->|[Hr' _]]; [by left|]. right. simpl. by apply Hlate.
Qed.

Lemma updateLastActivity_moves_to_front_witness :
  (ChatRoom.id <$>
     head (ChatRoomRepository.getActiveChatRooms
             (ChatRoomRepository.updateLastActivity Sample.lobby (Sample.t0 + 7)
                Sample.room_B)))
  = Some Sample.room_B.
Proof.
  assert (Hst : attainable Sample.lobby).
  { apply HistoryFacts.attainable_run; [constructor|].
    vm_compute. repeat split; discriminate. }
  destruct (ChatRoomRepository.getChatRoom Sample.lobby Sample.room_B) as [room|] eqn:E;
    [|vm_compute in E; discriminate].
  destruct (updateLastActivity_moves_to_front Sample.lobby (Sample.t0 + 7) Sample.room_B
              Hst) as [_ H].
  destruct (H room E) as (_ & H2 & _).
  - vm_compute in E. by injection E as <-.
  - refine (proj1 (Forall_forall
                     (λ r, ChatRoom.lastActivity r < Sample.t0 + 7)
                     (ChatRoomRepository.getActiveChatRooms Sample.lobby)) _).
    apply (bool_decide_unpack _). vm_compute. exact I.
  - rewrite H2. vm_compute in E. injection E as <-. reflexivity.
Defined.

Module CountFacts.
Import SortFacts DiscoveryFacts.

(** The index of a tag holds the ids of the active rooms that carry it. *)
Lemma index_is_tagged_rooms st tag :
  store_ok st →
  ChatRoom.id <$> filter (λ r, tag ∈ ChatRoom.interests r)
                    (ChatRoomRepository.getActiveChatRooms st)
  ≡ₚ Redis.hKeys st (REDIS_KEYS.interestChatRooms tag).
Proof.
  intros Hst. apply NoDup_Permutation.
  - apply NoDup_fmap_2_strong.
    + intros a b Ha Hb Heq.
      apply list_elem_of_filter in Ha as [_ Ha], Hb as [_ Hb].
      apply (elem_of_getActiveChatRooms st a Hst) in Ha as [Ea _].
      apply (elem_of_getActiveChatRooms st b Hst) in Hb as [Eb _].
      rewrite Heq in Ea. congruence.
    + apply NoDup_filter. by apply getActiveChatRooms_NoDup.
  - apply (ok_sets st Hst).
  - intros id. rewrite list_elem_of_fmap. split.
    + intros (r & -> & Hr). apply list_elem_of_filter in Hr as [Htag Hr].
      apply (elem_of_getActiveChatRooms st r Hst) in Hr as [E Ha].
      destruct (active_listed st (ok_listed st Hst) _ r E Ha) as [_ Htags].
      by apply Htags.
    + intros Hin.
      destruct (tagged_active st (ok_listed st Hst) tag id Hin) as (r & E & Ha).
      destruct (interest_indexed st (ok_indexed st Hst) tag id Hin) as (r' & E' & Htag).
      destruct (room_keyed st (ok_indexed st Hst) id r E) as [Hid _].
      exists r. split; [done|]. apply list_elem_of_filter. split; [congruence|].
      apply (elem_of_getActiveChatRooms st r Hst). by rewrite Hid.
Qed.

End CountFacts.

(** X8. In an attainable store GET /api/interests reports, for each tag of
    the catalogue, the number of active rooms that carry the tag; it
    changes nothing and sends nothing. *)
Theorem getInterests_counts_active_rooms st :
  attainable st →
  Handlers.getInterests st
  = mkOutcome
      (Success 200
         (map (λ tag,
                 (tag,
                  Z.of_nat (length (filter (λ r, tag ∈ ChatRoom.interests r)
                                      (ChatRoomRepository.getActiveChatRooms st)))))
              INTEREST_TAG_IDS))
      st [].
Proof.
  intros Hst. apply Attainable.store_ok_attainable in Hst.
  unfold Handlers.getInterests. f_equal. f_equal.
  apply map_ext. intros tag. f_equal. f_equal.
  rewrite <- (CountFacts.index_is_tagged_rooms st tag Hst).
  by rewrite length_fmap.
Qed.

Lemma getInterests_counts_active_rooms_witness :
  response (Handlers.getInterests Sample.closed_B)
  = Success 200
      [("gaming", 1); ("technology", 0); ("music", 1); ("movies", 0); ("sports", 0);
       ("food", 0); ("travel", 0); ("books", 0); ("art", 0); ("science", 0);
       ("fitness", 0); ("photography", 0)].
Proof.
  assert (Hst : attainable Sample.closed_B).
  { apply (HistoryFacts.attainable_run
             (Sample.two_rooms ++ [LeaveChatRoom (Sample.t0 + 1) Sample.room_B "t2_u2"])%list);
      [constructor|].
    vm_compute. repeat split; discriminate. }
  rewrite (getInterests_counts_active_rooms Sample.closed_B Hst).
  vm_compute. reflexivity.
Defined.

(** ** The text of a message determines the message *)

Module JsonFacts.

Lemma append_cons (c : ascii) (s t : string) :
  (String c s ++ t)%string = String c (s ++ t).
Proof. reflexivity. Qed.

Lemma append_assoc (a b c : string) : ((a ++ b) ++ c)%string = (a ++ (b ++ c))%string.
Proof. induction a as [|x a IH]; [done|]. by rewrite !append_cons, IH. Qed.

Lemma prefix_cons (a b : ascii) (x y : string) :
  String.prefix (String a x) (String b y) = true ↔ a = b ∧ String.prefix x y = true.
Proof. simpl. destruct (ascii_dec a b); intuition congruence. Qed.

(** Of two strings that begin one and the same string, one begins the other. *)
Lemma common_prefix (x : string) : ∀ y u v : string,
  (x ++ u)%string = (y ++ v)%string →
  String.prefix x y = true ∨ String.prefix y x = true.
Proof.
  induction x as [|a x IH]; intros [|b y] u v H.
  - by left.
  - by left.
  - by right.
  - rewrite !append_cons in H. injection H as -> H.
    destruct (IH y u v H) as [Hp|Hp]; [left|right]; by apply prefix_cons.
Qed.

Lemma prefix_append (x : string) : ∀ y : string,
  String.prefix x y = true → ∃ r, y = (x ++ r)%string.
Proof.
  induction x as [|a x IH]; intros y H.
  - by exists y.
  - destruct y as [|b y]; [done|]. apply prefix_cons in H as [-> H].
    destruct (IH y H) as [r ->]. by exists r.
Qed.

Lemma every_ascii (P : ascii → bool) :
  forallb (λ i, P (ascii_of_nat i)) (seq 0 256) = true → ∀ c, P c = true.
Proof.
  intros H c. rewrite forallb_forall in H.
  rewrite <- (ascii_nat_embedding c). apply H, in_seq.
  pose proof (nat_ascii_bounded c). lia.
Qed.

(** The escapes of two different characters do not begin one another, and
    no escape begins with the quote that ends the string. *)
Lemma escape_prefix_free (c d : ascii) :
  String.prefix (Text.json_escape_char c) (Text.json_escape_char d) = true → c = d.
Proof.
  revert d. revert c.
  assert (H : ∀ c d,
    implb (String.prefix (Text.json_escape_char c) (Text.json_escape_char d))
          (Ascii.eqb c d) = true).
  { intros c.
    assert (Hc : forallb (λ j,
      implb (String.prefix (Text.json_escape_char c)
               (Text.json_escape_char (ascii_of_nat j)))
            (Ascii.eqb c (ascii_of_nat j))) (seq 0 256) = true).
    { apply (every_ascii (λ c, forallb (λ j,
        implb (String.prefix (Text.json_escape_char c)
                 (Text.json_escape_char (ascii_of_nat j)))
              (Ascii.eqb c (ascii_of_nat j))) (seq 0 256))).
      vm_compute. reflexivity. }
    intros d. rewrite forallb_forall in Hc.
    rewrite <- (ascii_nat_embedding d). apply Hc, in_seq.
    pose proof (nat_ascii_bounded d). lia. }
  intros c d Hp. specialize (H c d). rewrite Hp in H. simpl in H.
  by apply Ascii.eqb_eq.
Qed.

Lemma escape_head (c : ascii) :
  ∃ x s, Text.json_escape_char c = String x s ∧ x ≠ Text.dquote.
Proof.
  assert (H : match Text.json_escape_char c with
              | String x _ => negb (Ascii.eqb x Text.dquote)
              | EmptyString => false
              end = true).
  { apply (every_ascii (λ c, match Text.json_escape_char c with
                             | String x _ => negb (Ascii.eqb x Text.dquote)
                             | EmptyString => false
                             end)).
    vm_compute. reflexivity. }
  destruct (Text.json_escape_char c) as [|x s]; [done|].
  exists x, s. split; [done|]. intros ->. by rewrite Ascii.eqb_refl in H.
Qed.

Lemma json_escape_delimited (a : string) : ∀ (b r1 r2 : string),
  (Text.json_escape a ++ String Text.dquote r1)%string
  = (Text.json_escape b ++ String Text.dquote r2)%string →
  a = b ∧ r1 = r2.
Proof.
  induction a as [|c a IH]; intros [|d b] r1 r2 H; simpl in H.
  - by injection H.
  - destruct (escape_head d) as (x & s & E & Hx). rewrite E in H.
    rewrite append_assoc, append_cons in H. injection H as H _. by destruct Hx.
  - destruct (escape_head c) as (x & s & E & Hx). rewrite E in H.
    rewrite append_assoc, append_cons in H. injection H as H _. by destruct Hx.
  - rewrite !append_assoc in H.
    assert (c = d) as ->.
    { destruct (common_prefix _ _ _ _ H) as [Hp|Hp];
        [|symmetry]; by apply escape_prefix_free. }
    apply UserKeyFacts.append_inj_l in H. destruct (IH b r1 r2 H) as [-> ->]. done.
Qed.

Lemma json_string_delimited (a b r1 r2 : string) :
  (Text.json_string a ++ r1)%string = (Text.json_string b ++ r2)%string →
  a = b ∧ r1 = r2.
Proof.
  unfold Text.json_string. rewrite !append_cons, !append_assoc, !append_cons.
  intros [= H]. by apply json_escape_delimited in H.
Qed.

Lemma toString_inj (a b : Z) : Text.toString a = Text.toString b → a = b.
Proof.
  intros H. pose proof (TextFacts.parseInt_toString a) as Ha.
  rewrite H, TextFacts.parseInt_toString in Ha. by injection Ha.
Qed.

(** [JSON.stringify] is injective on messages. *)
Lemma stringify_inj (m1 m2 : Message.t) :
  Message.stringify m1 = Message.stringify m2 → m1 = m2.
Proof.
  destruct m1 as [i1 r1 u1 n1 c1 t1], m2 as [i2 r2 u2 n2 c2 t2].
  unfold Message.stringify, Message.json_field. simpl. intros H.
  repeat (first
    [ apply UserKeyFacts.append_inj_l in H
    | rewrite !append_assoc in H ]).
  apply json_string_delimited in H as [-> H].
  repeat (first
    [ apply UserKeyFacts.append_inj_l in H
    | rewrite !append_assoc in H ]).
  apply json_string_delimited in H as [-> H].
  repeat (first
    [ apply UserKeyFacts.append_inj_l in H
    | rewrite !append_assoc in H ]).
  apply json_string_delimited in H as [-> H].
  repeat (first
    [ apply UserKeyFacts.append_inj_l in H
    | rewrite !append_assoc in H ]).
  apply json_string_delimited in H as [-> H].
  repeat (first
    [ apply UserKeyFacts.append_inj_l in H
    | rewrite !append_assoc in H ]).
  apply json_string_delimited in H as [-> H].
  repeat (first
    [ apply UserKeyFacts.append_inj_l in H
    | rewrite !append_assoc in H ]).
  apply UserKeyFacts.append_inj_r in H. apply toString_inj in H as ->. done.
Qed.

End JsonFacts.

(** ** Reading and deleting messages *)

Module ReadFacts.

(** The messages of a log are as distinct as their texts. *)
Lemma stored_NoDup (l : list zentry) : log_ok l → NoDup (map snd l).
Proof.
  intros [_ Hnd _ _]. apply (NoDup_fmap_1 Message.stringify).
  change (map snd l) with (snd <$> l). rewrite <- list_fmap_compose. exact Hnd.
Qed.


End ReadFacts.

(** X9. In an attainable store the messages kept for a room are distinct,
    were all posted to that room, are scored by their timestamps and are at
    most 100; but no reader returns them: [getMessages] returns the empty
    list whatever the limit and the cursor, and [getRecentMessages] and
    [getMessagesAfter] throw the TypeError of a method that the client does
    not have. *)
Theorem kept_messages_are_not_read st room :
  attainable st →
  let stored := map snd (messageLog st room) in
  NoDup stored ∧
  Forall (λ m, Message.chatRoomId m = room) stored ∧
  Forall (λ e : zentry, e.1 = Message.timestamp e.2) (messageLog st room) ∧
  (length stored ≤ 100)%nat ∧
  (∀ limit before, MessageRepository.getMessages st room limit before = []) ∧
  (∀ count, MessageRepository.getRecentMessages st room count
            = Thrown "this.redis.zRevRange is not a function") ∧
  (∀ t, MessageRepository.getMessagesAfter st room t
        = Thrown "this.redis.zRangeByScore is not a function").
Proof.
  intros Hatt stored. pose proof (Attainable.store_ok_attainable st Hatt) as Hst.
  pose proof (ok_logs st Hst (REDIS_KEYS.chatRoomMessages room)) as Hlog.
  fold (messageLog st room) in Hlog.
  split; [by apply ReadFacts.stored_NoDup|]. split.
  { apply Forall_forall. intros m Hm. unfold stored in Hm.
    change (map snd ?l) with (snd <$> l) in Hm.
    apply list_elem_of_fmap in Hm as (e & -> & He).
    pose proof (ok_placed st Hst _ e He) as Hkey.
    by apply UserKeyFacts.chatRoomMessages_inj in Hkey. }
  split; [apply (log_scores _ Hlog)|].
  split; [unfold stored; rewrite length_map; apply (log_bound _ Hlog)|].
  split; [intros limit before; apply ClientFacts.getMessages_nil|].
  split; reflexivity.
Qed.

Lemma kept_messages_are_not_read_witness :
  length (messageLog Sample.chatty Sample.room_id) = 3%nat ∧
  NoDup (map snd (messageLog Sample.chatty Sample.room_id)) ∧
  MessageRepository.getMessages Sample.chatty Sample.room_id (Some 50) None = [].
Proof.
  assert (Hst : attainable Sample.chatty).
  { apply HistoryFacts.attainable_run; [constructor|].
    vm_compute. repeat split; discriminate. }
  destruct (kept_messages_are_not_read Sample.chatty Sample.room_id Hst)
    as (H1 & _ & _ & _ & H5 & _).
  split; [vm_compute; reflexivity|]. split; [exact H1|apply H5].
Defined.

(** X11. [deleteMessage] never deletes: the entries it reads are objects
    that [JSON.parse] cannot read, so it finds no message with the id, also
    when one is kept, returns [false] and leaves the store as it is. *)
Theorem deleteMessage_never_deletes st room messageId :
  MessageRepository.deleteMessage st room messageId = (false, st).
Proof.
  unfold MessageRepository.deleteMessage.
  induction (Redis.zRange st _ 0 (-1)) as [|data l IH]; [done|].
  cbn [MessageRepository.deleteMessage_scan].
  by rewrite (proj2 (ClientFacts.entry_not_parsed data)).
Qed.

Lemma deleteMessage_never_deletes_witness :
  "1700000000001-k3j9x2m1q"
    ∈ (Message.id ∘ snd <$> messageLog Sample.chatty Sample.room_id) ∧
  MessageRepository.deleteMessage Sample.chatty Sample.room_id "1700000000001-k3j9x2m1q"
  = (false, Sample.chatty).
Proof.
  split.
  - apply (bool_decide_unpack _). vm_compute. exact I.
  - apply (deleteMessage_never_deletes Sample.chatty Sample.room_id).
Defined.



(** X13. In an attainable store, a message created at a time later than the
    timestamp of every message kept for the room is stored as the newest:
    it is the last entry of the log, after the entries that were there, of
    which at most the oldest is dropped, and the last entry that [zRange]
    returns; the count of the room grows by one up to the limit of 100, and
    the logs of the other rooms, the rooms and the indexes are as before. *)
Theorem createMessage_appends_newest st id now room userId username content :
  attainable st →
  (∀ m, m ∈ map snd (messageLog st room) → Message.timestamp m < now) →
  let result := MessageRepository.createMessage st id now room userId username content in
  result.1 = Message.mk id room userId username content now ∧
  (∃ k, (k ≤ 1)%nat ∧
        messageLog result.2 room
        = (drop k (messageLog st room) ++ [(now, result.1)])%list) ∧
  last (Redis.zRange result.2 (REDIS_KEYS.chatRoomMessages room) 0 (-1))
  = Some (Redis.mkEntry (Message.stringify result.1) now) ∧
  MessageRepository.getMessageCount result.2 room
  = Z.min (MessageRepository.getMessageCount st room + 1) 100 ∧
  (∀ other, other ≠ room → messageLog result.2 other = messageLog st other) ∧
  same_rooms st result.2.
Proof.
  intros Hatt Hnew result.
  pose proof (Attainable.store_ok_attainable st Hatt) as Hst.
  pose proof (ok_logs st Hst (REDIS_KEYS.chatRoomMessages room)) as Hlog.
  fold (messageLog st room) in Hlog.
  pose proof (log_scores _ Hlog) as Hsc. rewrite Forall_forall in Hsc.
  pose proof (log_bound _ Hlog) as Hbound.
  set (m := Message.mk id room userId username content now).
  assert (Hm : result.1 = m).
  { unfold result, MessageRepository.createMessage. by destruct (_ <? _). }
  assert (Hscores : Forall (λ a : zentry, a.1 < now) (messageLog st room)).
  { apply Forall_forall. intros e He. rewrite (Hsc e He). apply Hnew.
    change (map snd ?l) with (snd <$> l). by apply list_elem_of_fmap_2. }
  assert (Hlog' : ∃ k, (k ≤ 1)%nat ∧
    messageLog result.2 room = (drop k (messageLog st room) ++ [(now, m)])%list ∧
    length (messageLog result.2 room)
    = Nat.min (length (messageLog st room) + 1) 100).
  { unfold result. rewrite MessageFacts.createMessage_log. fold m.
    rewrite ZSetFacts.zAdd_newest by done.
    rewrite ZSetFacts.filter_absent.
    - exists (length (messageLog st room) + 1 - 100)%nat. split; [lia|]. split.
      + unfold newest. rewrite length_app. simpl. by rewrite drop_app_le by lia.
      + by rewrite MessageFacts.newest_length, length_app.
    - intros Hin. change (map ?f ?l) with (f <$> l) in Hin.
      apply list_elem_of_fmap in Hin as (e & Heq & He).
      unfold Redis.member_text in Heq. apply JsonFacts.stringify_inj in Heq.
      rewrite Forall_forall in Hscores. specialize (Hscores e He).
      rewrite (Hsc e He), <- Heq in Hscores. simpl in Hscores. lia. }
  destruct Hlog' as (k & Hk & Hlog' & Hlen).
  rewrite Hm. split; [done|]. split; [by exists k|]. split.
  { rewrite ClientFacts.zRange_all. fold (messageLog result.2 room).
    rewrite Hlog', fmap_app.
    change (Redis.entry_of <$> [(now, m)]) with [Redis.entry_of (now, m)].
    by rewrite last_snoc. }
  split.
  { unfold MessageRepository.getMessageCount, Redis.zCard.
    fold (messageLog result.2 room). fold (messageLog st room). rewrite Hlen. lia. }
  split.
  - intros other Hne. unfold result, messageLog.
    apply MessageFacts.createMessage_other.
    intros Heq. by apply UserKeyFacts.chatRoomMessages_inj in Heq.
  - apply ViewFacts.same_rooms_createMessage.
Qed.

Lemma createMessage_appends_newest_witness :
  Message.content ∘ snd <$>
    last (messageLog
            (MessageRepository.createMessage Sample.chatty "1700000000009-n3wm3ssag"
               (Sample.t0 + 9) Sample.room_id "t2_u2" "u2" "Hi all").2
            Sample.room_id)
  = Some "Hi all" ∧
  MessageRepository.getMessageCount
    (MessageRepository.createMessage Sample.chatty "1700000000009-n3wm3ssag"
       (Sample.t0 + 9) Sample.room_id "t2_u2" "u2" "Hi all").2 Sample.room_id = 4.
Proof.
  assert (Hst : attainable Sample.chatty).
  { apply HistoryFacts.attainable_run; [constructor|].
    vm_compute. repeat split; discriminate. }
  destruct (createMessage_appends_newest Sample.chatty "1700000000009-n3wm3ssag"
              (Sample.t0 + 9) Sample.room_id "t2_u2" "u2" "Hi all" Hst)
    as (H1 & (k & _ & H2) & _ & H4 & _).
  - refine (proj1 (Forall_forall (λ m, Message.timestamp m < Sample.t0 + 9)
                     (map snd (messageLog Sample.chatty Sample.room_id))) _).
    apply (bool_decide_unpack _). vm_compute. exact I.
  - split.
    + rewrite H2, last_snoc, H1. reflexivity.
    + rewrite H4. vm_compute. reflexivity.
Defined.

(** ** The data of a user *)

Module UserFacts.
Import HashFacts.

Lemma ends_differ (c d : ascii) : c ≠ d → ∀ a b : string,
  (a ++ String c EmptyString)%string ≠ (b ++ String d EmptyString)%string.
Proof.
  intros Hcd. induction a as [|x a IH]; intros [|y b] H.
  - injection H as H. by apply Hcd.
  - injection H as _ H. by destruct b.
  - injection H as _ H. by destruct a.
  - injection H as _ H. by apply (IH b).
Qed.

Lemma userInterests_not_userProfile (a b : string) :
  REDIS_KEYS.userInterests a ≠ REDIS_KEYS.userProfile b.
Proof.
  unfold REDIS_KEYS.userInterests, REDIS_KEYS.userProfile. intros H.
  apply UserKeyFacts.append_inj_l in H.
  change ":interests" with (":interest" ++ "s")%string in H.
  change ":profile" with (":profil" ++ "e")%string in H.
  rewrite <- !JsonFacts.append_assoc in H. by apply ends_differ in H.
Qed.

Lemma userActiveChats_not_userProfile (a b : string) :
  REDIS_KEYS.userActiveChats a ≠ REDIS_KEYS.userProfile b.
Proof.
  unfold REDIS_KEYS.userActiveChats, REDIS_KEYS.userProfile. intros H.
  apply UserKeyFacts.append_inj_l in H.
  change ":active_chats" with (":active_chat" ++ "s")%string in H.
  change ":profile" with (":profil" ++ "e")%string in H.
  rewrite <- !JsonFacts.append_assoc in H. by apply ends_differ in H.
Qed.

Lemma suffixes_differ (s t : string) :
  String.length s = String.length t → s ≠ t →
  ∀ a b : string, (a ++ s)%string ≠ (b ++ t)%string.
Proof.
  intros Hlen Hne a b H.
  assert (Hab : String.length a = String.length b).
  { apply (f_equal String.length) in H. rewrite !UserKeyFacts.append_length in H. lia. }
  revert b H Hab. induction a as [|x a IH]; intros [|y b] H Hab; try done.
  injection H as _ H. apply (IH b H). simpl in Hab. lia.
Qed.

Lemma userInterests_not_userActiveChats (a b : string) :
  REDIS_KEYS.userInterests a ≠ REDIS_KEYS.userActiveChats b.
Proof.
  unfold REDIS_KEYS.userInterests, REDIS_KEYS.userActiveChats. intros H.
  apply UserKeyFacts.append_inj_l in H.
  change ":interests" with (":interest" ++ "s")%string in H.
  change ":active_chats" with (":active_cha" ++ "ts")%string in H.
  revert H. rewrite <- (JsonFacts.append_assoc a).
  change ":active_cha" with (":active_ch" ++ "a")%string.
  change "ts" with ("t" ++ "s")%string.
  rewrite <- !JsonFacts.append_assoc. intros H.
  apply UserKeyFacts.append_inj_r in H.
  rewrite !JsonFacts.append_assoc in H. simpl in H.
  change ":interest" with (":interes" ++ "t")%string in H.
  change ":active_chat" with (":active_cha" ++ "t")%string in H.
  rewrite <- !JsonFacts.append_assoc in H. apply UserKeyFacts.append_inj_r in H.
  change ":interes" with (":intere" ++ "s")%string in H.
  change ":active_cha" with (":active_ch" ++ "a")%string in H.
  rewrite <- !JsonFacts.append_assoc in H. by apply ends_differ in H.
Qed.

(** Reading the profile. *)

Lemma getUserProfile_frame st st' userId :
  profileHashes st' = profileHashes st →
  UserRepository.getUserProfile st' userId = UserRepository.getUserProfile st userId.
Proof.
  intros H. unfold UserRepository.getUserProfile, Redis.hGetAll_profile. by rewrite H.
Qed.

Lemma hGetAll_hSet_profile st key fields key' :
  Redis.hGetAll_profile (Redis.hSet_profile st key fields) key'
  = if decide (key = key') then ProfileHash.set fields (Redis.hGetAll_profile st key)
    else Redis.hGetAll_profile st key'.
Proof.
  unfold Redis.hGetAll_profile, Redis.hSet_profile. simpl.
  destruct (decide (key = key')) as [->|Hne].
  - by rewrite lookup_insert_eq.
  - by rewrite lookup_insert_ne.
Qed.

Lemma getUserProfile_hSet_profile_ne st userId fields other :
  other ≠ userId →
  UserRepository.getUserProfile
    (Redis.hSet_profile st (REDIS_KEYS.userProfile userId) fields) other
  = UserRepository.getUserProfile st other.
Proof.
  intros Hne. unfold UserRepository.getUserProfile.
  rewrite hGetAll_hSet_profile. rewrite decide_False; [done|].
  intros Heq. apply UserKeyFacts.userProfile_inj in Heq. by apply Hne.
Qed.

(** An [hSet] that does not write the id updates the profile read back. *)
Lemma getUserProfile_hSet_profile st userId fields profile :
  UserRepository.getUserProfile st userId = Some profile →
  ProfileHash.id fields = None →
  UserRepository.getUserProfile
    (Redis.hSet_profile st (REDIS_KEYS.userProfile userId) fields) userId
  = Some (UserProfile.mk (UserProfile.id profile)
            (orElse (ProfileHash.username fields) (UserProfile.username profile))
            (default (UserProfile.interests profile) (ProfileHash.interests fields))
            (default (UserProfile.activeChats profile) (ProfileHash.activeChats fields))
            (default (UserProfile.createdAt profile) (ProfileHash.createdAt fields))).
Proof.
  unfold UserRepository.getUserProfile. rewrite hGetAll_hSet_profile.
  rewrite decide_True by done.
  destruct (Redis.hGetAll_profile st (REDIS_KEYS.userProfile userId))
    as [i u ints chats c].
  destruct fields as [fi fu fints fchats fc]. simpl. intros E ->. simpl.
  destruct i as [[|x i]|]; try done. injection E as <-. simpl. f_equal. f_equal.
  - by destruct fints, ints.
  - by destruct fchats, chats.
  - by destruct fc, c.
Qed.

Lemma getUserProfile_hSet_profile_absent st userId fields :
  UserRepository.getUserProfile st userId = None →
  ProfileHash.id fields = None →
  UserRepository.getUserProfile
    (Redis.hSet_profile st (REDIS_KEYS.userProfile userId) fields) userId = None.
Proof.
  unfold UserRepository.getUserProfile. rewrite hGetAll_hSet_profile.
  rewrite decide_True by done.
  destruct (Redis.hGetAll_profile st (REDIS_KEYS.userProfile userId))
    as [i u ints chats c].
  destruct fields as [fi fu fints fchats fc]. simpl. intros E ->. simpl.
  by destruct i as [[|x i]|].
Qed.

Lemma getUserProfile_del st key userId :
  UserRepository.getUserProfile (Redis.del st key) userId
  = if decide (REDIS_KEYS.userProfile userId = key) then None
    else UserRepository.getUserProfile st userId.
Proof.
  unfold UserRepository.getUserProfile, Redis.hGetAll_profile, Redis.del. simpl.
  destruct (decide (REDIS_KEYS.userProfile userId = key)) as [->|Hne].
  - by rewrite lookup_delete_eq.
  - by rewrite lookup_delete_ne.
Qed.

Lemma profileExists_getUserProfile st userId :
  UserRepository.profileExists st userId
  = bool_decide (is_Some (UserRepository.getUserProfile st userId)).
Proof.
  unfold UserRepository.profileExists, UserRepository.getUserProfile.
  by destruct (ProfileHash.id _) as [[|x i]|].
Qed.

(** The fields of a hash after several were set. *)

Lemma hSet_flags_frame st key fields :
  roomHashes (Redis.hSet_flags st key fields) = roomHashes st ∧
  profileHashes (Redis.hSet_flags st key fields) = profileHashes st ∧
  sortedSets (Redis.hSet_flags st key fields) = sortedSets st.
Proof.
  unfold Redis.hSet_flags. revert st.
  induction fields as [|f fields IH]; intros st; simpl; [done|].
  destruct (IH (Redis.hSet_flag st key f)) as (-> & -> & ->). done.
Qed.

Lemma elem_of_hKeys_hSet_flags st key fields key' x :
  x ∈ Redis.hKeys (Redis.hSet_flags st key fields) key'
  ↔ x ∈ Redis.hKeys st key' ∨ (key = key' ∧ x ∈ fields).
Proof.
  unfold Redis.hSet_flags. revert st.
  induction fields as [|f fields IH]; intros st; simpl.
  - split; [by left|]. intros [?|[_ H]]; [done|]. by apply elem_of_nil in H.
  - rewrite IH, elem_of_hKeys_hSet_flag, elem_of_cons. split.
    + intros [[?|[? ->]]|[? ?]]; [by left|right; split; [done|by left]|].
      right. split; [done|by right].
    + intros [?|[Hk [->|?]]]; [by left; left|left; by right|by right].
Qed.

End UserFacts.

Module InterestFacts.
Import HashFacts IndexInvariant UserFacts.

Lemma hKeys_hSet_flags_ne st key fields key' :
  key ≠ key' → Redis.hKeys (Redis.hSet_flags st key fields) key' = Redis.hKeys st key'.
Proof.
  intros Hne. unfold Redis.hSet_flags. revert st.
  induction fields as [|f fields IH]; intros st; simpl; [done|].
  rewrite IH, hKeys_hSet_flag. by rewrite decide_False.
Qed.

Lemma hKeys_hSet_flags_NoDup st key fields :
  NoDup (Redis.hKeys st key) → NoDup (Redis.hKeys (Redis.hSet_flags st key fields) key).
Proof.
  unfold Redis.hSet_flags. revert st.
  induction fields as [|f fields IH]; intros st Hnd; simpl; [done|].
  apply IH. rewrite hKeys_hSet_flag, decide_True by done.
  case_bool_decide as Hin; [done|].
  apply NoDup_app. split; [done|]. split; [|apply NoDup_singleton].
  intros x Hx Hx'. apply list_elem_of_singleton in Hx' as ->. done.
Qed.

(** The store after the two first steps of [setUserInterests]. *)
Lemma interests_written st userId interests :
  let key := REDIS_KEYS.userInterests userId in
  let st1 := Redis.del st key in
  let st2 := if 0 <? Z.of_nat (length interests)
             then Redis.hSet_flags st1 key interests else st1 in
  (∀ x, x ∈ Redis.hKeys st2 key ↔ x ∈ interests) ∧
  NoDup (Redis.hKeys st2 key) ∧
  (∀ key', key' ≠ key → Redis.hKeys st2 key' = Redis.hKeys st key') ∧
  (∀ user, UserRepository.getUserProfile st2 user = UserRepository.getUserProfile st user).
Proof.
  intros key st1 st2.
  assert (Hempty : Redis.hKeys st1 key = []).
  { unfold st1. rewrite hKeys_del. by rewrite decide_True. }
  assert (Hprofile : ∀ user,
    UserRepository.getUserProfile st1 user = UserRepository.getUserProfile st user).
  { intros user. unfold st1. rewrite getUserProfile_del. rewrite decide_False; [done|].
    intros Heq. symmetry in Heq. by apply userInterests_not_userProfile in Heq. }
  assert (Hkeys : ∀ key', key' ≠ key → Redis.hKeys st1 key' = Redis.hKeys st key').
  { intros key' Hne. unfold st1. rewrite hKeys_del. by rewrite decide_False. }
  unfold st2. destruct (0 <? Z.of_nat (length interests)) eqn:E.
  - split; [|split; [|split]].
    + intros x. rewrite elem_of_hKeys_hSet_flags, Hempty. split.
      * intros [H|[_ H]]; [by apply elem_of_nil in H|done].
      * intros H. by right.
    + apply hKeys_hSet_flags_NoDup. rewrite Hempty. apply NoDup_nil_2.
    + intros key' Hne. rewrite hKeys_hSet_flags_ne by done. by apply Hkeys.
    + intros user. rewrite <- Hprofile. apply getUserProfile_frame.
      by destruct (hSet_flags_frame st1 key interests) as (_ & -> & _).
  - apply Z.ltb_ge in E. destruct interests as [|i interests]; [|simpl in E; lia].
    split; [|split; [|split]]; try done.
    + intros x. by rewrite Hempty.
    + rewrite Hempty. apply NoDup_nil_2.
Qed.

(** What [setUserInterests] does, for lists of either length. *)
Lemma setUserInterests_spec st userId interests :
  let result := UserRepository.setUserInterests st userId interests in
  ((5 < length interests)%nat → result = (Thrown "Maximum 5 interests allowed", st)) ∧
  ((length interests ≤ 5)%nat →
   result.1 = Returned tt ∧
   (∀ x, x ∈ UserRepository.getUserInterests result.2 userId ↔ x ∈ interests) ∧
   NoDup (UserRepository.getUserInterests result.2 userId) ∧
   (∀ x, UserRepository.userHasInterest result.2 userId x = true ∧
         (Redis.hGet result.2 (REDIS_KEYS.userInterests userId) x = None
          ↔ x ∉ interests)) ∧
   UserRepository.getUserProfile result.2 userId
   = (λ profile, with_interests profile interests)
       <$> UserRepository.getUserProfile st userId ∧
   (∀ other, other ≠ userId →
      UserRepository.getUserInterests result.2 other
      = UserRepository.getUserInterests st other ∧
      UserRepository.getUserProfile result.2 other
      = UserRepository.getUserProfile st other) ∧
   (∀ user, UserRepository.getUserActiveChats result.2 user
            = UserRepository.getUserActiveChats st user)).
Proof.
  intros result. unfold result, UserRepository.setUserInterests,
    APP_CONSTANTS.MAX_INTERESTS. split.
  - intros Hlen. by replace (5 <? Z.of_nat (length interests)) with true
      by (symmetry; apply Z.ltb_lt; lia).
  - intros Hlen. replace (5 <? Z.of_nat (length interests)) with false
      by (symmetry; apply Z.ltb_ge; lia).
    destruct (interests_written st userId interests)
      as (Hin & Hnd & Hkeys & Hprofile).
    set (st2 := if 0 <? Z.of_nat (length interests) then _ else _) in *.
    simpl. split; [done|].
    set (st3 := match UserRepository.getUserProfile st2 userId with
                | Some _ => _ | None => st2 end).
    assert (Hsets : ∀ key, Redis.hKeys st3 key = Redis.hKeys st2 key).
    { intros key. unfold st3. by destruct (UserRepository.getUserProfile st2 userId). }
    unfold UserRepository.getUserInterests, UserRepository.userHasInterest,
      UserRepository.getUserActiveChats, Redis.hGet.
    split; [intros x; by rewrite Hsets|]. split; [by rewrite Hsets|].
    split.
    { intros x. rewrite Hsets. split; [by destruct (bool_decide _)|].
      rewrite <- Hin. by case_bool_decide. }
    split; [|split].
    + unfold st3. rewrite <- (Hprofile userId).
      destruct (UserRepository.getUserProfile st2 userId) as [profile|] eqn:E.
      * by rewrite (UserFacts.getUserProfile_hSet_profile st2 userId _ profile E).
      * by rewrite E.
    + intros other Hne. split.
      * rewrite Hsets. apply Hkeys. intros Heq.
        by apply UserKeyFacts.userInterests_inj in Heq.
      * rewrite <- (Hprofile other). unfold st3.
        destruct (UserRepository.getUserProfile st2 userId); [|done].
        by apply UserFacts.getUserProfile_hSet_profile_ne.
    + intros user. rewrite Hsets. apply Hkeys. intros Heq. symmetry in Heq.
      by apply UserFacts.userInterests_not_userActiveChats in Heq.
Qed.

End InterestFacts.

(** X14. [setUserInterests] with more than five interests throws and leaves
    the store as it is.  With at most five it replaces the interests of
    the user: [getUserInterests] then returns the given ones, each once,
    and an existing profile carries the given list; the interests and
    profiles of the other users and all lists of active chats are as
    before.  [userHasInterest] answers [true] for every interest, given or
    not: [hGet] resolves to [undefined] for an interest that was not given,
    and the test compares with [null]. *)
Theorem setUserInterests_replaces st userId interests :
  let result := UserRepository.setUserInterests st userId interests in
  ((5 < length interests)%nat → result = (Thrown "Maximum 5 interests allowed", st)) ∧
  ((length interests ≤ 5)%nat →
   result.1 = Returned tt ∧
   (∀ x, x ∈ UserRepository.getUserInterests result.2 userId ↔ x ∈ interests) ∧
   NoDup (UserRepository.getUserInterests result.2 userId) ∧
   (∀ x, UserRepository.userHasInterest result.2 userId x = true ∧
         (Redis.hGet result.2 (REDIS_KEYS.userInterests userId) x = None
          ↔ x ∉ interests)) ∧
   UserRepository.getUserProfile result.2 userId
   = (λ profile, with_interests profile interests)
       <$> UserRepository.getUserProfile st userId ∧
   (∀ other, other ≠ userId →
      UserRepository.getUserInterests result.2 other
      = UserRepository.getUserInterests st other ∧
      UserRepository.getUserProfile result.2 other
      = UserRepository.getUserProfile st other) ∧
   (∀ user, UserRepository.getUserActiveChats result.2 user
            = UserRepository.getUserActiveChats st user)).
Proof. apply InterestFacts.setUserInterests_spec. Qed.

Module UpsertFacts.

(** What [createOrUpdateUserProfile] writes and returns. *)
Lemma createOrUpdateUserProfile_spec st now userId username interests :
  userId ≠ EmptyString →
  let result := UserRepository.createOrUpdateUserProfile st now userId username interests in
  ∃ profile,
    UserRepository.getUserProfile result.2 userId = Some profile ∧
    UserProfile.id profile = userId ∧
    UserProfile.username profile = Some username ∧
    (∀ l, interests = Some l → UserProfile.interests profile = l) ∧
    match UserRepository.getUserProfile st userId with
    | Some existing =>
        (interests = None → UserProfile.interests profile = UserProfile.interests existing) ∧
        UserProfile.activeChats profile = UserProfile.activeChats existing ∧
        (UserProfile.createdAt existing ≠ 0 →
         UserProfile.createdAt profile = UserProfile.createdAt existing)
    | None =>
        (interests = None → UserProfile.interests profile = []) ∧
        UserProfile.activeChats profile = [] ∧
        UserProfile.createdAt profile = now
    end ∧
    ((∀ l, interests = Some l → (length l ≤ 5)%nat) → result.1 = Returned profile) ∧
    (∀ l, interests = Some l → (5 < length l)%nat →
          result.1 = Thrown "Maximum 5 interests allowed") ∧
    (∀ l, interests = Some l → l ≠ [] → (length l ≤ 5)%nat →
          ∀ x, x ∈ UserRepository.getUserInterests result.2 userId ↔ x ∈ l) ∧
    ((∀ l, interests = Some l → l = [] ∨ (5 < length l)%nat) →
     UserRepository.getUserInterests result.2 userId
     = UserRepository.getUserInterests st userId) ∧
    (∀ user, UserRepository.getUserActiveChats result.2 user
             = UserRepository.getUserActiveChats st user) ∧
    (∀ other, other ≠ userId →
       UserRepository.getUserProfile result.2 other
       = UserRepository.getUserProfile st other).
Proof.
  intros Hid result. unfold result, UserRepository.createOrUpdateUserProfile.
  set (profile := UserProfile.mk userId (Some username) _ _ _).
  set (st1 := Redis.hSet_profile st _ _).
  assert (E1 : UserRepository.getUserProfile st1 userId = Some profile).
  { unfold st1, UserRepository.getUserProfile. rewrite UserFacts.hGetAll_hSet_profile.
    rewrite decide_True by done. simpl. by destruct userId. }
  assert (Hother1 : ∀ other, other ≠ userId →
    UserRepository.getUserProfile st1 other = UserRepository.getUserProfile st other).
  { intros other Hne. by apply UserFacts.getUserProfile_hSet_profile_ne. }
  assert (Hkeys1 : ∀ key, Redis.hKeys st1 key = Redis.hKeys st key) by done.
  assert (Hfields :
    (∀ l, interests = Some l → UserProfile.interests profile = l) ∧
    match UserRepository.getUserProfile st userId with
    | Some existing =>
        (interests = None → UserProfile.interests profile = UserProfile.interests existing) ∧
        UserProfile.activeChats profile = UserProfile.activeChats existing ∧
        (UserProfile.createdAt existing ≠ 0 →
         UserProfile.createdAt profile = UserProfile.createdAt existing)
    | None =>
        (interests = None → UserProfile.interests profile = []) ∧
        UserProfile.activeChats profile = [] ∧
        UserProfile.createdAt profile = now
    end).
  { unfold profile. split; [by intros l ->|].
    destruct (UserRepository.getUserProfile st userId) as [existing|]; simpl.
    - split; [by intros ->|]. split; [done|]. intros Hc.
      by replace (UserProfile.createdAt existing =? 0) with false
        by (symmetry; by apply Z.eqb_neq).
    - split; [by intros ->|done]. }
  destruct Hfields as [Hint Hfields].
  unfold UserRepository.getUserInterests, UserRepository.getUserActiveChats.
  destruct interests as [l|].
  2: { simpl. exists profile.
       split; [done|]. split; [done|]. split; [done|]. split; [done|].
       split; [done|]. split; [done|]. split; [by intros l|].
       split; [by intros l|]. split; [done|]. split; [done|]. done. }
  destruct (0 <? Z.of_nat (length l)) eqn:Epos.
  2: { apply Z.ltb_ge in Epos. destruct l as [|i l]; [|simpl in Epos; lia].
       simpl. exists profile.
       split; [done|]. split; [done|]. split; [done|]. split; [done|].
       split; [done|]. split; [done|]. split; [intros l [= <-]; simpl; lia|].
       split; [by intros l [= <-]|]. split; [done|]. split; [done|]. done. }
  destruct (InterestFacts.setUserInterests_spec st1 userId l) as [Hmany Hfew].
  destruct (decide (length l ≤ 5)%nat) as [Hlen|Hlen].
  - destruct (Hfew Hlen) as (Hret & Hin & _ & _ & Hp & Hothers & Hchats).
    destruct (UserRepository.setUserInterests st1 userId l) as [[v|r] st2];
      [|done]. simpl in *.
    exists profile. split.
    { rewrite Hp, E1. simpl. f_equal. }
    split; [done|]. split; [done|]. split; [done|]. split; [done|].
    split; [done|]. split; [intros l' [= <-]; lia|].
    split; [by intros l' [= <-]|]. split.
    { intros Hempty. destruct (Hempty l eq_refl) as [->|?]; [done|lia]. }
    split; [intros user; apply Hchats|].
    intros other Hne. destruct (Hothers other Hne) as [_ ->]. by apply Hother1.
  - rewrite Hmany by lia. simpl. exists profile.
    split; [done|]. split; [done|]. split; [done|]. split; [done|].
    split; [done|]. split; [intros H; specialize (H l eq_refl); lia|].
    split; [done|]. split; [intros l' [= <-]; lia|]. split; [done|].
    split; [done|]. done.
Qed.

End UpsertFacts.

(** X15. [createOrUpdateUserProfile] for a non-empty user id writes a profile
    that [getUserProfile] reads back: it carries the id, the given name and,
    when given, the given interests; an existing profile keeps its active
    chats, its time of creation (unless that is 0) and, when no interests
    are given, its interests; a new profile starts without active chats at
    the time of the call.  The call returns that profile, except for more
    than five interests: then it throws after the profile was written with
    all of them, and the interests kept for [getUserInterests] stay as they
    were, as they also do for an empty list. *)
Theorem createOrUpdateUserProfile_upsert st now userId username interests :
  userId ≠ EmptyString →
  let result := UserRepository.createOrUpdateUserProfile st now userId username interests in
  ∃ profile,
    UserRepository.getUserProfile result.2 userId = Some profile ∧
    UserProfile.id profile = userId ∧
    UserProfile.username profile = Some username ∧
    (∀ l, interests = Some l → UserProfile.interests profile = l) ∧
    match UserRepository.getUserProfile st userId with
    | Some existing =>
        (interests = None → UserProfile.interests profile = UserProfile.interests existing) ∧
        UserProfile.activeChats profile = UserProfile.activeChats existing ∧
        (UserProfile.createdAt existing ≠ 0 →
         UserProfile.createdAt profile = UserProfile.createdAt existing)
    | None =>
        (interests = None → UserProfile.interests profile = []) ∧
        UserProfile.activeChats profile = [] ∧
        UserProfile.createdAt profile = now
    end ∧
    ((∀ l, interests = Some l → (length l ≤ 5)%nat) → result.1 = Returned profile) ∧
    (∀ l, interests = Some l → (5 < length l)%nat →
          result.1 = Thrown "Maximum 5 interests allowed") ∧
    (∀ l, interests = Some l → l ≠ [] → (length l ≤ 5)%nat →
          ∀ x, x ∈ UserRepository.getUserInterests result.2 userId ↔ x ∈ l) ∧
    ((∀ l, interests = Some l → l = [] ∨ (5 < length l)%nat) →
     UserRepository.getUserInterests result.2 userId
     = UserRepository.getUserInterests st userId) ∧
    (∀ user, UserRepository.getUserActiveChats result.2 user
             = UserRepository.getUserActiveChats st user) ∧
    (∀ other, other ≠ userId →
       UserRepository.getUserProfile result.2 other
       = UserRepository.getUserProfile st other).
Proof. apply UpsertFacts.createOrUpdateUserProfile_spec. Qed.

Lemma createOrUpdateUserProfile_upsert_witness :
  (UserProfile.interests <$>
     UserRepository.getUserProfile
       (UserRepository.createOrUpdateUserProfile Sample.lobby Sample.t0 "t2_u1" "u1"
          (Some ["music"; "gaming"; "books"; "art"; "food"; "travel"])).2 "t2_u1")
  = Some ["music"; "gaming"; "books"; "art"; "food"; "travel"] ∧
  (UserRepository.createOrUpdateUserProfile Sample.lobby Sample.t0 "t2_u1" "u1"
     (Some ["music"; "gaming"; "books"; "art"; "food"; "travel"])).1
  = Thrown "Maximum 5 interests allowed" ∧
  UserRepository.getUserInterests
    (UserRepository.createOrUpdateUserProfile Sample.lobby Sample.t0 "t2_u1" "u1"
       (Some ["music"; "gaming"; "books"; "art"; "food"; "travel"])).2 "t2_u1" = [].
Proof.
  destruct (createOrUpdateUserProfile_upsert Sample.lobby Sample.t0 "t2_u1" "u1"
              (Some ["music"; "gaming"; "books"; "art"; "food"; "travel"]))
    as (profile & H1 & _ & _ & H4 & _ & _ & H7 & _ & H9 & _); [done|].
  split; [|split].
  - rewrite H1. simpl. f_equal. by apply H4.
  - by apply (H7 _ eq_refl); simpl; lia.
  - rewrite H9; [done|]. intros l [= <-]. right. simpl. lia.
Defined.

Module ActiveChatFacts.
Import HashFacts UserFacts.

Lemma updateProfileActiveChats_spec st userId :
  let st' := UserRepository.updateProfileActiveChats st userId in
  (∀ key, Redis.hKeys st' key = Redis.hKeys st key) ∧
  UserRepository.getUserProfile st' userId
  = (λ profile,
       with_activeChats profile (Redis.hKeys st (REDIS_KEYS.userActiveChats userId)))
      <$> UserRepository.getUserProfile st userId ∧
  (∀ other, other ≠ userId →
     UserRepository.getUserProfile st' other = UserRepository.getUserProfile st other).
Proof.
  intros st'. unfold st', UserRepository.updateProfileActiveChats.
  rewrite profileExists_getUserProfile.
  destruct (UserRepository.getUserProfile st userId) as [profile|] eqn:E; simpl.
  - split; [done|]. split.
    + by rewrite (getUserProfile_hSet_profile st userId _ profile E).
    + intros other Hne. by apply getUserProfile_hSet_profile_ne.
  - by rewrite E.
Qed.

End ActiveChatFacts.

(** X16. [addUserToActiveChat] puts the room at the end of the active chats
    of the user unless it is there already, [removeUserFromActiveChat]
    takes it out, and removing a room that was just added gives the former
    list back.  After either call an existing profile of the user carries
    the list that [getUserActiveChats] returns; neither call creates a
    profile, and the active chats and profiles of the other users, all
    interests, the rooms and the indexes are as before. *)
Theorem activeChats_follow_the_calls st userId chatRoomId :
  let chats := UserRepository.getUserActiveChats st userId in
  let st1 := UserRepository.addUserToActiveChat st userId chatRoomId in
  let st2 := UserRepository.removeUserFromActiveChat st userId chatRoomId in
  UserRepository.getUserActiveChats st1 userId
  = (if bool_decide (chatRoomId ∈ chats) then chats else chats ++ [chatRoomId])%list ∧
  UserRepository.getUserActiveChats st2 userId = filter (λ x, x ≠ chatRoomId) chats ∧
  ((chatRoomId ∉ chats) →
   UserRepository.getUserActiveChats
     (UserRepository.removeUserFromActiveChat st1 userId chatRoomId) userId = chats) ∧
  (∀ st', st' = st1 ∨ st' = st2 →
     UserRepository.getUserProfile st' userId
     = (λ profile, with_activeChats profile (UserRepository.getUserActiveChats st' userId))
         <$> UserRepository.getUserProfile st userId ∧
     (∀ other, other ≠ userId →
        UserRepository.getUserActiveChats st' other
        = UserRepository.getUserActiveChats st other ∧
        UserRepository.getUserProfile st' other = UserRepository.getUserProfile st other) ∧
     (∀ user, UserRepository.getUserInterests st' user
              = UserRepository.getUserInterests st user) ∧
     same_rooms st st').
Proof.
  intros chats st1 st2.
  unfold UserRepository.getUserActiveChats, UserRepository.getUserInterests in *.
  assert (H1 : Redis.hKeys st1 (REDIS_KEYS.userActiveChats userId)
    = (if bool_decide (chatRoomId ∈ chats) then chats else chats ++ [chatRoomId])%list).
  { unfold st1, UserRepository.addUserToActiveChat.
    destruct (ActiveChatFacts.updateProfileActiveChats_spec
                (Redis.hSet_flag st (REDIS_KEYS.userActiveChats userId) chatRoomId)
                userId) as (-> & _).
    rewrite HashFacts.hKeys_hSet_flag. by rewrite decide_True. }
  assert (H2 : ∀ s, Redis.hKeys (UserRepository.removeUserFromActiveChat s userId chatRoomId)
                      (REDIS_KEYS.userActiveChats userId)
    = filter (λ x, x ≠ chatRoomId) (Redis.hKeys s (REDIS_KEYS.userActiveChats userId))).
  { intros s. unfold UserRepository.removeUserFromActiveChat.
    destruct (ActiveChatFacts.updateProfileActiveChats_spec
                (Redis.hDel s (REDIS_KEYS.userActiveChats userId) chatRoomId)
                userId) as (-> & _).
    rewrite HashFacts.hKeys_hDel. by rewrite decide_True. }
  split; [done|]. split; [apply H2|]. split.
  { intros Hout. rewrite H2, H1. rewrite bool_decide_eq_false_2 by done.
    rewrite filter_app, filter_cons_False by (by intros H).
    rewrite ZSetFacts.filter_every; [by rewrite app_nil_r|]. by intros x Hx ->. }
  intros st' [-> | ->].
  - unfold st1, UserRepository.addUserToActiveChat.
    set (s := Redis.hSet_flag st (REDIS_KEYS.userActiveChats userId) chatRoomId).
    destruct (ActiveChatFacts.updateProfileActiveChats_spec s userId)
      as (Hkeys & Hp & Hothers).
    assert (Hframe : ∀ user,
      UserRepository.getUserProfile s user = UserRepository.getUserProfile st user)
      by (intros user; by apply UserFacts.getUserProfile_frame).
    split; [by rewrite Hp, Hkeys, Hframe|]. split; [|split].
    + intros other Hne. split.
      * rewrite Hkeys. unfold s. rewrite HashFacts.hKeys_hSet_flag.
        rewrite decide_False; [done|].
        intros Heq. by apply UserKeyFacts.userActiveChats_inj in Heq.
      * by rewrite Hothers, Hframe.
    + intros user. rewrite Hkeys. unfold s. rewrite HashFacts.hKeys_hSet_flag.
      rewrite decide_False; [done|]. intros Heq. symmetry in Heq.
      by apply UserFacts.userInterests_not_userActiveChats in Heq.
    + apply ViewFacts.same_rooms_addUserToActiveChat.
  - unfold st2, UserRepository.removeUserFromActiveChat.
    set (s := Redis.hDel st (REDIS_KEYS.userActiveChats userId) chatRoomId).
    destruct (ActiveChatFacts.updateProfileActiveChats_spec s userId)
      as (Hkeys & Hp & Hothers).
    assert (Hframe : ∀ user,
      UserRepository.getUserProfile s user = UserRepository.getUserProfile st user)
      by (intros user; by apply UserFacts.getUserProfile_frame).
    split; [by rewrite Hp, Hkeys, Hframe|]. split; [|split].
    + intros other Hne. split.
      * rewrite Hkeys. unfold s. rewrite HashFacts.hKeys_hDel.
        rewrite decide_False; [done|].
        intros Heq. by apply UserKeyFacts.userActiveChats_inj in Heq.
      * by rewrite Hothers, Hframe.
    + intros user. rewrite Hkeys. unfold s. rewrite HashFacts.hKeys_hDel.
      rewrite decide_False; [done|]. intros Heq. symmetry in Heq.
      by apply UserFacts.userInterests_not_userActiveChats in Heq.
    + apply ViewFacts.same_rooms_removeUserFromActiveChat.
Qed.

(** X17. [deleteUserData] erases what is kept under the keys of the user:
    afterwards the user has no profile, no interests and no active chats.
    It touches nothing else: the data of the other users, the rooms (which
    go on listing the user among their participants), the indexes and the
    messages are as before. *)
Theorem deleteUserData_erases st userId :
  let st' := UserRepository.deleteUserData st userId in
  UserRepository.getUserProfile st' userId = None ∧
  UserRepository.getUserInterests st' userId = [] ∧
  UserRepository.getUserActiveChats st' userId = [] ∧
  (∀ other, other ≠ userId →
     UserRepository.getUserProfile st' other = UserRepository.getUserProfile st other ∧
     UserRepository.getUserInterests st' other = UserRepository.getUserInterests st other ∧
     UserRepository.getUserActiveChats st' other
     = UserRepository.getUserActiveChats st other) ∧
  same_rooms st st' ∧
  (∀ room, messageLog st' room = messageLog st room).
Proof.
  intros st'. unfold st', UserRepository.deleteUserData,
    UserRepository.getUserInterests, UserRepository.getUserActiveChats, messageLog.
  split.
  { rewrite !UserFacts.getUserProfile_del.
    rewrite decide_False
      by (intros Heq; symmetry in Heq;
          by apply UserFacts.userActiveChats_not_userProfile in Heq).
    rewrite decide_False
      by (intros Heq; symmetry in Heq;
          by apply UserFacts.userInterests_not_userProfile in Heq).
    by rewrite decide_True. }
  split.
  { rewrite !IndexInvariant.hKeys_del.
    rewrite decide_False
      by (intros Heq; symmetry in Heq;
          by apply UserFacts.userInterests_not_userActiveChats in Heq).
    by rewrite decide_True. }
  split.
  { rewrite !IndexInvariant.hKeys_del. by rewrite decide_True. }
  split.
  { intros other Hne. split; [|split].
    - rewrite !UserFacts.getUserProfile_del.
      rewrite decide_False
        by (intros Heq; symmetry in Heq;
            by apply UserFacts.userActiveChats_not_userProfile in Heq).
      rewrite decide_False
        by (intros Heq; symmetry in Heq;
            by apply UserFacts.userInterests_not_userProfile in Heq).
      rewrite decide_False; [done|].
      intros Heq. apply UserKeyFacts.userProfile_inj in Heq. by apply Hne.
    - rewrite !IndexInvariant.hKeys_del.
      rewrite decide_False
        by (intros Heq; symmetry in Heq;
            by apply UserFacts.userInterests_not_userActiveChats in Heq).
      rewrite decide_False
        by (intros Heq; apply UserKeyFacts.userInterests_inj in Heq; by apply Hne).
      rewrite decide_False; [done|].
      intros Heq. symmetry in Heq. by apply UserFacts.userInterests_not_userProfile in Heq.
    - rewrite !IndexInvariant.hKeys_del.
      rewrite decide_False
        by (intros Heq; apply UserKeyFacts.userActiveChats_inj in Heq; by apply Hne).
      rewrite decide_False
        by (by apply UserFacts.userInterests_not_userActiveChats).
      rewrite decide_False; [done|].
      intros Heq. symmetry in Heq.
      by apply UserFacts.userActiveChats_not_userProfile in Heq. }
  split; [apply ViewFacts.same_rooms_deleteUserData|].
  intros room. rewrite !ShrinkFacts.zGet_del.
  by repeat (rewrite decide_False by discriminate).
Qed.

(** ** Pages of a listing *)

Module SliceFacts.



(** From the start of the list a slice is a prefix. *)
Lemma slice_first {A} (l : list A) (n : Z) :
  0 ≤ n → slice l 0 n = take (Z.to_nat n) l.
Proof.
  intros Hn. unfold slice.
  replace (0 <? 0) with false by done.
  replace (n <? 0) with false by (symmetry; apply Z.ltb_ge; lia).
  rewrite (Z.min_l 0) by lia. change (Z.to_nat 0) with 0%nat. rewrite drop_0, Z.sub_0_r.
  destruct (decide (n ≤ Z.of_nat (length l))).
  - by rewrite Z.min_l by lia.
  - rewrite Z.min_r by lia. rewrite !take_ge; [done|lia|lia].
Qed.


Lemma searchLimit_bounds (limit : option Z) :
  (∀ n, limit = Some n → 0 ≤ n) → 1 ≤ Handlers.searchLimit limit ≤ 50.
Proof.
  intros H. unfold Handlers.searchLimit. destruct limit as [[|n|n]|]; try lia.
  specialize (H _ eq_refl). lia.
Qed.

End SliceFacts.



(** ** The request handlers *)

Module HandlerFacts.

(** The check of the interests of a request against the catalogue. *)
Lemma invalid_interests (interests : list string) :
  (0 <? Z.of_nat (length (filter (λ interest, interest ∉ INTEREST_TAG_IDS) interests)))
  = negb (bool_decide (Forall (λ i, i ∈ INTEREST_TAG_IDS) interests)).
Proof.
  destruct (filter _ interests) as [|x l] eqn:E; simpl.
  - rewrite bool_decide_eq_true_2; [done|]. apply Forall_forall. intros i Hi.
    destruct (decide (i ∈ INTEREST_TAG_IDS)) as [|Hout]; [done|].
    assert (Hin : i ∈ filter (λ interest, interest ∉ INTEREST_TAG_IDS) interests)
      by by apply list_elem_of_filter.
    rewrite E in Hin. by apply elem_of_nil in Hin.
  - rewrite bool_decide_eq_false_2; [done|]. intros Hall.
    rewrite Forall_forall in Hall.
    assert (Hin : x ∈ filter (λ interest, interest ∉ INTEREST_TAG_IDS) interests)
      by (rewrite E; by left).
    apply list_elem_of_filter in Hin as [Hout Hin]. by apply Hout, Hall.
Qed.

Lemma authenticated (userId : string) : userId ≠ EmptyString → falsy (Some userId) = false.
Proof. by destruct userId. Qed.

End HandlerFacts.

(** X19. POST /api/chatrooms, for an authenticated user, answers 201 exactly
    when the title and the topic pass their validators and the interests
    are an array of tags of the catalogue.  Otherwise it answers 400,
    changes nothing and sends nothing.  On 201, for a non-empty new id,
    the room that is returned is the one [getChatRoom] then reads: it has
    the trimmed title and topic, the user as creator and only participant,
    it is active, and its id is among the active chats of the user; the
    creation is announced once on the discovery channel, and no other room
    changes. *)
Theorem createChatRoom_handler_outcome st userId username newId now body :
  userId ≠ EmptyString → username ≠ EmptyString →
  let outcome :=
    Handlers.createChatRoom st (Context.mk (Some userId) (Some username)) newId now body in
  let accepted :=
    valid (validateChatRoomTitle (CreateChatRoomRequest.title body)) = true ∧
    valid (validateChatRoomTopic (CreateChatRoomRequest.topic body)) = true ∧
    ∃ interests, CreateChatRoomRequest.interests body = Some interests ∧
                 Forall (λ i, i ∈ INTEREST_TAG_IDS) interests in
  (status (response outcome) = 201 ↔ accepted) ∧
  (¬ accepted →
   status (response outcome) = 400 ∧ store outcome = st ∧ sent outcome = []) ∧
  (accepted → newId ≠ EmptyString →
   ∃ room,
     response outcome = Success 201 room ∧
     ChatRoomRepository.getChatRoom (store outcome) newId = Some room ∧
     ChatRoom.id room = newId ∧
     ChatRoom.title room = Some (Text.trim (CreateChatRoomRequest.title body)) ∧
     ChatRoom.topic room = Some (Text.trim (CreateChatRoomRequest.topic body)) ∧
     ChatRoom.creatorId room = Some userId ∧
     ChatRoom.participants room = [userId] ∧
     ChatRoom.isActive room = true ∧
     CreateChatRoomRequest.interests body = Some (ChatRoom.interests room) ∧
     newId ∈ UserRepository.getUserActiveChats (store outcome) userId ∧
     sent outcome = [RealtimeService.sendRoomCreatedNotification room] ∧
     (∀ other, other ≠ newId →
        ChatRoomRepository.getChatRoom (store outcome) other
        = ChatRoomRepository.getChatRoom st other)).
Proof.
  intros Hu Hn outcome accepted. unfold outcome, accepted, Handlers.createChatRoom.
  simpl Context.userId. simpl Context.username. cbv iota beta.
  rewrite (HandlerFacts.authenticated userId Hu), (HandlerFacts.authenticated username Hn).
  simpl orb. cbv iota.
  destruct (valid (validateChatRoomTitle (CreateChatRoomRequest.title body))) eqn:Et;
    simpl negb; cbv iota.
  2: { simpl. split; [split; [done|by intros [? _]]|]. split; [done|by intros [? _]]. }
  destruct (valid (validateChatRoomTopic (CreateChatRoomRequest.topic body))) eqn:Ep;
    simpl negb; cbv iota.
  2: { simpl. split; [split; [done|by intros (_ & ? & _)]|].
       split; [done|by intros (_ & ? & _)]. }
  destruct (CreateChatRoomRequest.interests body) as [interests|] eqn:Ei.
  2: { simpl. split; [split; [done|by intros (_ & _ & ? & ? & _)]|].
       split; [done|by intros (_ & _ & ? & ? & _)]. }
  rewrite HandlerFacts.invalid_interests.
  case_bool_decide as Hall; simpl negb; cbv iota.
  2: { simpl. split; [split; [done|]|split; [done|]].
       - intros (_ & _ & l & [= <-] & Hl). by destruct Hall.
       - intros (_ & _ & l & [= <-] & Hl). by destruct Hall. }
  assert (Hacc : true = true ∧ true = true ∧
                 ∃ l, Some interests = Some l ∧ Forall (λ i, i ∈ INTEREST_TAG_IDS) l)
    by (split; [done|]; split; [done|]; by exists interests).
  rewrite (surjective_pairing
             (ChatRoomRepository.createChatRoom st newId now
                (Text.trim (CreateChatRoomRequest.title body))
                (Text.trim (CreateChatRoomRequest.topic body)) userId username interests)).
  cbv iota beta.
  set (created := ChatRoomRepository.createChatRoom st newId now _ _ userId username
                    interests).
  change (ChatRoom.id created.1) with newId.
  unfold status, response, store, sent.
  split; [by split|]. split; [by intros H|]. intros _ Hid.
  exists created.1. split; [done|].
  destruct (ViewFacts.same_rooms_addUserToActiveChat created.2 userId newId)
    as (Hsame & _ & _).
  split.
  { rewrite Hsame. unfold created.
    rewrite RoomFacts.getChatRoom_createChatRoom by done. by rewrite decide_True. }
  split; [done|]. split; [done|]. split; [done|]. split; [done|]. split; [done|].
  split; [done|]. split; [done|]. split.
  { unfold UserRepository.getUserActiveChats, UserRepository.addUserToActiveChat.
    destruct (ActiveChatFacts.updateProfileActiveChats_spec
                (Redis.hSet_flag created.2 (REDIS_KEYS.userActiveChats userId) newId)
                userId) as (-> & _).
    apply HashFacts.elem_of_hKeys_hSet_flag. by right. }
  split; [done|]. intros other Hne. rewrite Hsame.
  unfold created. by apply MembershipFacts.getChatRoom_createChatRoom_ne.
Qed.

Lemma createChatRoom_handler_outcome_witness :
  status (response (Handlers.createChatRoom Sample.lobby Sample.u3
                      "1700000000050-n3wr00m01" (Sample.t0 + 50)
                      (CreateChatRoomRequest.mk "  Trail Runners " "Weekend routes"
                         (Some ["fitness"; "travel"])))) = 201 ∧
  status (response (Handlers.createChatRoom Sample.lobby Sample.u3
                      "1700000000050-n3wr00m01" (Sample.t0 + 50)
                      (CreateChatRoomRequest.mk "Trail Runners" "Weekend routes"
                         (Some ["jogging"])))) = 400.
Proof.
  split.
  - apply (createChatRoom_handler_outcome Sample.lobby "t2_u3" "u3"
             "1700000000050-n3wr00m01" (Sample.t0 + 50)); [done|done|].
    split; [done|]. split; [done|]. eexists. split; [done|].
    apply (bool_decide_unpack _). vm_compute. exact I.
  - apply (createChatRoom_handler_outcome Sample.lobby "t2_u3" "u3"
             "1700000000050-n3wr00m01" (Sample.t0 + 50)); [done|done|].
    intros (_ & _ & l & [= <-] & Hl).
    revert Hl. apply (bool_decide_unpack _). vm_compute. exact I.
Defined.

(** X20. POST /api/chatrooms/:id/join, for an authenticated user: when the
    room does not exist or is inactive the answer is 404, nothing changes
    and nothing is sent; when the room is active the answer is 200, the
    user is among the participants read back and the room among the
    active chats of the user, no other room changes, and for a user with a
    name one notification goes to the channel of the room. *)
Theorem joinChatRoom_handler_outcome st userId username now sentAt id :
  userId ≠ EmptyString →
  let outcome :=
    Handlers.joinChatRoom st (Context.mk (Some userId) username) now sentAt id in
  (inactive_or_gone st id →
   outcome = mkOutcome
               (Failure 404 "CHAT_ROOM_NOT_FOUND" "Chat room not found or inactive")
               st []) ∧
  (∀ room,
     ChatRoomRepository.getChatRoom st id = Some room →
     ChatRoom.isActive room = true →
     response outcome = Success 200 true ∧
     (∃ room', ChatRoomRepository.getChatRoom (store outcome) id = Some room' ∧
               userId ∈ ChatRoom.participants room' ∧
               ∀ p, p ∈ ChatRoom.participants room → p ∈ ChatRoom.participants room') ∧
     id ∈ UserRepository.getUserActiveChats (store outcome) userId ∧
     (∀ other, other ≠ id →
        ChatRoomRepository.getChatRoom (store outcome) other
        = ChatRoomRepository.getChatRoom st other) ∧
     (∀ name, username = Some name → name ≠ EmptyString →
        sent outcome
        = [(CHANNELS.chatRoom id,
            RealtimeMessage.mk user_joined (Some id) (Some userId) (Some name) None
              sentAt)]) ∧
     (falsy username = true → sent outcome = [])).
Proof.
  intros Hu outcome. unfold outcome, Handlers.joinChatRoom. simpl Context.userId.
  cbv iota beta. rewrite (HandlerFacts.authenticated userId Hu). cbv iota.
  split.
  - intros Hgone. by rewrite (MembershipFacts.joinChatRoom_inactive st now id userId Hgone).
  - intros room E Ha.
    rewrite (MembershipFacts.joinChatRoom_active st now id userId room E Ha).
    simpl negb. cbv iota.
    set (st1 := if bool_decide (userId ∈ ChatRoom.participants room) then st else _).
    unfold response, store, sent. simpl Context.username.
    destruct (ViewFacts.same_rooms_addUserToActiveChat st1 userId id)
      as (Hsame & _ & _).
    assert (Hroom : ∃ room',
      ChatRoomRepository.getChatRoom st1 id = Some room' ∧
      userId ∈ ChatRoom.participants room' ∧
      ∀ p, p ∈ ChatRoom.participants room → p ∈ ChatRoom.participants room').
    { unfold st1. case_bool_decide as Hin.
      - exists room. by split.
      - eexists. split; [by rewrite (HashFacts.getChatRoom_hSet_room st id _ room E)|].
        simpl. split.
        + apply elem_of_app. right. by apply list_elem_of_singleton.
        + intros p Hp. apply elem_of_app. by left. }
    split; [done|]. split.
    { destruct Hroom as (room' & E' & ?). exists room'. by rewrite Hsame. }
    split.
    { unfold UserRepository.getUserActiveChats, UserRepository.addUserToActiveChat.
      destruct (ActiveChatFacts.updateProfileActiveChats_spec
                  (Redis.hSet_flag st1 (REDIS_KEYS.userActiveChats userId) id) userId)
        as (-> & _).
      apply HashFacts.elem_of_hKeys_hSet_flag. by right. }
    split.
    { intros other Hne. rewrite Hsame. unfold st1. case_bool_decide; [done|].
      by rewrite HashFacts.getChatRoom_hSet_room_ne. }
    split.
    + intros name -> Hname. by rewrite (HandlerFacts.authenticated name Hname).
    + intros Hf. destruct username as [name|]; [|done]. by rewrite Hf.
Qed.

Lemma joinChatRoom_handler_outcome_witness :
  status (response (Handlers.joinChatRoom Sample.closed_B Sample.u3 (Sample.t0 + 4)
                      (Sample.t0 + 5) Sample.room_B)) = 404 ∧
  response (Handlers.joinChatRoom Sample.closed_B Sample.u3 (Sample.t0 + 4)
              (Sample.t0 + 5) Sample.room_A) = Success 200 true.
Proof.
  destruct (joinChatRoom_handler_outcome Sample.closed_B "t2_u3" (Some "u3")
              (Sample.t0 + 4) (Sample.t0 + 5) Sample.room_B) as [H1 _]; [done|].
  destruct (joinChatRoom_handler_outcome Sample.closed_B "t2_u3" (Some "u3")
              (Sample.t0 + 4) (Sample.t0 + 5) Sample.room_A) as [_ H2]; [done|].
  split.
  - change Sample.u3 with (Context.mk (Some "t2_u3") (Some "u3")).
    rewrite H1; [done|]. vm_compute. reflexivity.
  - destruct (ChatRoomRepository.getChatRoom Sample.closed_B Sample.room_A)
      as [room|] eqn:E; [|vm_compute in E; discriminate].
    apply (H2 room eq_refl). vm_compute in E. by injection E as <-.
Defined.

(** X21. GET /api/chatrooms/:id/messages, for an authenticated user, reads
    and never writes or sends.  It answers 404 when the room does not
    exist, 403 when the user is not among the participants of the room, and
    otherwise 200 with the page that [getMessages] returns for the limit
    brought to at most 100, whether the room is active or not. *)
Theorem getMessages_handler_access st userId username id limit before :
  userId ≠ EmptyString →
  let outcome :=
    Handlers.getMessages st (Context.mk (Some userId) username) id limit before in
  store outcome = st ∧ sent outcome = [] ∧
  (ChatRoomRepository.getChatRoom st id = None → status (response outcome) = 404) ∧
  (∀ room,
     ChatRoomRepository.getChatRoom st id = Some room →
     (userId ∉ ChatRoom.participants room → status (response outcome) = 403) ∧
     (userId ∈ ChatRoom.participants room →
      response outcome
      = Success 200
          (MessageRepository.getMessages st id (Some (Handlers.limitNum limit)) before) ∧
      Handlers.limitNum limit ≤ 100)).
Proof.
  intros Hu outcome. unfold outcome, Handlers.getMessages. simpl Context.userId.
  cbv iota beta. rewrite (HandlerFacts.authenticated userId Hu). cbv iota.
  destruct (ChatRoomRepository.getChatRoom st id) as [room|] eqn:E.
  - case_bool_decide as Hin; simpl.
    + split; [done|]. split; [done|]. split; [done|]. intros r [= <-].
      split; [done|]. intros _. split; [done|]. unfold Handlers.limitNum. lia.
    + split; [done|]. split; [done|]. split; [done|]. intros r [= <-].
      split; [done|]. by intros ?.
  - simpl. split; [done|]. split; [done|]. split; [done|]. by intros r.
Qed.

Lemma getMessages_handler_access_witness :
  status (response (Handlers.getMessages Sample.chatty Sample.u3 Sample.room_id
                      None None)) = 403 ∧
  status (response (Handlers.getMessages Sample.chatty Sample.u1 Sample.room_id
                      None None)) = 200.
Proof.
  destruct (ChatRoomRepository.getChatRoom Sample.chatty Sample.room_id)
    as [room|] eqn:E; [|vm_compute in E; discriminate].
  destruct (getMessages_handler_access Sample.chatty "t2_u3" (Some "u3") Sample.room_id
              None None) as (_ & _ & _ & H3); [done|].
  destruct (getMessages_handler_access Sample.chatty "t2_u1" (Some "u1") Sample.room_id
              None None) as (_ & _ & _ & H1); [done|].
  vm_compute in E. injection E as <-. split.
  - eapply H3; [reflexivity|]. apply (bool_decide_unpack _). vm_compute. exact I.
  - edestruct H1 as [_ H]; [reflexivity|]. destruct H as [H _].
    + apply (bool_decide_unpack _). vm_compute. exact I.
    + change Sample.u1 with (Context.mk (Some "t2_u1") (Some "u1")). by rewrite H.
Defined.

Module ProfileHandlerFacts.

Lemma createOrUpdateUserProfile_NoDup st now userId username interests :
  NoDup (UserRepository.getUserInterests st userId) →
  NoDup (UserRepository.getUserInterests
           (UserRepository.createOrUpdateUserProfile st now userId username interests).2
           userId).
Proof.
  intros Hnd. unfold UserRepository.createOrUpdateUserProfile.
  set (st1 := Redis.hSet_profile st _ _).
  destruct interests as [l|]; [|done].
  destruct (0 <? Z.of_nat (length l)); [|done].
  destruct (InterestFacts.setUserInterests_spec st1 userId l) as [Hmany Hfew].
  destruct (decide (length l ≤ 5)%nat) as [Hlen|Hlen].
  - destruct (Hfew Hlen) as (_ & _ & Hnd' & _).
    by destruct (UserRepository.setUserInterests st1 userId l) as [[v|r] st2].
  - by rewrite Hmany by lia.
Qed.

End ProfileHandlerFacts.

(** X22. POST /api/user/interests, for an authenticated user, answers 200
    exactly when the interests are an array of at most five tags of the
    catalogue; otherwise it answers 400 and changes nothing.  It never
    answers 500 and never sends.  After a 200 [getUserInterests] returns
    the given tags, each once, and the profile of the user exists and
    carries the name of the user and the given list. *)
Theorem setUserInterests_handler_outcome st userId username now interests :
  userId ≠ EmptyString → username ≠ EmptyString →
  let outcome :=
    Handlers.setUserInterests st (Context.mk (Some userId) (Some username)) now
      interests in
  let accepted :=
    ∃ l, interests = Some l ∧ Forall (λ i, i ∈ INTEREST_TAG_IDS) l ∧ (length l ≤ 5)%nat in
  sent outcome = [] ∧
  (status (response outcome) = 200 ↔ accepted) ∧
  (¬ accepted → status (response outcome) = 400 ∧ store outcome = st) ∧
  (∀ l, interests = Some l → Forall (λ i, i ∈ INTEREST_TAG_IDS) l → (length l ≤ 5)%nat →
     response outcome = Success 200 true ∧
     (∀ x, x ∈ UserRepository.getUserInterests (store outcome) userId ↔ x ∈ l) ∧
     NoDup (UserRepository.getUserInterests (store outcome) userId) ∧
     ∃ profile,
       UserRepository.getUserProfile (store outcome) userId = Some profile ∧
       UserProfile.username profile = Some username ∧
       UserProfile.interests profile = l).
Proof.
  intros Hu Hn outcome accepted. unfold outcome, accepted, Handlers.setUserInterests.
  simpl Context.userId. simpl Context.username. cbv iota beta.
  rewrite (HandlerFacts.authenticated userId Hu), (HandlerFacts.authenticated username Hn).
  simpl orb. cbv iota.
  destruct interests as [l|].
  2: { simpl. split; [done|]. split; [split; [done|by intros (? & ? & _)]|].
       split; [done|]. by intros l. }
  rewrite HandlerFacts.invalid_interests.
  case_bool_decide as Hall; simpl negb; cbv iota.
  2: { simpl. split; [done|]. split; [split; [done|]|split; [done|]].
       - intros (l' & [= <-] & ? & _). by destruct Hall.
       - intros l' [= <-] ?. by destruct Hall. }
  destruct (5 <? Z.of_nat (length l)) eqn:Elen.
  { apply Z.ltb_lt in Elen. simpl. split; [done|].
    split; [split; [done|]|split; [done|]].
    - intros (l' & [= <-] & _ & ?). lia.
    - intros l' [= <-] _ ?. lia. }
  apply Z.ltb_ge in Elen.
  assert (Hlen : (length l ≤ 5)%nat) by lia.
  destruct (InterestFacts.setUserInterests_spec st userId l) as [_ Hset].
  destruct (Hset Hlen) as (Hret & Hin & Hnd & _).
  destruct (UserRepository.setUserInterests st userId l) as [[v|r] st1]; [|done].
  simpl in Hin, Hnd.
  destruct (UpsertFacts.createOrUpdateUserProfile_spec st1 now userId username (Some l) Hu)
    as (profile & Hp & _ & Hname & Hint & _ & Hok & _ & Hmem & Hkeep & _).
  pose proof (ProfileHandlerFacts.createOrUpdateUserProfile_NoDup st1 now userId username
                (Some l) Hnd) as Hnd'.
  destruct (UserRepository.createOrUpdateUserProfile st1 now userId username (Some l))
    as [c st2].
  simpl in Hp, Hok, Hmem, Hkeep, Hnd'.
  rewrite Hok by (intros l' [= <-]; exact Hlen). simpl.
  split; [done|]. split; [split; [intros _; by exists l|done]|].
  split; [intros Hno; destruct Hno; by exists l|].
  intros l' [= <-] _ _. split; [done|]. split; [|split; [done|]].
  - destruct l as [|i l].
    + rewrite Hkeep; [done|]. intros l' [= <-]. by left.
    + by apply (Hmem (i :: l)).
  - exists profile. split; [done|]. split; [done|]. by apply Hint.
Qed.

Lemma setUserInterests_handler_outcome_witness :
  response (Handlers.setUserInterests Sample.lobby Sample.u3 (Sample.t0 + 9)
              (Some ["music"; "books"])) = Success 200 true ∧
  status (response (Handlers.setUserInterests Sample.lobby Sample.u3 (Sample.t0 + 9)
                      (Some ["music"; "books"; "art"; "food"; "travel"; "sports"])))
  = 400.
Proof.
  split.
  - destruct (setUserInterests_handler_outcome Sample.lobby "t2_u3" "u3" (Sample.t0 + 9)
                (Some ["music"; "books"])) as (_ & _ & _ & H); [done|done|].
    apply (H ["music"; "books"]); [done| |simpl; lia].
    apply (bool_decide_unpack _). vm_compute. exact I.
  - destruct (setUserInterests_handler_outcome Sample.lobby "t2_u3" "u3" (Sample.t0 + 9)
                (Some ["music"; "books"; "art"; "food"; "travel"; "sports"]))
      as (_ & _ & H & _); [done|done|].
    apply H. intros (l & [= <-] & _ & Hlen). simpl in Hlen. lia.
Defined.

(** X23. GET /api/user/profile, for an authenticated user, always answers
    200.  When the user has a profile it returns it and changes nothing;
    otherwise it creates one with the name of the user, without interests
    and active chats, created at the time of the call, and returns it.
    Asked again, it returns the same profile and changes nothing. *)
Theorem getUserProfile_handler_creates_once st userId username now now' :
  userId ≠ EmptyString → username ≠ EmptyString →
  let ctx := Context.mk (Some userId) (Some username) in
  let first := Handlers.getUserProfile st ctx now in
  (∀ profile, UserRepository.getUserProfile st userId = Some profile →
     first = mkOutcome (Success 200 profile) st []) ∧
  (UserRepository.getUserProfile st userId = None →
   response first = Success 200 (UserProfile.mk userId (Some username) [] [] now)) ∧
  (∃ profile,
     response first = Success 200 profile ∧
     UserRepository.getUserProfile (store first) userId = Some profile ∧
     Handlers.getUserProfile (store first) ctx now'
     = mkOutcome (Success 200 profile) (store first) []) ∧
  sent first = [] ∧ same_rooms st (store first).
Proof.
  intros Hu Hn ctx first. unfold first, ctx, Handlers.getUserProfile.
  simpl Context.userId. simpl Context.username. cbv iota beta.
  rewrite (HandlerFacts.authenticated userId Hu), (HandlerFacts.authenticated username Hn).
  simpl orb. cbv iota.
  destruct (UserRepository.getUserProfile st userId) as [profile|] eqn:E.
  - simpl. split; [by intros p [= <-]|]. split; [done|]. split.
    + exists profile. split; [done|]. split; [done|]. by rewrite E.
    + split; [done|apply ViewFacts.same_rooms_refl].
  - destruct (UpsertFacts.createOrUpdateUserProfile_spec st now userId username None Hu)
      as (profile & Hp & Hid & Hname & _ & Hnew & Hok & _).
    rewrite E in Hnew. destruct Hnew as (Hint & Hchats & Hcreated).
    pose proof (ViewFacts.same_rooms_createOrUpdateUserProfile st now userId username
                  None) as Hsame.
    destruct (UserRepository.createOrUpdateUserProfile st now userId username None)
      as [c st1].
    simpl in Hp, Hok, Hsame. rewrite Hok by done. simpl.
    split; [done|]. split.
    { intros _. f_equal. destruct profile as [i u ints chats c']. simpl in *.
      by rewrite Hid, Hname, (Hint eq_refl), Hchats, Hcreated. }
    split; [|done]. exists profile. split; [done|]. split; [done|]. by rewrite Hp.
Qed.

Lemma getUserProfile_handler_creates_once_witness :
  response (Handlers.getUserProfile Sample.lobby Sample.u3 (Sample.t0 + 9))
  = Success 200 (UserProfile.mk "t2_u3" (Some "u3") [] [] (Sample.t0 + 9)).
Proof.
  destruct (getUserProfile_handler_creates_once Sample.lobby "t2_u3" "u3"
              (Sample.t0 + 9) (Sample.t0 + 10)) as (_ & H & _); [done|done|].
  apply H. vm_compute. reflexivity.
Defined.

(** ** Searching *)

Module SearchFacts.

Lemma filter_throwing_total {A} (test : A → option bool) (l : list A) :
  Forall (λ x, is_Some (test x)) l →
  ChatRoomRepository.filter_throwing test l = Some (filter (λ x, test x = Some true) l).
Proof.
  induction 1 as [|x l [b Hb] _ IH]; [done|]. simpl. rewrite Hb, IH.
  destruct b.
  - by rewrite filter_cons_True.
  - rewrite filter_cons_False; [done|by rewrite Hb].
Qed.

(** The test on a room that has a title and a topic. *)
Lemma matchesQuery_spec (toLowerCase : string → string) (lowerQuery : string)
    (room : ChatRoom.t) :
  room_ok room →
  is_Some (ChatRoomRepository.matchesQuery toLowerCase lowerQuery room) ∧
  (ChatRoomRepository.matchesQuery toLowerCase lowerQuery room = Some true
   ↔ ∃ text,
       (ChatRoom.title room = Some text ∨ ChatRoom.topic room = Some text ∨
        text ∈ ChatRoom.interests room) ∧
       Text.includes (toLowerCase text) lowerQuery = true).
Proof.
  intros [[title Et] [topic Ep] _ _ _]. unfold ChatRoomRepository.matchesQuery.
  rewrite Et, Ep.
  destruct (Text.includes (toLowerCase title) lowerQuery) eqn:E1.
  { split; [by eexists|]. split; [|done]. intros _. exists title. by split; [left|]. }
  destruct (Text.includes (toLowerCase topic) lowerQuery) eqn:E2.
  { split; [by eexists|]. split; [|done]. intros _. exists topic.
    by split; [right; left|]. }
  split; [by eexists|]. split.
  - intros [= Hex]. apply existsb_exists in Hex as (text & Hin & Hinc).
    exists text. split; [|done]. right. right. by apply list_elem_of_In.
  - intros (text & [[= <-]|[[= <-]|Hin]] & Hinc); [congruence|congruence|].
    f_equal. apply existsb_exists. exists text. split; [|done].
    by apply list_elem_of_In.
Qed.

End SearchFacts.

(** X24. Whatever the lower-casing of the language does, in an attainable
    store [searchChatRooms] does not throw.  It returns the active rooms, in
    the order of [getActiveChatRooms], whose title, topic or one of whose
    interests holds the query, both taken in lower case, and only them; so
    two queries with the same lower case find the same rooms. *)
Theorem searchChatRooms_finds (toLowerCase : string → string) st query :
  attainable st →
  ∃ results,
    ChatRoomRepository.searchChatRooms toLowerCase st query = Some results ∧
    results `sublist_of` ChatRoomRepository.getActiveChatRooms st ∧
    (∀ room,
       room ∈ results
       ↔ room ∈ ChatRoomRepository.getActiveChatRooms st ∧
         ∃ text,
           (ChatRoom.title room = Some text ∨ ChatRoom.topic room = Some text ∨
            text ∈ ChatRoom.interests room) ∧
           Text.includes (toLowerCase text) (toLowerCase query) = true) ∧
    (∀ query', toLowerCase query' = toLowerCase query →
               ChatRoomRepository.searchChatRooms toLowerCase st query' = Some results).
Proof.
  intros Hatt. pose proof (Attainable.store_ok_attainable st Hatt) as Hst.
  assert (Hok : ∀ room, room ∈ ChatRoomRepository.getActiveChatRooms st → room_ok room).
  { intros room Hin. apply (DiscoveryFacts.elem_of_getActiveChatRooms st room Hst) in Hin.
    destruct Hin as [E _]. by apply (ok_rooms st Hst _ room E). }
  assert (Htotal : ∀ lowerQuery,
    ChatRoomRepository.filter_throwing
      (ChatRoomRepository.matchesQuery toLowerCase lowerQuery)
      (ChatRoomRepository.getActiveChatRooms st)
    = Some (filter (λ x, ChatRoomRepository.matchesQuery toLowerCase lowerQuery x
                         = Some true)
              (ChatRoomRepository.getActiveChatRooms st))).
  { intros lowerQuery. apply SearchFacts.filter_throwing_total, Forall_forall.
    intros room Hin. by apply SearchFacts.matchesQuery_spec, Hok. }
  eexists. split; [apply Htotal|]. split; [apply sublist_filter|].
  split.
  - intros room. rewrite list_elem_of_filter. split.
    + intros [Hm Hin]. split; [done|].
      by apply (SearchFacts.matchesQuery_spec _ _ room (Hok room Hin)).
    + intros [Hin Hm]. split; [|done].
      by apply (SearchFacts.matchesQuery_spec _ _ room (Hok room Hin)).
  - intros query' Heq. unfold ChatRoomRepository.searchChatRooms.
    rewrite Heq. apply Htotal.
Qed.

Lemma searchChatRooms_finds_witness :
  (map ChatRoom.id <$>
     ChatRoomRepository.searchChatRooms Sample.lower Sample.lobby "SOUND")
  = Some [Sample.room_A].
Proof.
  assert (Hst : attainable Sample.lobby).
  { apply HistoryFacts.attainable_run; [constructor|].
    vm_compute. repeat split; discriminate. }
  destruct (searchChatRooms_finds Sample.lower Sample.lobby "SOUND" Hst)
    as (results & H1 & _).
  rewrite H1. vm_compute in H1. injection H1 as <-. reflexivity.
Defined.

Module SearchTotal.

Lemma searchChatRooms_total (toLowerCase : string → string) st query :
  attainable st →
  ∃ results, ChatRoomRepository.searchChatRooms toLowerCase st query = Some results.
Proof.
  intros Hatt. pose proof (Attainable.store_ok_attainable st Hatt) as Hst.
  eexists. apply SearchFacts.filter_throwing_total, Forall_forall.
  intros room Hin. apply SearchFacts.matchesQuery_spec.
  apply (DiscoveryFacts.elem_of_getActiveChatRooms st room Hst) in Hin.
  destruct Hin as [E _]. by apply (ok_rooms st Hst _ room E).
Qed.

End SearchTotal.

(** X25. GET /api/search/chatrooms, for an authenticated user and an
    attainable store, reads and never writes or sends.  Without a query,
    or with one that is shorter than two characters once trimmed, it
    answers 400.  Otherwise it answers 200, never 500, with what
    [searchChatRooms] finds for the trimmed query, cut to its first rooms
    when the limit is absent or not negative: as many as the limit, 20 by
    default and never more than 50. *)
Theorem searchChatRooms_handler_outcome (toLowerCase : string → string)
    st userId username query limit :
  userId ≠ EmptyString →
  attainable st →
  let outcome :=
    Handlers.searchChatRooms toLowerCase st (Context.mk (Some userId) username)
      query limit in
  store outcome = st ∧ sent outcome = [] ∧
  (query = None → status (response outcome) = 400) ∧
  (∀ q, query = Some q →
     (str_length (Text.trim q) < 2 → status (response outcome) = 400) ∧
     (2 ≤ str_length (Text.trim q) →
      ∃ results,
        ChatRoomRepository.searchChatRooms toLowerCase st (Text.trim q) = Some results ∧
        response outcome = Success 200 (slice results 0 (Handlers.searchLimit limit)) ∧
        ((∀ n, limit = Some n → 0 ≤ n) →
         response outcome
         = Success 200 (take (Z.to_nat (Handlers.searchLimit limit)) results) ∧
         1 ≤ Handlers.searchLimit limit ≤ 50))).
Proof.
  intros Hu Hatt outcome. unfold outcome, Handlers.searchChatRooms.
  simpl Context.userId. cbv iota beta.
  rewrite (HandlerFacts.authenticated userId Hu). cbv iota.
  destruct query as [q|]; [|simpl; split; [done|]; split; [done|]; by split].
  destruct (SearchTotal.searchChatRooms_total toLowerCase st (Text.trim q))
    as [results Hres].
  { exact Hatt. }
  destruct q as [|c q].
  { simpl. split; [done|]. split; [done|]. split; [done|]. intros q [= <-].
    split; [done|]. change (Text.trim EmptyString) with EmptyString.
    unfold str_length. simpl. lia. }
  destruct (str_length (Text.trim (String c q)) <? 2) eqn:Elen.
  { apply Z.ltb_lt in Elen. simpl. split; [done|]. split; [done|]. split; [done|].
    intros q' [= <-]. split; [done|]. lia. }
  apply Z.ltb_ge in Elen. rewrite Hres. simpl.
  split; [done|]. split; [done|]. split; [done|]. intros q' [= <-].
  split; [lia|]. intros _. exists results. split; [done|]. split; [done|].
  intros Hlimit. pose proof (SliceFacts.searchLimit_bounds limit Hlimit) as Hb.
  split; [|done]. by rewrite SliceFacts.slice_first by lia.
Qed.

Lemma searchChatRooms_handler_outcome_witness :
  status (response (Handlers.searchChatRooms Sample.lower Sample.lobby Sample.u3
                      (Some " m ") None))
  = 400 ∧
  (length <$>
     match response (Handlers.searchChatRooms Sample.lower Sample.lobby Sample.u3
                       (Some "  Music ") (Some 1)) with
     | Success _ rooms => Some rooms
     | Failure _ _ _ => None
     end) = Some 1%nat.
Proof.
  assert (Hst : attainable Sample.lobby).
  { apply HistoryFacts.attainable_run; [constructor|].
    vm_compute. repeat split; discriminate. }
  split.
  - destruct (searchChatRooms_handler_outcome Sample.lower Sample.lobby "t2_u3"
                (Some "u3") (Some " m ") None) as (_ & _ & _ & H); [done|done|].
    destruct (H " m " eq_refl) as [H400 _]. apply H400. vm_compute. reflexivity.
  - destruct (searchChatRooms_handler_outcome Sample.lower Sample.lobby "t2_u3"
                (Some "u3") (Some "  Music ") (Some 1)) as (_ & _ & _ & H); [done|done|].
    destruct (H "  Music " eq_refl) as [_ H200].
    destruct H200 as (results & Hres & _ & Hpage); [vm_compute; discriminate|].
    destruct Hpage as [Hpage _]; [intros n [= <-]; lia|].
    change Sample.u3 with (Context.mk (Some "t2_u3") (Some "u3")). rewrite Hpage.
    vm_compute in Hres. injection Hres as <-. reflexivity.
Defined.

(** ** Cleaning of input *)

Module SanitizeFacts.

Lemma remove_angle_brackets_clean (s : string) (c : ascii) :
  In c (list_ascii_of_string (Text.remove_angle_brackets s)) →
  c ≠ "<"%char ∧ c ≠ ">"%char ∧ In c (list_ascii_of_string s).
Proof.
  induction s as [|a s IH]; simpl; [done|].
  destruct (Ascii.eqb a "<") eqn:E1; simpl.
  { intros H. destruct (IH H) as (? & ? & ?). auto. }
  destruct (Ascii.eqb a ">") eqn:E2; simpl.
  { intros H. destruct (IH H) as (? & ? & ?). auto. }
  intros [<-|H].
  - apply Ascii.eqb_neq in E1, E2. auto.
  - destruct (IH H) as (? & ? & ?). auto.
Qed.

Lemma remove_angle_brackets_length (s : string) :
  (String.length (Text.remove_angle_brackets s) ≤ String.length s)%nat.
Proof.
  induction s as [|a s IH]; simpl; [done|].
  destruct (Ascii.eqb a "<" || Ascii.eqb a ">"); simpl; lia.
Qed.

(** Without angle brackets nothing is removed. *)
Lemma remove_angle_brackets_id (s : string) :
  (∀ c, In c (list_ascii_of_string s) → c ≠ "<"%char ∧ c ≠ ">"%char) →
  Text.remove_angle_brackets s = s.
Proof.
  induction s as [|a s IH]; simpl; [done|]. intros H.
  destruct (H a (or_introl eq_refl)) as [H1 H2].
  apply Ascii.eqb_neq in H1, H2. rewrite H1, H2. simpl. f_equal.
  apply IH. intros c Hc. apply H. by right.
Qed.

Lemma substring_prefix (n : nat) : ∀ (s : string) (c : ascii),
  In c (list_ascii_of_string (String.substring 0 n s)) → In c (list_ascii_of_string s).
Proof.
  induction n as [|n IH]; intros [|a s] c; simpl; try done.
  intros [?|H]; [by left|]. right. by apply IH.
Qed.

Lemma substring_length (n : nat) : ∀ s : string,
  String.length (String.substring 0 n s) = Nat.min n (String.length s).
Proof.
  induction n as [|n IH]; intros [|a s]; simpl; try done. by rewrite IH.
Qed.

Lemma substring_all (n : nat) : ∀ s : string,
  (String.length s ≤ n)%nat → String.substring 0 n s = s.
Proof.
  induction n as [|n IH]; intros [|a s] H; simpl in *; try done; [lia|].
  f_equal. apply IH. lia.
Qed.

Lemma trimStart_length (s : string) :
  (String.length (Text.trimStart s) ≤ String.length s)%nat.
Proof.
  induction s as [|a s IH]; simpl; [done|]. destruct (Text.is_space a); simpl; lia.
Qed.

Lemma trimEnd_length (s : string) :
  (String.length (Text.trimEnd s) ≤ String.length s)%nat.
Proof.
  induction s as [|a s IH]; simpl; [done|].
  destruct (Text.trimEnd s); [destruct (Text.is_space a)|]; simpl in *; lia.
Qed.

Lemma trim_length (s : string) : (String.length (Text.trim s) ≤ String.length s)%nat.
Proof.
  unfold Text.trim. etransitivity; [apply trimEnd_length|apply trimStart_length].
Qed.

End SanitizeFacts.

(** X26. What [sanitizeInput] returns holds neither [<] nor [>], is at most
    1000 characters long and never longer than the input; an input that
    has no white space at its ends, no angle bracket and at most 1000
    characters is returned as it is. *)
Theorem sanitizeInput_is_clean input :
  let output := sanitizeInput input in
  (∀ c, In c (list_ascii_of_string output) → c ≠ "<"%char ∧ c ≠ ">"%char) ∧
  (String.length output ≤ 1000)%nat ∧
  (String.length output ≤ String.length input)%nat ∧
  (Text.trim input = input →
   (∀ c, In c (list_ascii_of_string input) → c ≠ "<"%char ∧ c ≠ ">"%char) →
   (String.length input ≤ 1000)%nat →
   output = input).
Proof.
  intros output. unfold output, sanitizeInput. split; [|split; [|split]].
  - intros c Hc. apply SanitizeFacts.substring_prefix in Hc.
    by destruct (SanitizeFacts.remove_angle_brackets_clean _ c Hc) as (? & ? & _).
  - rewrite SanitizeFacts.substring_length. lia.
  - rewrite SanitizeFacts.substring_length.
    pose proof (SanitizeFacts.remove_angle_brackets_length (Text.trim input)).
    pose proof (SanitizeFacts.trim_length input). lia.
  - intros Htrim Hclean Hlen. rewrite Htrim.
    rewrite SanitizeFacts.remove_angle_brackets_id by done.
    by apply SanitizeFacts.substring_all.
Qed.

(** ** The stores that the handlers leave *)

Module HandlerStores.

Lemma attainable_exec st c : attainable st → fresh_id st c → attainable (exec st c).
Proof. intros Hst Hc. by apply (attainable_perform st (Repository c)). Qed.

Lemma attainable_createOrUpdateUserProfile st now userId username interests :
  attainable st →
  attainable (UserRepository.createOrUpdateUserProfile st now userId username interests).2.
Proof.
  intros Hst.
  by apply (attainable_perform st
              (CreateOrUpdateUserProfile now userId username interests)).
Qed.

Lemma attainable_setUserInterests st userId interests :
  attainable st → attainable (UserRepository.setUserInterests st userId interests).2.
Proof. intros Hst. by apply (attainable_perform st (SetUserInterests userId interests)). Qed.

Lemma createChatRoom_store st ctx newId now body :
  attainable st →
  newId ≠ EmptyString → colon_free newId = true →
  ChatRoomRepository.getChatRoom st newId = None →
  attainable (store (Handlers.createChatRoom st ctx newId now body)).
Proof.
  intros Hst H1 H2 H3. unfold Handlers.createChatRoom.
  destruct (Context.userId ctx) as [userId|]; [|done].
  destruct (Context.username ctx) as [username|]; [|done].
  destruct (falsy (Some userId) || falsy (Some username)); [done|].
  destruct (negb (valid (validateChatRoomTitle _))); [done|].
  destruct (negb (valid (validateChatRoomTopic _))); [done|].
  destruct (CreateChatRoomRequest.interests body) as [interests|]; [|done].
  destruct (0 <? _); [done|].
  rewrite (surjective_pairing (ChatRoomRepository.createChatRoom st newId now _ _ _ _ _)).
  cbv iota beta. unfold store.
  apply (attainable_exec _ (AddUserToActiveChat userId _)); [|done].
  by apply (attainable_exec st
              (CreateChatRoom newId now (Text.trim (CreateChatRoomRequest.title body))
                 (Text.trim (CreateChatRoomRequest.topic body)) userId username
                 interests)).
Qed.

Lemma joinChatRoom_store st ctx now sentAt id :
  attainable st → attainable (store (Handlers.joinChatRoom st ctx now sentAt id)).
Proof.
  intros Hst. unfold Handlers.joinChatRoom.
  destruct (Context.userId ctx) as [userId|]; [|done].
  destruct (falsy (Some userId)); [done|].
  rewrite (surjective_pairing (ChatRoomRepository.joinChatRoom st now id userId)).
  cbv iota beta.
  pose proof (attainable_exec st (JoinChatRoom now id userId) Hst I) as H1.
  destruct (negb _); [done|]. unfold store.
  by apply (attainable_exec _ (AddUserToActiveChat userId id)).
Qed.

Lemma leaveChatRoom_store st ctx now id :
  attainable st → attainable (store (Handlers.leaveChatRoom st ctx now id)).
Proof.
  intros Hst. unfold Handlers.leaveChatRoom.
  destruct (Context.userId ctx) as [userId|]; [|done].
  destruct (falsy (Some userId)); [done|].
  rewrite (surjective_pairing (ChatRoomRepository.leaveChatRoom st now id userId)).
  cbv iota beta.
  pose proof (attainable_exec st (LeaveChatRoom now id userId) Hst I) as H1.
  destruct (negb _); [done|]. unfold store.
  by apply (attainable_exec _ (RemoveUserFromActiveChat userId id)).
Qed.

Lemma deleteChatRoom_store st ctx now id :
  attainable st → attainable (store (Handlers.deleteChatRoom st ctx now id)).
Proof.
  intros Hst. unfold Handlers.deleteChatRoom.
  destruct (Context.userId ctx) as [userId|]; [|done].
  destruct (falsy (Some userId)); [done|].
  rewrite (surjective_pairing (ChatRoomRepository.deleteChatRoom st id userId)).
  cbv iota beta.
  pose proof (attainable_exec st (DeleteChatRoom id userId) Hst I) as H1.
  by destruct (negb _).
Qed.

Lemma getUserProfile_store st ctx now :
  attainable st → attainable (store (Handlers.getUserProfile st ctx now)).
Proof.
  intros Hst. unfold Handlers.getUserProfile.
  destruct (Context.userId ctx) as [userId|]; [|done].
  destruct (Context.username ctx) as [username|]; [|done].
  destruct (falsy (Some userId) || falsy (Some username)); [done|].
  destruct (UserRepository.getUserProfile st userId); [done|].
  pose proof (attainable_createOrUpdateUserProfile st now userId username None Hst) as H1.
  by destruct (UserRepository.createOrUpdateUserProfile st now userId username None)
    as [[p|r] st1].
Qed.

Lemma setUserInterests_store st ctx now interests :
  attainable st → attainable (store (Handlers.setUserInterests st ctx now interests)).
Proof.
  intros Hst. unfold Handlers.setUserInterests.
  destruct (Context.userId ctx) as [userId|]; [|done].
  destruct (Context.username ctx) as [username|]; [|done].
  destruct (falsy (Some userId) || falsy (Some username)); [done|].
  destruct interests as [l|]; [|done].
  destruct (0 <? _); [done|]. destruct (5 <? _); [done|].
  pose proof (attainable_setUserInterests st userId l Hst) as H1.
  destruct (UserRepository.setUserInterests st userId l) as [[v|r] st1]; [|done].
  simpl in H1.
  pose proof (attainable_createOrUpdateUserProfile st1 now userId username (Some l) H1)
    as H2.
  by destruct (UserRepository.createOrUpdateUserProfile st1 now userId username (Some l))
    as [[p|r] st2].
Qed.

End HandlerStores.

(** X27. Every handler leaves an attainable store attainable, so that what
    holds in the attainable stores holds in every state that the handlers
    bring about (a room created by POST /api/chatrooms having a fresh id);
    the handlers that only read leave the store as it is. *)
Theorem handlers_keep_the_store_attainable st ctx :
  attainable st →
  (∀ newId now body,
     newId ≠ EmptyString → colon_free newId = true →
     ChatRoomRepository.getChatRoom st newId = None →
     attainable (store (Handlers.createChatRoom st ctx newId now body))) ∧
  (∀ now sentAt id, attainable (store (Handlers.joinChatRoom st ctx now sentAt id))) ∧
  (∀ now id, attainable (store (Handlers.leaveChatRoom st ctx now id))) ∧
  (∀ now id, attainable (store (Handlers.deleteChatRoom st ctx now id))) ∧
  (∀ now, attainable (store (Handlers.getUserProfile st ctx now))) ∧
  (∀ now interests,
     attainable (store (Handlers.setUserInterests st ctx now interests))) ∧
  (∀ id limit before, store (Handlers.getMessages st ctx id limit before) = st) ∧
  (∀ interests limit offset,
     store (Handlers.getChatRooms st ctx interests limit offset) = st) ∧
  (∀ id, store (Handlers.getChatRoom st ctx id) = st) ∧
  (∀ toLowerCase query limit,
     store (Handlers.searchChatRooms toLowerCase st ctx query limit) = st) ∧
  store (Handlers.getUserInterests st ctx) = st ∧
  store (Handlers.getInterests st) = st.
Proof.
  intros Hst.
  split; [intros; by apply HandlerStores.createChatRoom_store|].
  split; [intros; by apply HandlerStores.joinChatRoom_store|].
  split; [intros; by apply HandlerStores.leaveChatRoom_store|].
  split; [intros; by apply HandlerStores.deleteChatRoom_store|].
  split; [intros; by apply HandlerStores.getUserProfile_store|].
  split; [intros; by apply HandlerStores.setUserInterests_store|].
  split.
  { intros id limit before. unfold Handlers.getMessages.
    destruct (Context.userId ctx) as [userId|]; [|done].
    destruct (falsy (Some userId)); [done|].
    destruct (ChatRoomRepository.getChatRoom st id); [|done].
    by destruct (negb _). }
  split.
  { intros interests limit offset. unfold Handlers.getChatRooms.
    destruct (Context.userId ctx) as [userId|]; [|done].
    by destruct (falsy (Some userId)). }
  split.
  { intros id. unfold Handlers.getChatRoom.
    destruct (Context.userId ctx) as [userId|]; [|done].
    destruct (falsy (Some userId)); [done|].
    by destruct (ChatRoomRepository.getChatRoom st id). }
  split.
  { intros toLowerCase query limit. unfold Handlers.searchChatRooms.
    destruct (Context.userId ctx) as [userId|]; [|done].
    destruct (falsy (Some userId)); [done|].
    destruct query as [[|c q]|]; [done| |done].
    destruct (_ <? 2); [done|].
    by destruct (ChatRoomRepository.searchChatRooms _ st _). }
  split; [|done].
  unfold Handlers.getUserInterests.
  destruct (Context.userId ctx) as [userId|]; [|done].
  by destruct (falsy (Some userId)).
Qed.

Lemma handlers_keep_the_store_attainable_witness :
  attainable (store (Handlers.joinChatRoom
                       (store (Handlers.createChatRoom emptyStore Sample.u1
                                 Sample.room_id Sample.t0
                                 (CreateChatRoomRequest.mk "Book Club"
                                    "Weekly fiction discussion" (Some ["books"]))))
                       Sample.u3 (Sample.t0 + 1) (Sample.t0 + 2) Sample.room_id)).
Proof.
  apply handlers_keep_the_store_attainable.
  apply handlers_keep_the_store_attainable; [constructor|done|done|done].
Defined.

(** X28. A handler sends a notification only when it answers with success,
    and then at most one: POST /api/chatrooms with 201, join, leave and
    delete with 200; the other handlers send none. *)
Theorem handlers_notify_only_on_success st ctx :
  (∀ newId now body,
     let outcome := Handlers.createChatRoom st ctx newId now body in
     (sent outcome ≠ [] → status (response outcome) = 201) ∧
     (length (sent outcome) ≤ 1)%nat) ∧
  (∀ now sentAt id,
     let outcome := Handlers.joinChatRoom st ctx now sentAt id in
     (sent outcome ≠ [] → status (response outcome) = 200) ∧
     (length (sent outcome) ≤ 1)%nat) ∧
  (∀ now id,
     let outcome := Handlers.leaveChatRoom st ctx now id in
     (sent outcome ≠ [] → status (response outcome) = 200) ∧
     (length (sent outcome) ≤ 1)%nat) ∧
  (∀ now id,
     let outcome := Handlers.deleteChatRoom st ctx now id in
     (sent outcome ≠ [] → status (response outcome) = 200) ∧
     (length (sent outcome) ≤ 1)%nat) ∧
  (∀ now, sent (Handlers.getUserProfile st ctx now) = []) ∧
  (∀ now interests, sent (Handlers.setUserInterests st ctx now interests) = []) ∧
  (∀ id limit before, sent (Handlers.getMessages st ctx id limit before) = []) ∧
  (∀ interests limit offset,
     sent (Handlers.getChatRooms st ctx interests limit offset) = []) ∧
  (∀ id, sent (Handlers.getChatRoom st ctx id) = []) ∧
  (∀ toLowerCase query limit,
     sent (Handlers.searchChatRooms toLowerCase st ctx query limit) = []) ∧
  sent (Handlers.getUserInterests st ctx) = [] ∧
  sent (Handlers.getInterests st) = [].
Proof.
  split.
  { intros newId now body outcome. unfold outcome, Handlers.createChatRoom.
    destruct (Context.userId ctx) as [userId|]; [|split; [by intros H|simpl; lia]].
    destruct (Context.username ctx) as [username|]; [|split; [by intros H|simpl; lia]].
    destruct (falsy (Some userId) || falsy (Some username)); [split; [by intros H|simpl; lia]|].
    destruct (negb (valid (validateChatRoomTitle _))); [split; [by intros H|simpl; lia]|].
    destruct (negb (valid (validateChatRoomTopic _))); [split; [by intros H|simpl; lia]|].
    destruct (CreateChatRoomRequest.interests body) as [interests|];
      [|split; [by intros H|simpl; lia]].
    destruct (0 <? _); [split; [by intros H|simpl; lia]|].
    rewrite (surjective_pairing (ChatRoomRepository.createChatRoom st newId now _ _ _ _ _)).
    cbv iota beta. simpl. split; [done|lia]. }
  split.
  { intros now sentAt id outcome. unfold outcome, Handlers.joinChatRoom.
    destruct (Context.userId ctx) as [userId|]; [|split; [by intros H|simpl; lia]].
    destruct (falsy (Some userId)); [split; [by intros H|simpl; lia]|].
    rewrite (surjective_pairing (ChatRoomRepository.joinChatRoom st now id userId)).
    cbv iota beta. destruct (negb _); [split; [by intros H|simpl; lia]|]. simpl.
    split; [done|]. destruct (Context.username ctx) as [[|c u]|]; simpl; lia. }
  split.
  { intros now id outcome. unfold outcome, Handlers.leaveChatRoom.
    destruct (Context.userId ctx) as [userId|]; [|split; [by intros H|simpl; lia]].
    destruct (falsy (Some userId)); [split; [by intros H|simpl; lia]|].
    rewrite (surjective_pairing (ChatRoomRepository.leaveChatRoom st now id userId)).
    cbv iota beta. destruct (negb _); [split; [by intros H|simpl; lia]|]. simpl.
    split; [done|]. destruct (Context.username ctx) as [[|c u]|]; simpl; lia. }
  split.
  { intros now id outcome. unfold outcome, Handlers.deleteChatRoom.
    destruct (Context.userId ctx) as [userId|]; [|split; [by intros H|simpl; lia]].
    destruct (falsy (Some userId)); [split; [by intros H|simpl; lia]|].
    rewrite (surjective_pairing (ChatRoomRepository.deleteChatRoom st id userId)).
    cbv iota beta. destruct (negb _); [split; [by intros H|simpl; lia]|]. simpl.
    split; [done|]. destruct (Context.username ctx) as [[|c u]|]; simpl; lia. }
  split.
  { intros now. unfold Handlers.getUserProfile.
    destruct (Context.userId ctx) as [userId|]; [|done].
    destruct (Context.username ctx) as [username|]; [|done].
    destruct (falsy (Some userId) || falsy (Some username)); [done|].
    destruct (UserRepository.getUserProfile st userId); [done|].
    by destruct (UserRepository.createOrUpdateUserProfile st now userId username None)
      as [[p|r] st1]. }
  split.
  { intros now interests. unfold Handlers.setUserInterests.
    destruct (Context.userId ctx) as [userId|]; [|done].
    destruct (Context.username ctx) as [username|]; [|done].
    destruct (falsy (Some userId) || falsy (Some username)); [done|].
    destruct interests as [l|]; [|done].
    destruct (0 <? _); [done|]. destruct (5 <? _); [done|].
    destruct (UserRepository.setUserInterests st userId l) as [[v|r] st1]; [|done].
    by destruct (UserRepository.createOrUpdateUserProfile st1 now userId username (Some l))
      as [[p|r] st2]. }
  split.
  { intros id limit before. unfold Handlers.getMessages.
    destruct (Context.userId ctx) as [userId|]; [|done].
    destruct (falsy (Some userId)); [done|].
    destruct (ChatRoomRepository.getChatRoom st id); [|done].
    by destruct (negb _). }
  split.
  { intros interests limit offset. unfold Handlers.getChatRooms.
    destruct (Context.userId ctx) as [userId|]; [|done].
    by destruct (falsy (Some userId)). }
  split.
  { intros id. unfold Handlers.getChatRoom.
    destruct (Context.userId ctx) as [userId|]; [|done].
    destruct (falsy (Some userId)); [done|].
    by destruct (ChatRoomRepository.getChatRoom st id). }
  split.
  { intros toLowerCase query limit. unfold Handlers.searchChatRooms.
    destruct (Context.userId ctx) as [userId|]; [|done].
    destruct (falsy (Some userId)); [done|].
    destruct query as [[|c q]|]; [done| |done].
    destruct (_ <? 2); [done|].
    by destruct (ChatRoomRepository.searchChatRooms _ st _). }
  split; [|done].
  unfold Handlers.getUserInterests.
  destruct (Context.userId ctx) as [userId|]; [|done].
  by destruct (falsy (Some userId)).
Qed.

Module DanglingFacts.
Import HashFacts.

Lemma hKeys_fold_hDel_ne (f : string → string) (x : string) (l : list string) key :
  (∀ i, f i ≠ key) →
  ∀ st, Redis.hKeys (fold_left (λ s i, Redis.hDel s (f i) x) l st) key = Redis.hKeys st key.
Proof.
  intros Hne. induction l as [|i l IH]; intros st; simpl; [done|].
  rewrite IH, hKeys_hDel. by rewrite decide_False.
Qed.

(** Deactivating a room touches the two kinds of index only. *)
Lemma deactivate_user_data st chatRoomId user :
  let st' := ChatRoomRepository.deactivateChatRoom st chatRoomId in
  UserRepository.getUserActiveChats st' user = UserRepository.getUserActiveChats st user ∧
  UserRepository.getUserInterests st' user = UserRepository.getUserInterests st user ∧
  UserRepository.getUserProfile st' user = UserRepository.getUserProfile st user.
Proof.
  intros st'. unfold st', ChatRoomRepository.deactivateChatRoom.
  destruct (ChatRoomRepository.getChatRoom st chatRoomId) as [room|]; [|done].
  unfold UserRepository.getUserActiveChats, UserRepository.getUserInterests.
  split; [|split].
  - rewrite hKeys_fold_hDel_ne
      by (intros i Heq; symmetry in Heq;
          by apply KeyFacts.userActiveChats_not_interest in Heq).
    rewrite hKeys_hDel. rewrite decide_False; [done|].
    intros Heq. symmetry in Heq. by apply KeyFacts.userActiveChats_not_active in Heq.
  - rewrite hKeys_fold_hDel_ne
      by (intros i Heq; symmetry in Heq;
          by apply UserKeyFacts.userInterests_not_interest in Heq).
    rewrite hKeys_hDel. rewrite decide_False; [done|].
    intros Heq. symmetry in Heq. by apply UserKeyFacts.userInterests_not_active in Heq.
  - apply UserFacts.getUserProfile_frame.
    by destruct (Frame.fold_hDel REDIS_KEYS.interestChatRooms chatRoomId
                   (ChatRoom.interests room)
                   (Redis.hDel
                      (Redis.hSet_room st (REDIS_KEYS.chatRoom chatRoomId)
                         (RoomHash.mk None None None None None None None None
                            (Some false) None None))
                      REDIS_KEYS.activeChatRooms chatRoomId)) as (_ & -> & _).
Qed.

Lemma del_room_user_data st key user :
  (∀ u, REDIS_KEYS.userActiveChats u ≠ key) →
  (∀ u, REDIS_KEYS.userInterests u ≠ key) →
  (∀ u, REDIS_KEYS.userProfile u ≠ key) →
  UserRepository.getUserActiveChats (Redis.del st key) user
  = UserRepository.getUserActiveChats st user ∧
  UserRepository.getUserInterests (Redis.del st key) user
  = UserRepository.getUserInterests st user ∧
  UserRepository.getUserProfile (Redis.del st key) user
  = UserRepository.getUserProfile st user.
Proof.
  intros H1 H2 H3.
  unfold UserRepository.getUserActiveChats, UserRepository.getUserInterests.
  rewrite !IndexInvariant.hKeys_del, UserFacts.getUserProfile_del.
  rewrite (decide_False (P := key = REDIS_KEYS.userActiveChats user))
    by (intros Heq; by apply (H1 user)).
  rewrite (decide_False (P := key = REDIS_KEYS.userInterests user))
    by (intros Heq; by apply (H2 user)).
  by rewrite decide_False by apply H3.
Qed.

End DanglingFacts.

(** X29. DELETE /api/chatrooms/:id touches no data of any user: the active
    chats, the interests and the profile of every user are as before, so a
    room that was deleted (the answer is 200 and [getChatRoom] no longer
    reads it) stays among the active chats of those who had it there. *)
Theorem deleteChatRoom_keeps_active_chats st ctx now id :
  let outcome := Handlers.deleteChatRoom st ctx now id in
  (∀ user,
     UserRepository.getUserActiveChats (store outcome) user
     = UserRepository.getUserActiveChats st user ∧
     UserRepository.getUserInterests (store outcome) user
     = UserRepository.getUserInterests st user ∧
     UserRepository.getUserProfile (store outcome) user
     = UserRepository.getUserProfile st user) ∧
  (status (response outcome) = 200 →
   ChatRoomRepository.getChatRoom (store outcome) id = None ∧
   ∀ user, id ∈ UserRepository.getUserActiveChats st user →
           id ∈ UserRepository.getUserActiveChats (store outcome) user).
Proof.
  intros outcome.
  assert (Hdata : ∀ user,
    UserRepository.getUserActiveChats (store outcome) user
    = UserRepository.getUserActiveChats st user ∧
    UserRepository.getUserInterests (store outcome) user
    = UserRepository.getUserInterests st user ∧
    UserRepository.getUserProfile (store outcome) user
    = UserRepository.getUserProfile st user).
  { intros user. unfold outcome, Handlers.deleteChatRoom.
    destruct (Context.userId ctx) as [userId|]; [|done].
    destruct (falsy (Some userId)); [done|].
    unfold ChatRoomRepository.deleteChatRoom.
    destruct (ChatRoomRepository.getChatRoom st id) as [room|]; [|done].
    case_bool_decide; [done|]. simpl negb. cbv iota beta. unfold store.
    destruct (DanglingFacts.deactivate_user_data st id user) as (H1 & H2 & H3).
    destruct (DanglingFacts.del_room_user_data
                (ChatRoomRepository.deactivateChatRoom st id) (REDIS_KEYS.chatRoom id)
                user) as (H4 & H5 & H6); [done|done|done|].
    destruct (DanglingFacts.del_room_user_data
                (Redis.del (ChatRoomRepository.deactivateChatRoom st id)
                   (REDIS_KEYS.chatRoom id))
                (REDIS_KEYS.chatRoomMessages id) user) as (H7 & H8 & H9);
      [done|done|done|].
    split; [congruence|]. split; congruence. }
  split; [exact Hdata|]. intros Hok. split.
  - revert Hok. unfold outcome, Handlers.deleteChatRoom.
    destruct (Context.userId ctx) as [userId|]; [|done].
    destruct (falsy (Some userId)); [done|].
    unfold ChatRoomRepository.deleteChatRoom.
    destruct (ChatRoomRepository.getChatRoom st id) as [room|]; [|done].
    case_bool_decide; [done|]. simpl negb. cbv iota beta. unfold store. intros _.
    rewrite !IndexInvariant.getChatRoom_del.
    destruct (decide _); [done|]. by rewrite decide_True.
  - intros user Hin. by destruct (Hdata user) as [-> _].
Qed.

Lemma deleteChatRoom_keeps_active_chats_witness :
  Sample.room_id ∈
    UserRepository.getUserActiveChats
      (store (Handlers.deleteChatRoom
                (store (Handlers.createChatRoom emptyStore Sample.u1 Sample.room_id
                          Sample.t0
                          (CreateChatRoomRequest.mk "Book Club"
                             "Weekly fiction discussion" (Some ["books"]))))
                Sample.u1 (Sample.t0 + 5) Sample.room_id)) "t2_u1".
Proof.
  match goal with
  | |- _ ∈ UserRepository.getUserActiveChats
             (store (Handlers.deleteChatRoom ?s ?c ?n ?i)) _ =>
      destruct (deleteChatRoom_keeps_active_chats s c n i) as [_ H]
  end.
  apply H; [vm_compute; reflexivity|].
  apply (bool_decide_unpack _). vm_compute. exact I.
Defined.

Module ValidatorFacts.

Lemma blank_iff (s : string) :
  (str_length s =? 0) || (str_length (Text.trim s) =? 0) = true ↔ Text.trim s = EmptyString.
Proof.
  unfold str_length. rewrite orb_true_iff, !Z.eqb_eq. split.
  - intros [H|H].
    + by destruct s.
    + by destruct (Text.trim s).
  - intros ->. by right.
Qed.

(** A validator that refuses blank texts and texts longer than [limit]. *)
Lemma accepts_iff (s : string) (limit : Z) (blank long : ValidationResult) :
  valid blank = false → valid long = false →
  valid (if (str_length s =? 0) || (str_length (Text.trim s) =? 0) then blank
         else if limit <? str_length s then long
         else mkValidation true None) = true
  ↔ Text.trim s ≠ EmptyString ∧ str_length s ≤ limit.
Proof.
  intros Hb Hl. pose proof (blank_iff s) as Hblank.
  destruct ((str_length s =? 0) || (str_length (Text.trim s) =? 0)).
  - rewrite Hb. split; [done|]. intros [Hne _]. destruct Hne. by apply Hblank.
  - destruct (limit <? str_length s) eqn:E.
    + apply Z.ltb_lt in E. rewrite Hl. split; [done|]. lia.
    + apply Z.ltb_ge in E. simpl. split; [|done]. intros _. split; [|done].
      intros Ht. by apply Hblank in Ht.
Qed.

End ValidatorFacts.

(** X30. The three validators accept exactly the texts that are not blank
    (not empty once trimmed) and not longer than their limit: 100
    characters for a title, 200 for a topic, 500 for a message.  So the
    trimmed title and topic that POST /api/chatrooms stores have at least
    one character and at most 100 and 200, and a message that was accepted
    and cleaned by [sanitizeInput] has at most 500. *)
Theorem validators_accept_bounded_texts :
  (∀ title,
     valid (validateChatRoomTitle title) = true
     ↔ Text.trim title ≠ EmptyString ∧ str_length title ≤ 100) ∧
  (∀ topic,
     valid (validateChatRoomTopic topic) = true
     ↔ Text.trim topic ≠ EmptyString ∧ str_length topic ≤ 200) ∧
  (∀ content,
     valid (validateMessageContent content) = true
     ↔ Text.trim content ≠ EmptyString ∧ str_length content ≤ 500) ∧
  (∀ title, valid (validateChatRoomTitle title) = true →
            1 ≤ str_length (Text.trim title) ≤ 100) ∧
  (∀ topic, valid (validateChatRoomTopic topic) = true →
            1 ≤ str_length (Text.trim topic) ≤ 200) ∧
  (∀ content, valid (validateMessageContent content) = true →
              str_length (sanitizeInput content) ≤ 500).
Proof.
  assert (H1 : ∀ title,
    valid (validateChatRoomTitle title) = true
    ↔ Text.trim title ≠ EmptyString ∧ str_length title ≤ 100)
    by (intros title; by apply ValidatorFacts.accepts_iff).
  assert (H2 : ∀ topic,
    valid (validateChatRoomTopic topic) = true
    ↔ Text.trim topic ≠ EmptyString ∧ str_length topic ≤ 200)
    by (intros topic; by apply ValidatorFacts.accepts_iff).
  assert (H3 : ∀ content,
    valid (validateMessageContent content) = true
    ↔ Text.trim content ≠ EmptyString ∧ str_length content ≤ 500)
    by (intros content; by apply ValidatorFacts.accepts_iff).
  assert (Hpos : ∀ s, Text.trim s ≠ EmptyString → 1 ≤ str_length (Text.trim s)).
  { intros s Hne. unfold str_length. destruct (Text.trim s); [done|simpl; lia]. }
  split; [done|]. split; [done|]. split; [done|]. split; [|split].
  - intros title Hv. apply H1 in Hv as [Hne Hlen]. split; [by apply Hpos|].
    pose proof (SanitizeFacts.trim_length title). unfold str_length in *. lia.
  - intros topic Hv. apply H2 in Hv as [Hne Hlen]. split; [by apply Hpos|].
    pose proof (SanitizeFacts.trim_length topic). unfold str_length in *. lia.
  - intros content Hv. apply H3 in Hv as [_ Hlen].
    unfold sanitizeInput, str_length in *. rewrite SanitizeFacts.substring_length.
    pose proof (SanitizeFacts.remove_angle_brackets_length (Text.trim content)).
    pose proof (SanitizeFacts.trim_length content). lia.
Qed.
